(** * Baseball-Tracker: the labelling tool, the trainer and the exporter

    A shallow embedding of the three scripts of the repository:

    - [main.py], the interactive labelling tool, as a state machine over the
      key codes returned by [cv2.waitKey] and the mouse events delivered to
      the [draw_box] callback, with the label files on disk as a finite map;
    - [training.py] and [export.py], as the sequence of library calls each
      script performs.

    Python's [float] is IEEE 754 binary64.  It is modelled with the Standard
    Library's executable specification of binary floating point
    ([SpecFloat], precision 53, exponent bound 1024): [/] is [SFdiv], the
    conversion of an [int] is [binary_normalize], and [format(x, ".6f")] is
    the correctly rounded six-digit decimal expansion of the exact binary
    value. *)

From Stdlib Require Import ZArith QArith Qpower Qabs Qround Lia Lra Lqa.
From Stdlib Require Import String Ascii List SpecFloat DecimalString Sorted.
From stdpp Require Import base list strings gmap.

Local Open Scope Z_scope.

(** ** Part I: the model *)

(** *** Python floats *)

Module Binary64.

Definition prec : Z := 53.
Definition emax : Z := 1024.

(** [float(n)] for an [int] [n]: exact when [|n| < 2^53], which covers
    every pixel coordinate and image dimension (C [int]s in OpenCV). *)
Definition of_int (n : Z) : spec_float := binary_normalize prec emax n 0 false.

(** [x / y] on floats with a non-zero divisor (Python raises
    [ZeroDivisionError] on a zero divisor; the divisors of the labelling tool
    are the literal [2] and the dimensions of a decoded image, which are
    positive). *)
Definition truediv (x y : spec_float) : spec_float := SFdiv prec emax x y.

(** [a / b] on two [int]s: Python's true division, the correctly rounded
    quotient; for operands below [2^53] it is the quotient of the two
    conversions. *)
Definition int_truediv (a b : Z) : spec_float := truediv (of_int a) (of_int b).

Definition is_finite (x : spec_float) : bool :=
  match x with
  | S754_zero _ | S754_finite _ _ _ => true
  | _ => false
  end.

Definition pow2 (e : Z) : Q := ((2 # 1) ^ e)%Q.

(** The real number a finite float denotes (0 for infinities and NaN, which
    never arise on the paths studied here). *)
Definition SF2Q (x : spec_float) : Q :=
  match x with
  | S754_finite s m e => (inject_Z (cond_Zopp s (Z.pos m)) * pow2 e)%Q
  | _ => 0%Q
  end.

(** Vocabulary for the rounding lemmas. *)

(** A full 53-bit significand. *)
Definition N53 (m : Z) : Prop := 2 ^ 52 <= m < 2 ^ 53.

(** Position of a remainder [r] (out of [d]) with respect to one half. *)
Definition loc_of (r d : Z) : location :=
  if r =? 0 then loc_Exact else loc_Inexact (2 * r ?= d).

(** The real number [n / d], for [0 < d], lies in [[m, m + 1)] at location [l]. *)
Definition inbetween (n d m : Z) (l : location) : Prop :=
  0 < d /\ 0 <= n - m * d < d /\ l = loc_of (n - m * d) d.

(** Rounding to nearest even of a 53-bit significand located at [l], with the
    renormalisation when the significand overflows to [2^53]. *)
Definition round_mant (m e : Z) (l : location) : Z * Z :=
  let m2 := round_nearest_even m l in
  if m2 =? 2 ^ 53 then (2 ^ 52, e + 1) else (m2, e).

(** A finite float with a full significand and its exponent in [[lo, hi]]. *)
Definition normal53 (lo hi : Z) (x : spec_float) : Prop :=
  match x with
  | S754_finite _ m e => N53 (Z.pos m) /\ lo <= e <= hi
  | _ => False
  end.

(** The magnitude and the sign bit of a float. *)
Definition mag (x : spec_float) : Q :=
  match x with
  | S754_finite _ m e => (inject_Z (Z.pos m) * pow2 e)%Q
  | _ => 0%Q
  end.

Definition sign_bit (x : spec_float) : bool :=
  match x with
  | S754_zero s | S754_infinity s | S754_finite s _ _ => s
  | S754_nan => false
  end.

(** [z] is on the same side of every number with a full significand as the
    real number [v] is: a monotone rounding of [v] to the binary64 grid. *)
Definition rounds (v : Q) (z : spec_float) : Prop :=
  (forall k b, N53 k -> (v <= inject_Z k * pow2 b)%Q -> (mag z <= inject_Z k * pow2 b)%Q)
  /\ (forall k b, N53 k -> (inject_Z k * pow2 b <= v)%Q -> (inject_Z k * pow2 b <= mag z)%Q).

End Binary64.

(** *** Python string formatting *)

Module PyFormat.

Definition digit (d : Z) : ascii := ascii_of_N (48 + Z.to_N d).

(** [str(n)] for a non-negative [int]. *)
Definition str_nat (n : Z) : string :=
  NilZero.string_of_uint (N.to_uint (Z.to_N n)).

(** Six decimal digits, zero padded. *)
Definition zfill6 (n : Z) : string :=
  String (digit (n / 100000 mod 10))
    (String (digit (n / 10000 mod 10))
       (String (digit (n / 1000 mod 10))
          (String (digit (n / 100 mod 10))
             (String (digit (n / 10 mod 10))
                (String (digit (n mod 10)) EmptyString))))).

(** [n / d] rounded to the nearest integer, ties to even. *)
Definition round_half_even (n d : Z) : Z :=
  let q := n / d in
  match 2 * (n mod d) ?= d with
  | Lt => q
  | Eq => if Z.even q then q else q + 1
  | Gt => q + 1
  end.

(** [m * 2^e * 10^6] rounded to the nearest integer, ties to even: the
    digits [format] prints for a finite float of magnitude [m * 2^e]. *)
Definition micro (m : positive) (e : Z) : Z :=
  if 0 <=? e then Z.pos m * 2 ^ e * 10 ^ 6
  else round_half_even (Z.pos m * 10 ^ 6) (2 ^ (- e)).

Definition sign_str (s : bool) : string := if s then "-" else "".

(** [format(x, ".6f")], as in the f-string field [{x:.6f}]. *)
Definition format_6f (x : spec_float) : string :=
  match x with
  | S754_nan => "nan"
  | S754_infinity s => sign_str s +:+ "inf"
  | S754_zero s => sign_str s +:+ "0.000000"
  | S754_finite s m e =>
      let n := micro m e in
      sign_str s +:+ str_nat (n / 10 ^ 6) +:+ "." +:+ zfill6 (n mod 10 ^ 6)
  end.

(** Recognisers used to state the shape of a label line. *)

Definition is_digit (c : ascii) : bool :=
  let n := Z.of_N (N_of_ascii c) in (48 <=? n) && (n <=? 57).

Fixpoint all_digits (s : string) : bool :=
  match s with
  | EmptyString => true
  | String c s' => is_digit c && all_digits s'
  end.

(** [digits+ "." digit{6}] *)
Fixpoint is_unsigned_fixed6 (s : string) : bool :=
  match s with
  | EmptyString => false
  | String c s' =>
      if Ascii.eqb c "." then (String.length s' =? 6)%nat && all_digits s'
      else is_digit c && is_unsigned_fixed6 s'
  end.

(** An optional minus sign, at least one integer digit, a point and exactly
    six fractional digits. *)
Definition is_fixed6 (s : string) : bool :=
  match s with
  | String c s' =>
      if Ascii.eqb c "-" then
        match s' with
        | String d _ => is_digit d && is_unsigned_fixed6 s'
        | EmptyString => false
        end
      else is_digit c && is_unsigned_fixed6 s
  | EmptyString => false
  end.

(** The string has no occurrence of the character. *)
Fixpoint lacks (c : ascii) (s : string) : bool :=
  match s with
  | EmptyString => true
  | String a s' => negb (Ascii.eqb a c) && lacks c s'
  end.

Definition newline : ascii := "010".

(** [s.splitlines()] for text whose only line terminator is the line feed. *)
Fixpoint splitlines (s : string) : list string :=
  match s with
  | EmptyString => []
  | String c s' =>
      if Ascii.eqb c newline then EmptyString :: splitlines s'
      else match splitlines s' with
           | l :: ls => String c l :: ls
           | [] => [String c EmptyString]
           end
  end.

(** [s.split(" ")]: the fields between single spaces. *)
Fixpoint split_spaces (s : string) : list string :=
  match s with
  | EmptyString => [EmptyString]
  | String c s' =>
      if Ascii.eqb c " " then EmptyString :: split_spaces s'
      else match split_spaces s' with
           | f :: fs => String c f :: fs
           | [] => [String c EmptyString]
           end
  end.

(** A line of a label file, without its terminator: the class id [0] and
    four fields with six decimals, separated by single spaces. *)
Definition is_label_record (line : string) : bool :=
  match split_spaces line with
  | [c; xc; yc; bw; bh] =>
      String.eqb c "0" && is_fixed6 xc && is_fixed6 yc && is_fixed6 bw && is_fixed6 bh
  | _ => false
  end.

End PyFormat.

(** *** The parts of [os.path] and [str] the tool uses (POSIX flavour) *)

Module Posixpath.

Definition startswith (prefix s : string) : bool := String.prefix prefix s.

Definition endswith (suffix s : string) : bool :=
  let n := String.length s in
  let k := String.length suffix in
  (k <=? n)%nat && String.eqb (String.substring (n - k) k s) suffix.

(** [os.path.join(a, *p)] *)
Definition join2 (path b : string) : string :=
  if startswith "/" b then b
  else if String.eqb path "" || endswith "/" path then path +:+ b
  else path +:+ "/" +:+ b.

Definition join (a : string) (p : list string) : string := fold_left join2 p a.

(** [s.rfind(c)] for a one-character [c]: the last index, or [-1]. *)
Fixpoint rfind_from (c : ascii) (s : string) (i last : Z) : Z :=
  match s with
  | EmptyString => last
  | String a s' => rfind_from c s' (i + 1) (if Ascii.eqb a c then i else last)
  end.

Definition rfind (c : ascii) (s : string) : Z := rfind_from c s 0 (-1).

Fixpoint all_dots (s : string) : bool :=
  match s with
  | EmptyString => true
  | String c s' => Ascii.eqb c "." && all_dots s'
  end.

(** [os.path.splitext(p)]: the extension starts at the last dot of the last
    component, unless only dots precede it in that component. *)
Definition splitext (p : string) : string * string :=
  let sepIndex := rfind "/" p in
  let dotIndex := rfind "." p in
  if sepIndex <? dotIndex then
    let filenameIndex := Z.to_nat (sepIndex + 1) in
    let dot := Z.to_nat dotIndex in
    if all_dots (String.substring filenameIndex (dot - filenameIndex) p)
    then (p, EmptyString)
    else (String.substring 0 dot p,
          String.substring dot (String.length p - dot) p)
  else (p, EmptyString).

(** [s.lower()] on ASCII letters. *)
Definition lower_char (c : ascii) : ascii :=
  let n := N_of_ascii c in
  if ((65 <=? n) && (n <=? 90))%N then ascii_of_N (n + 32) else c.

Fixpoint lower (s : string) : string :=
  match s with
  | EmptyString => EmptyString
  | String c s' => String (lower_char c) (lower s')
  end.

End Posixpath.

(** *** [main.py]: the labelling tool *)

Module Labeling.

Import Binary64 PyFormat.

(** Paths *)
Definition dataset_folder : string := "/labelling/images.cv/data/".
Definition splits : list string := ["train"; "val"; "test"].
Definition class_id : Z := 0.

(** A committed box [(x1, y1, x2, y2)], in pixels. *)
Definition box : Type := Z * Z * Z * Z.

(** An image in memory: the file it was decoded from, its [shape] (rows,
    columns) and the rectangles drawn on it since, oldest first.  The pixels
    are those of the file with the rectangles painted over them. *)
Record rect := { pt1 : Z * Z; pt2 : Z * Z; color : Z * Z * Z; thickness : Z }.

Record Mat := { source : string; shape : positive * positive; painted : list rect }.

Definition green : Z * Z * Z := (0, 255, 0).
Definition red : Z * Z * Z := (0, 0, 255).

(** [cv2.rectangle(m, p1, p2, c, t)] *)
Definition rectangle (m : Mat) (p1 p2 : Z * Z) (c : Z * Z * Z) (t : Z) : Mat :=
  {| source := source m; shape := shape m;
     painted := painted m ++ [{| pt1 := p1; pt2 := p2; color := c; thickness := t |}] |}.

(** [for (x1, y1, x2, y2) in boxes: cv2.rectangle(m, (x1, y1), (x2, y2), c, 2)] *)
Definition rectangles (m : Mat) (boxes : list box) (c : Z * Z * Z) : Mat :=
  fold_left (fun m b => let '(x1, y1, x2, y2) := b in rectangle m (x1, y1) (x2, y2) c 2)
            boxes m.

(** The files the tool reads: directory listings and decodable images.  The
    tool never writes to them. *)
Record world := {
  listdir : string -> option (list string);
  image_shape : string -> option (positive * positive)
}.

(** [cv2.imread(path)]: [None] when the file is missing or not an image. *)
Definition imread (W : world) (path : string) : option Mat :=
  match image_shape W path with
  | Some sh => Some {| source := path; shape := sh; painted := [] |}
  | None => None
  end.

(** What the tool does to the outside. *)
Inductive effect :=
  | Print (line : string)
  | MakeDirs (path : string)
  | NamedWindow (name : string)
  | SetMouseCallback (name : string)
  | ImShow (name : string) (m : Mat)
  | DestroyWindow (name : string)
  | DestroyAllWindows
  | WriteFile (path : string) (content : string).

(** What the tool receives: a mouse event handed to the callback, or the
    value a call of [cv2.waitKey] returns ([-1] when no key was pressed). *)
Inductive mouse_event :=
  | EVENT_LBUTTONDOWN
  | EVENT_MOUSEMOVE
  | EVENT_LBUTTONUP
  | EVENT_OTHER.

Inductive input :=
  | Mouse (event : mouse_event) (x y : Z)
  | WaitKey (code : Z).

(** Where control waits for the next input. *)
Inductive control :=
  | MainLoop      (* [cv2.waitKey(1)], line 57 *)
  | PreviewLoop   (* [cv2.waitKey(0)], line 67 *)
  | Exited
  | Crashed.

Record state := {
  (* globals *)
  drawing : bool;
  ix : Z;
  iy : Z;
  current_boxes : list box;
  img : Mat;
  (* variables of the loops *)
  split : string;
  img_name : string;
  img_files : list string;     (* the images of the split still to come *)
  splits_left : list string;   (* the splits still to come *)
  h : positive;
  w : positive;
  (* the label files on disk *)
  files : gmap string string;
  pc : control
}.

Definition img_folder (split : string) : string :=
  Posixpath.join dataset_folder [split; "baseball"].

Definition labels_folder (split : string) : string :=
  Posixpath.join dataset_folder [split; "labels"].

Definition img_path (split img_name : string) : string :=
  Posixpath.join (img_folder split) [img_name].

Definition label_path (split img_name : string) : string :=
  Posixpath.join (labels_folder split) [fst (Posixpath.splitext img_name) +:+ ".txt"].

Definition is_image_file (f : string) : bool :=
  let l := Posixpath.lower f in
  Posixpath.endswith ".png" l || Posixpath.endswith ".jpg" l || Posixpath.endswith ".jpeg" l.

(** Lines 72-75. *)
Record label := {
  x_center : spec_float;
  y_center : spec_float;
  width : spec_float;
  height : spec_float
}.

Definition normalize (b : box) (w h : positive) : label :=
  let '(x1, y1, x2, y2) := b in
  {| x_center := truediv (int_truediv (x1 + x2) 2) (of_int (Z.pos w));
     y_center := truediv (int_truediv (y1 + y2) 2) (of_int (Z.pos h));
     width := int_truediv (Z.abs (x2 - x1)) (Z.pos w);
     height := int_truediv (Z.abs (y2 - y1)) (Z.pos h) |}.

(** Line 76: the text of one [f.write], first without its final line feed. *)
Definition label_record (b : box) (w h : positive) : string :=
  let l := normalize b w h in
  str_nat class_id +:+ " " +:+ format_6f (x_center l) +:+ " " +:+
  format_6f (y_center l) +:+ " " +:+ format_6f (width l) +:+ " " +:+
  format_6f (height l).

Definition label_line (b : box) (w h : positive) : string :=
  label_record b w h +:+ String newline EmptyString.

(** Lines 70-76: the content of the file once it is closed. *)
Definition label_text (boxes : list box) (w h : positive) : string :=
  fold_right String.append EmptyString (map (fun b => label_line b w h) boxes).

Definition set_pc (s : state) (c : control) : state :=
  {| drawing := drawing s; ix := ix s; iy := iy s; current_boxes := current_boxes s;
     img := img s; split := split s; img_name := img_name s; img_files := img_files s;
     splits_left := splits_left s; h := h s; w := w s; files := files s; pc := c |}.

Definition set_files (s : state) (f : gmap string string) : state :=
  {| drawing := drawing s; ix := ix s; iy := iy s; current_boxes := current_boxes s;
     img := img s; split := split s; img_name := img_name s; img_files := img_files s;
     splits_left := splits_left s; h := h s; w := w s; files := f; pc := pc s |}.

Definition set_split (s : state) (sp : string) : state :=
  {| drawing := drawing s; ix := ix s; iy := iy s; current_boxes := current_boxes s;
     img := img s; split := sp; img_name := img_name s; img_files := img_files s;
     splits_left := splits_left s; h := h s; w := w s; files := files s; pc := pc s |}.

(** Lines 14-33: the mouse callback. *)
Definition draw_box (event : mouse_event) (x y : Z) (s : state) : state * list effect :=
  match event with
  | EVENT_LBUTTONDOWN =>
      ({| drawing := true; ix := x; iy := y; current_boxes := current_boxes s;
          img := img s; split := split s; img_name := img_name s;
          img_files := img_files s; splits_left := splits_left s; h := h s; w := w s;
          files := files s; pc := pc s |}, [])
  | EVENT_MOUSEMOVE =>
      if drawing s then
        let img_copy := rectangles (img s) (current_boxes s) green in
        let img_copy := rectangle img_copy (ix s, iy s) (x, y) red 2 in
        (s, [ImShow "image" img_copy])
      else (s, [])
  | EVENT_LBUTTONUP =>
      let img' := rectangle (img s) (ix s, iy s) (x, y) green 2 in
      ({| drawing := false; ix := ix s; iy := iy s;
          current_boxes := current_boxes s ++ [(ix s, iy s, x, y)];
          img := img'; split := split s; img_name := img_name s;
          img_files := img_files s; splits_left := splits_left s; h := h s; w := w s;
          files := files s; pc := pc s |}, [ImShow "image" img'])
  | EVENT_OTHER => (s, [])
  end.

(** Lines 45-56: the body of the loop over the images, up to the first
    [cv2.waitKey].  An undecodable file makes [img.shape] raise. *)
Definition load_image (W : world) (s : state) (sp name : string)
    (rest todo : list string) : state * list effect :=
  match imread W (img_path sp name) with
  | None =>
      ({| drawing := drawing s; ix := ix s; iy := iy s; current_boxes := current_boxes s;
          img := img s; split := sp; img_name := name; img_files := rest;
          splits_left := todo; h := h s; w := w s; files := files s; pc := Crashed |}, [])
  | Some m =>
      ({| drawing := drawing s; ix := ix s; iy := iy s; current_boxes := [];
          img := m; split := sp; img_name := name; img_files := rest;
          splits_left := todo; h := fst (shape m); w := snd (shape m);
          files := files s; pc := MainLoop |},
       [NamedWindow "image"; SetMouseCallback "image";
        Print ("[" +:+ sp +:+ "] Labeling " +:+ name +:+
               ". Press 's' to preview/save, 'n' to skip, 'r' to reset boxes.");
        ImShow "image" m])
  end.

(** Lines 37-44 and 91-92: the loop over the splits, up to the first image
    that exists; a missing image directory makes [os.listdir] raise. *)
Fixpoint enter_splits (W : world) (todo : list string) (s : state) : state * list effect :=
  match todo with
  | [] =>
      (set_pc s Exited,
       [DestroyAllWindows; Print "All YOLO annotations saved successfully with preview!"])
  | sp :: todo' =>
      match listdir W (img_folder sp) with
      | None => (set_pc (set_split s sp) Crashed, [MakeDirs (labels_folder sp)])
      | Some names =>
          match List.filter is_image_file names with
          | [] =>
              let '(s', out) := enter_splits W todo' (set_split s sp) in
              (s', MakeDirs (labels_folder sp) :: out)
          | name :: rest =>
              let '(s', out) := load_image W s sp name rest todo' in
              (s', MakeDirs (labels_folder sp) :: out)
          end
      end
  end.

(** Leaving the [while] loop of an image: on to the next image, split, or the end. *)
Definition next_image (W : world) (s : state) : state * list effect :=
  match img_files s with
  | name :: rest => load_image W s (split s) name rest (splits_left s)
  | [] => enter_splits W (splits_left s) s
  end.

Definition ord (c : ascii) : Z := Z.of_N (N_of_ascii c).

(** Lines 87-89. *)
Definition reset (W : world) (s : state) : state * list effect :=
  match imread W (img_path (split s) (img_name s)) with
  | Some m =>
      ({| drawing := drawing s; ix := ix s; iy := iy s; current_boxes := [];
          img := m; split := split s; img_name := img_name s;
          img_files := img_files s; splits_left := splits_left s; h := h s; w := w s;
          files := files s; pc := MainLoop |}, [ImShow "image" m])
  | None =>
      ({| drawing := drawing s; ix := ix s; iy := iy s; current_boxes := [];
          img := img s; split := split s; img_name := img_name s;
          img_files := img_files s; splits_left := splits_left s; h := h s; w := w s;
          files := files s; pc := Crashed |}, [])
  end.

(** Lines 55-89: one input, from one [cv2.waitKey] to the next. *)
Definition step (W : world) (s : state) (i : input) : state * list effect :=
  match pc s, i with
  | (MainLoop | PreviewLoop), Mouse event x y => draw_box event x y s
  | MainLoop, WaitKey code =>
      let key := Z.land code 255 in
      if key =? ord "s" then
        let preview_img := rectangles (img s) (current_boxes s) red in
        (set_pc s PreviewLoop,
         [ImShow "Preview" preview_img;
          Print "Previewing boxes. Press 'y' to save, 'n' to cancel."])
      else if key =? ord "n" then next_image W s
      else if key =? ord "r" then reset W s
      else (s, [ImShow "image" (img s)])
  | PreviewLoop, WaitKey code =>
      let k := Z.land code 255 in
      if k =? ord "y" then
        let path := label_path (split s) (img_name s) in
        let text := label_text (current_boxes s) (w s) (h s) in
        let '(s', out) := next_image W (set_files s (<[path := text]> (files s))) in
        (s', WriteFile path text :: DestroyWindow "Preview" :: out)
      else if k =? ord "n" then
        let '(s', out) := next_image W s in
        (s', Print "Canceled saving boxes for this image." :: DestroyWindow "Preview" :: out)
      else (s, [])
  | (Exited | Crashed), _ => (s, [])
  end.

(** A session: the inputs in the order the tool receives them. *)
Fixpoint run (W : world) (s : state) (inputs : list input) : state * list effect :=
  match inputs with
  | [] => (s, [])
  | i :: inputs' =>
      let '(s1, out1) := step W s i in
      let '(s2, out2) := run W s1 inputs' in
      (s2, out1 ++ out2)
  end.

(** Lines 9-12 and 36: the program before its first input.  [img], [h] and
    [w] are unbound until the first image is decoded; the record holds an
    empty placeholder there, which [enter_splits] overwrites before any
    transition reads it. *)
Definition boot (disk : gmap string string) : state :=
  {| drawing := false; ix := -1; iy := -1; current_boxes := [];
     img := {| source := EmptyString; shape := (1%positive, 1%positive); painted := [] |};
     split := EmptyString; img_name := EmptyString; img_files := []; splits_left := splits;
     h := 1%positive; w := 1%positive; files := disk; pc := MainLoop |}.

Definition start (W : world) (disk : gmap string string) : state * list effect :=
  enter_splits W splits (boot disk).

(** Vocabulary for the claims. *)

(** The files an output writes, oldest first. *)
Definition file_writes (out : list effect) : list (string * string) :=
  flat_map (fun e => match e with WriteFile p c => [(p, c)] | _ => [] end) out.

(** The operator confirms the save: the key read while the Preview is open
    is [y]. *)
Definition confirms (s : state) (i : input) : bool :=
  match pc s, i with
  | PreviewLoop, WaitKey code => Z.land code 255 =? ord "y"
  | _, _ => false
  end.

(** The states in which the confirmations of a session are received. *)
Fixpoint confirmations (W : world) (s : state) (inputs : list input) : list state :=
  match inputs with
  | [] => []
  | i :: inputs' =>
      (if confirms s i then [s] else []) ++ confirmations W (fst (step W s i)) inputs'
  end.

(** The label file of the current image and the text its boxes give. *)
Definition save_of (s : state) : string * string :=
  (label_path (split s) (img_name s), label_text (current_boxes s) (w s) (h s)).

Definition write_all (disk : gmap string string) (saves : list (string * string)) :
    gmap string string :=
  fold_left (fun d pt => <[fst pt := snd pt]> d) saves disk.

(** OpenCV hands pixel coordinates and image dimensions over as C [int]s. *)
Definition int32 (z : Z) : Prop := - 2 ^ 31 <= z < 2 ^ 31.

Definition box_ok (b : box) : Prop :=
  let '(x1, y1, x2, y2) := b in int32 x1 /\ int32 y1 /\ int32 x2 /\ int32 y2.

Definition dim_ok (d : positive) : Prop := Z.pos d < 2 ^ 31.

Definition input_ok (i : input) : Prop :=
  match i with
  | Mouse _ x y => int32 x /\ int32 y
  | WaitKey _ => True
  end.

Definition world_ok (W : world) : Prop :=
  forall p sh, image_shape W p = Some sh -> dim_ok (fst sh) /\ dim_ok (snd sh).

Definition state_ok (s : state) : Prop :=
  int32 (ix s) /\ int32 (iy s) /\ Forall box_ok (current_boxes s)
  /\ dim_ok (h s) /\ dim_ok (w s).

(** The corners of the box lie within an image of [w] columns and [h] rows. *)
Definition in_image (b : box) (w h : positive) : Prop :=
  let '(x1, y1, x2, y2) := b in
  0 <= x1 <= Z.pos w /\ 0 <= x2 <= Z.pos w /\ 0 <= y1 <= Z.pos h /\ 0 <= y2 <= Z.pos h.

(** The tool is on the same image, with the same label files on disk. *)
Definition same_image (s s' : state) : Prop :=
  split s' = split s /\ img_name s' = img_name s /\ h s' = h s /\ w s' = w s
  /\ files s' = files s.

(** The four spatial fields of a label, as real numbers. *)
Definition fields (l : label) : list Q :=
  [SF2Q (x_center l); SF2Q (y_center l); SF2Q (width l); SF2Q (height l)].

End Labeling.

(** *** [training.py] and [export.py]: calls into the detection library *)

Module Ultralytics.

(** A keyword argument's value; a float literal is kept as written. *)
Inductive value :=
  | Str (s : string)
  | Int (n : Z)
  | Float (literal : string)
  | Bool (b : bool).

Inductive call :=
  | print (line : string)
  | YOLO (model : string)                       (* [YOLO(path)]: load a model *)
  | train (kwargs : list (string * value))      (* [model.train(...)] *)
  | export (kwargs : list (string * value)).    (* [model.export(...)] *)

Fixpoint kwarg (name : string) (kwargs : list (string * value)) : option value :=
  match kwargs with
  | [] => None
  | (k, v) :: rest => if String.eqb k name then Some v else kwarg name rest
  end.

Definition is_load (c : call) : bool := match c with YOLO _ => true | _ => false end.
Definition is_train (c : call) : bool := match c with train _ => true | _ => false end.
Definition is_export (c : call) : bool := match c with export _ => true | _ => false end.

End Ultralytics.

Module Trainer.

Import Ultralytics.

(** Line 6; [cuda_is_available] is what [torch.cuda.is_available()] returns. *)
Definition device (cuda_is_available : bool) : string :=
  if cuda_is_available then "cuda" else "cpu".

(** Lines 5-34. *)
Definition main (cuda_is_available : bool) : list call :=
  let device := device cuda_is_available in
  [ print ("Using device: " +:+ device);
    YOLO "yolov8n.yaml";
    train [ ("data", Str "baseball.yaml");
            ("epochs", Int 200);
            ("imgsz", Int 960);
            ("batch", Int 16);
            ("device", Str device);
            ("project", Str "runs/baseball_yolo");
            ("name", Str "from_scratch_v1");
            ("optimizer", Str "AdamW");
            ("lr0", Float "1e-3");
            ("patience", Int 30);
            ("mosaic", Float "1.0");
            ("degrees", Int 10);
            ("translate", Float "0.1");
            ("scale", Float "0.5");
            ("shear", Float "0.2");
            ("flipud", Float "0.0");
            ("fliplr", Float "0.5");
            ("hsv_h", Float "0.015");
            ("hsv_s", Float "0.7");
            ("hsv_v", Float "0.4");
            ("close_mosaic", Int 20) ] ].

End Trainer.

Module Exporter.

Import Ultralytics.

(** Lines 4-12: the whole script. *)
Definition script : list call :=
  [ YOLO "best.pt";
    export [ ("format", Str "coreml");
             ("nms", Bool true);
             ("dynamic", Bool false);
             ("half", Bool false) ] ].

End Exporter.

(** *** The formulas of a label over exact rationals *)

Module Exact.

Local Open Scope Q_scope.

(** Lines 72-75 of [main.py], read as real arithmetic. *)
Definition center (a b w : Q) : Q := ((a + b) / 2) / w.
Definition extent (a b w : Q) : Q := Qabs (b - a) / w.

(** The reconstruction of two opposite corners from a centre [c] and an
    extent [e], as the round-trip property words it:
    [x1 = (xc - bw/2) * w] and [x2 = (xc + bw/2) * w]. *)
Definition corner_lo (c e w : Q) : Q := (c - e / 2) * w.
Definition corner_hi (c e w : Q) : Q := (c + e / 2) * w.

Definition tolerance : Q := 1 # 1000000.

End Exact.

(** *** A small dataset for the examples *)

Module Scenario.

Import Labeling.

(** Two 100 x 100 images in the [train] split, and a text file the tool
    skips; the other splits are empty. *)
Definition world1 : world :=
  {| listdir := fun d =>
       if String.eqb d (img_folder "train") then Some ["a.png"; "notes.txt"; "b.png"]
       else Some [];
     image_shape := fun p =>
       if String.eqb p (img_path "train" "a.png") || String.eqb p (img_path "train" "b.png")
       then Some (100%positive, 100%positive) else None |}.

(** The tool waiting for its first input, on [a.png], with no label file
    on disk. *)
Definition on_a : state := fst (start world1 ∅).

Definition click (x y : Z) : list input :=
  [Mouse EVENT_LBUTTONDOWN x y; Mouse EVENT_LBUTTONUP x y].

Definition drag (x1 y1 x2 y2 : Z) : list input :=
  [Mouse EVENT_LBUTTONDOWN x1 y1; Mouse EVENT_LBUTTONUP x2 y2].

Definition press (c : ascii) : input := WaitKey (ord c).

End Scenario.

(** *** The dataset as the tool walks it *)

Module Dataset.

Import Labeling.

(** The image files of a split, in the order [os.listdir] gives them
    (line 42); none when the directory is missing. *)
Definition images_of (W : world) (sp : string) : list string :=
  match listdir W (img_folder sp) with
  | Some names => List.filter is_image_file names
  | None => []
  end.

(** The images of some splits, each with its split, in visiting order. *)
Definition playlist (W : world) (sps : list string) : list (string * string) :=
  flat_map (fun sp => map (pair sp) (images_of W sp)) sps.

(** The images still to come after the current one. *)
Definition todo (W : world) (s : state) : list (string * string) :=
  map (pair (split s)) (img_files s) ++ playlist W (splits_left s).

(** Control waits in one of the two loops. *)
Definition running (s : state) : Prop := pc s = MainLoop \/ pc s = PreviewLoop.

(** The input makes the tool leave the current image: [n] in the main
    loop (line 84), [y] or [n] while the Preview is open (lines 68-83). *)
Definition leaves (s : state) (i : input) : bool :=
  match pc s, i with
  | MainLoop, WaitKey code => Z.land code 255 =? ord "n"
  | PreviewLoop, WaitKey code =>
      (Z.land code 255 =? ord "y") || (Z.land code 255 =? ord "n")
  | _, _ => false
  end.

(** How many inputs of a session make the tool leave an image. *)
Fixpoint departures (W : world) (s : state) (inputs : list input) : nat :=
  match inputs with
  | [] => 0%nat
  | i :: inputs' =>
      ((if leaves s i then 1 else 0) + departures W (fst (step W s i)) inputs')%nat
  end.

(** One drag per box, in order. *)
Definition drags (boxes : list box) : list input :=
  flat_map (fun b => let '(x1, y1, x2, y2) := b in Scenario.drag x1 y1 x2 y2) boxes.

(** The green rectangle line 32 paints for a committed box. *)
Definition green_rect (b : box) : rect :=
  let '(x1, y1, x2, y2) := b in
  {| pt1 := (x1, y1); pt2 := (x2, y2); color := green; thickness := 2 |}.

(** The image in memory is the current image file with the committed boxes,
    and only them, painted in green, oldest first; the file is still the
    one that was decoded, with the dimensions the tool holds. *)
Definition shows_boxes (W : world) (s : state) : Prop :=
  source (img s) = img_path (split s) (img_name s)
  /\ shape (img s) = (h s, w s)
  /\ painted (img s) = map green_rect (current_boxes s)
  /\ image_shape W (img_path (split s) (img_name s)) = Some (h s, w s).

(** The tool is on image number [k] of the dataset, the images after it
    are still to come, and the window shows the committed boxes; or it has
    ended, and [k] is the number of images of the dataset. *)
Definition at_image (W : world) (s : state) (k : nat) : Prop :=
  (running s ->
   nth_error (playlist W splits) k = Some (split s, img_name s)
   /\ skipn (S k) (playlist W splits) = todo W s
   /\ shows_boxes W s)
  /\ (pc s = Exited -> k = length (playlist W splits)).

(** An input other than a press of the left button. *)
Definition no_press (i : input) : Prop :=
  match i with
  | Mouse EVENT_LBUTTONDOWN _ _ => False
  | _ => True
  end.

(** The last text written to [path] in an output, if any. *)
Definition last_write (path : string) (writes : list (string * string)) : option string :=
  fold_left (fun acc pt => if String.eqb (fst pt) path then Some (snd pt) else acc)
            writes None.

(** The directories an output creates, oldest first. *)
Definition made_dirs (out : list effect) : list string :=
  flat_map (fun e => match e with MakeDirs p => [p] | _ => [] end) out.



(** Lines 91-92: what the program does after the last image. *)
Definition farewell : list effect :=
  [DestroyAllWindows; Print "All YOLO annotations saved successfully with preview!"].

Definition is_farewell (e : effect) : bool :=
  match e with
  | DestroyAllWindows => true
  | Print line => String.eqb line "All YOLO annotations saved successfully with preview!"
  | _ => false
  end.

(** The names a directory listing holds have no slash in them, as those
    [os.listdir] returns. *)
Definition plain_names (W : world) : Prop :=
  forall d names, listdir W d = Some names ->
  Forall (fun name => PyFormat.lacks "/" name = true) names.

(** Every file of an output is written directly in the label directory of
    a split, and that directory was created before the write: its path is
    the directory, a slash and a name without a slash, and the directory
    is in [made], the directories created before the output, or is created
    earlier in the output. *)
Fixpoint writes_after_makedirs (made : list string) (out : list effect) : Prop :=
  match out with
  | [] => True
  | MakeDirs d :: out' => writes_after_makedirs (d :: made) out'
  | WriteFile p _ :: out' =>
      (exists sp base,
         In sp splits /\ In (labels_folder sp) made
         /\ PyFormat.lacks "/" base = true
         /\ p = labels_folder sp +:+ "/" +:+ base)
      /\ writes_after_makedirs made out'
  | _ :: out' => writes_after_makedirs made out'
  end.

(** The label directories are created in the order of the splits: [acc]
    holds those created so far. *)
Definition dirs_made (acc : list string) (s : state) : Prop :=
  match pc s with
  | Crashed => True
  | Exited => acc = map labels_folder splits
  | _ => acc ++ map labels_folder (splits_left s) = map labels_folder splits
  end.

End Dataset.

(** *** Reading a field back *)

Module Reading.

Import PyFormat.

(** A field that reads [1.000000] or [0.dddddd]. *)
Definition is_unit_field (f : string) : Prop :=
  f = "1.000000" \/ exists n, 0 <= n < 10 ^ 6 /\ f = "0." +:+ zfill6 n.

(** A field that reads [0.dddddd] with digits from [000001] to [999999]:
    a decimal strictly between 0 and 1. *)
Definition is_inner_field (f : string) : Prop :=
  exists n, 1 <= n <= 999999 /\ f = "0." +:+ zfill6 n.

(** The float [z] prints as the decimal [n / 10^6], digit for digit, and
    that decimal is within [tol] of the number [v]. *)
Definition prints_within (tol : Q) (z : spec_float) (v : Q) : Prop :=
  exists n : Z,
    format_6f z = str_nat (n / 10 ^ 6) +:+ "." +:+ zfill6 (n mod 10 ^ 6)
    /\ (Qabs (inject_Z n / 1000000 - v) <= tol)%Q.

End Reading.

(** A goal of linear integer arithmetic with divisions by constants. *)
Ltac divlia := Z.to_euclidean_division_equations; lia.

(** ** Part II: facts about the model *)

(** *** Binary64: division of normal numbers rounds to nearest

    For two floats with full 53-bit significands and exponents far from the
    subnormal and overflow ranges, [SFdiv] returns a float with a full
    significand that lies on the same side of every representable number as
    the exact quotient does. *)

Section DivisionRounds.

Import Binary64.

Lemma digits2_pos_log2 (p : positive) :
  Z.pos (digits2_pos p) = Z.log2 (Z.pos p) + 1.
Proof.
  induction p as [p IH | p IH |]; simpl digits2_pos.
  - rewrite Pos2Z.inj_succ, IH. 
    change (Z.pos p~1) with (2 * Z.pos p + 1).
    rewrite Z.log2_succ_double by lia. lia.
  - rewrite Pos2Z.inj_succ, IH.
    change (Z.pos p~0) with (2 * Z.pos p).
    rewrite Z.log2_double by lia. lia.
  - reflexivity.
Qed.

Lemma digits2_pos_bounds (p : positive) (d : Z) :
  0 < d -> 2 ^ (d - 1) <= Z.pos p < 2 ^ d -> Z.pos (digits2_pos p) = d.
Proof.
  intros Hd H. rewrite digits2_pos_log2.
  assert (Z.log2 (Z.pos p) = d - 1); [|lia].
  apply Z.log2_unique; [lia|]. replace (Z.succ (d - 1)) with d by lia. exact H.
Qed.

Lemma new_location_loc_of (d r : Z) :
  0 <= r < d -> new_location d r = loc_of r d.
Proof.
  intros H. unfold new_location, new_location_even, new_location_odd, loc_of.
  destruct (Z.even d) eqn:Hev; destruct (r =? 0) eqn:Hr; try reflexivity.
  f_equal. 
  assert (Hodd : Z.odd d = true) by (rewrite <- Z.negb_even, Hev; reflexivity).
  apply Z.odd_spec in Hodd. destruct Hodd as [k Hk].
  destruct (2 * r + 1 ?= d) eqn:C1; destruct (2 * r ?= d) eqn:C2; try reflexivity;
  rewrite ?Z.compare_eq_iff, ?Z.compare_lt_iff, ?Z.compare_gt_iff in *; lia.
Qed.

Lemma loc_of_shr_record_of_loc m l :
  loc_of_shr_record (shr_record_of_loc m l) = l.
Proof. destruct l as [|[]]; reflexivity. Qed.

Lemma shr_m_of_loc m l : shr_m (shr_record_of_loc m l) = m.
Proof. destruct l as [|[]]; reflexivity. Qed.

Lemma fexp_normal (t : Z) : -1021 <= t -> fexp prec emax t = t - 53.
Proof. unfold fexp, SpecFloat.emin, prec, emax. lia. Qed.

Lemma round_nearest_even_cases m l :
  round_nearest_even m l = m \/ round_nearest_even m l = m + 1.
Proof. destruct l as [|[]]; simpl; try destruct (Z.even m); auto. Qed.

Lemma shr_fexp_53 (m e : Z) (l : location) :
  N53 m -> -1074 <= e ->
  shr_fexp prec emax m e l = (shr_record_of_loc m l, e).
Proof.
  intros Hm He. unfold shr_fexp.
  destruct m as [|p|p]; try (unfold N53 in Hm; lia).
  unfold Zdigits2. rewrite (digits2_pos_bounds p 53) by (unfold N53 in Hm; lia).
  rewrite fexp_normal by lia.
  replace (53 + e - 53 - e) with 0 by lia. reflexivity.
Qed.

Lemma shr_fexp_54 (m e : Z) (l : location) :
  2 ^ 53 <= m < 2 ^ 54 -> -1074 <= e ->
  shr_fexp prec emax m e l = (shr_1 (shr_record_of_loc m l), e + 1).
Proof.
  intros Hm He. unfold shr_fexp.
  destruct m as [|p|p]; try lia.
  unfold Zdigits2. rewrite (digits2_pos_bounds p 54) by lia.
  rewrite fexp_normal by lia.
  replace (54 + e - 53 - e) with 1 by lia. reflexivity.
Qed.

Lemma loc_of_exact r d : loc_of r d = loc_Exact <-> r = 0.
Proof.
  unfold loc_of. destruct (r =? 0) eqn:E.
  - apply Z.eqb_eq in E. tauto.
  - apply Z.eqb_neq in E. split; [discriminate|tauto].
Qed.

Lemma loc_of_inexact r d c :
  loc_of r d = loc_Inexact c <-> r <> 0 /\ (2 * r ?= d) = c.
Proof.
  unfold loc_of. destruct (r =? 0) eqn:E.
  - apply Z.eqb_eq in E. split; [discriminate|tauto].
  - apply Z.eqb_neq in E. split.
    + intros [= H]. tauto.
    + intros [_ H]. congruence.
Qed.

Lemma shr_1_inbetween (n d m : Z) (l : location) :
  0 <= m -> inbetween n d m l ->
  let mrs := shr_1 (shr_record_of_loc m l) in
  shr_m mrs = m / 2 /\ inbetween n (2 * d) (m / 2) (loc_of_shr_record mrs).
Proof.
  intros Hm (Hd & Hr & Hl). symmetry in Hl.
  assert (Hshr : forall r s, shr_1 (Build_shr_record m r s) =
             Build_shr_record (m / 2) (m mod 2 =? 1) (r || s)).
  { intros r s. destruct m as [|[p|p|]|]; try lia; cbn [shr_1].
    - reflexivity.
    - rewrite Pos2Z.inj_xI.
      replace ((2 * Z.pos p + 1) / 2) with (Z.pos p) by divlia.
      replace ((2 * Z.pos p + 1) mod 2) with 1 by divlia. reflexivity.
    - rewrite Pos2Z.inj_xO.
      replace (2 * Z.pos p / 2) with (Z.pos p) by divlia.
      replace ((2 * Z.pos p) mod 2) with 0 by divlia. reflexivity.
    - reflexivity. }
  assert (Hodd : m = 2 * (m / 2) + m mod 2) by (apply Z.div_mod; lia).
  assert (Hmod : 0 <= m mod 2 < 2) by (apply Z.mod_pos_bound; lia).
  set (h := m / 2) in *. set (b := m mod 2) in *.
  cbv zeta. unfold inbetween.
  destruct l as [|c].
  - apply loc_of_exact in Hl. cbn [shr_record_of_loc]. rewrite Hshr.
    cbn [shr_m]. split; [reflexivity|]. split; [lia|]. split; [nia|].
    destruct (b =? 1) eqn:Eb; [apply Z.eqb_eq in Eb|apply Z.eqb_neq in Eb];
      cbn [loc_of_shr_record orb]; symmetry.
    + apply loc_of_inexact. split; [nia|]. apply Z.compare_eq_iff. nia.
    + apply loc_of_exact. nia.
  - apply loc_of_inexact in Hl. destruct Hl as [Hne Hc].
    assert (Hs : shr_1 (shr_record_of_loc m (loc_Inexact c)) =
             Build_shr_record h (b =? 1) true).
    { destruct c; cbn [shr_record_of_loc]; rewrite Hshr; reflexivity. }
    rewrite Hs.
    cbn [shr_m]. split; [reflexivity|]. split; [lia|]. split; [nia|].
    destruct (b =? 1) eqn:Eb; [apply Z.eqb_eq in Eb|apply Z.eqb_neq in Eb];
      cbn [loc_of_shr_record]; symmetry; apply loc_of_inexact.
    + split; [nia|]. apply Z.compare_gt_iff. nia.
    + split; [nia|]. apply Z.compare_lt_iff. nia.
Qed.

Lemma round_finish (s : bool) (m e : Z) (l : location) :
  N53 m -> -1074 <= e < 971 ->
  (let '(mrs2, e2) := shr_fexp prec emax (round_nearest_even m l) e loc_Exact in
   match shr_m mrs2 with
   | 0 => S754_zero s
   | Z.pos m0 => if e2 <=? emax - prec then S754_finite s m0 e2 else S754_infinity s
   | Z.neg _ => S754_nan
   end) =
  S754_finite s (Z.to_pos (fst (round_mant m e l))) (snd (round_mant m e l)).
Proof.
  intros Hm He. 
  unfold round_mant.
  set (m2 := round_nearest_even m l).
  assert (H2 : m2 = m \/ m2 = m + 1) by apply round_nearest_even_cases.
  destruct (m2 =? 2 ^ 53) eqn:E.
  - apply Z.eqb_eq in E. rewrite E. 
    unfold shr_fexp.
    change (Zdigits2 (2 ^ 53)) with 54.
    rewrite fexp_normal by lia.
    replace (54 + e - 53 - e) with 1 by lia.
    unfold shr, iter_pos.
    change (shr_1 (shr_record_of_loc (2 ^ 53) loc_Exact))
      with (Build_shr_record (2 ^ 52) false false).
    cbn [shr_m fst snd].
    change (2 ^ 52) with (Z.pos (2 ^ 52)%positive) at 1.
    cbv iota beta.
    assert (Hle : (e + 1 <=? emax - prec) = true) by (apply Z.leb_le; unfold emax, prec; lia).
    rewrite Hle. reflexivity.
  - apply Z.eqb_neq in E.
    assert (H53 : N53 m2) by (unfold N53 in *; lia).
    rewrite shr_fexp_53 by (try assumption; lia).
    rewrite shr_m_of_loc. cbn [fst snd].
    destruct m2 as [|p|p]; try (unfold N53 in H53; lia).
    assert (Hle : (e <=? emax - prec) = true) by (apply Z.leb_le; unfold emax, prec; lia).
    rewrite Hle. reflexivity.
Qed.

Lemma binary_round_aux_normal (s : bool) (n d q e : Z) (l : location) :
  2 ^ 52 <= q < 2 ^ 54 -> -1074 <= e < 970 -> inbetween n d q l ->
  exists d' m e' l',
    binary_round_aux prec emax s q e l =
      S754_finite s (Z.to_pos (fst (round_mant m e' l'))) (snd (round_mant m e' l'))
    /\ N53 m /\ inbetween n d' m l'
    /\ ((d' = d /\ e' = e) \/ (d' = 2 * d /\ e' = e + 1)).
Proof.
  intros Hq He Hin. unfold binary_round_aux.
  destruct (Z_lt_le_dec q (2 ^ 53)) as [Hlt | Hge].
  - assert (H53 : N53 q) by (unfold N53; lia).
    rewrite shr_fexp_53 by (try assumption; lia).
    rewrite shr_m_of_loc, loc_of_shr_record_of_loc.
    exists d, q, e, l. split; [apply round_finish; [assumption|lia]|].
    split; [assumption|]. split; [assumption|]. left. split; reflexivity.
  - rewrite shr_fexp_54 by lia.
    destruct (shr_1_inbetween n d q l ltac:(lia) Hin) as [Hm Hin'].
    set (mrs := shr_1 (shr_record_of_loc q l)) in *.
    rewrite Hm.
    assert (H53 : N53 (q / 2)) by (unfold N53; divlia).
    exists (2 * d), (q / 2), (e + 1), (loc_of_shr_record mrs).
    split; [apply round_finish; [assumption|lia]|].
    split; [assumption|]. split; [assumption|]. right. split; reflexivity.
Qed.

Lemma SFdiv_core_normal (mx ex my ey : Z) :
  N53 mx -> N53 my -> -1021 <= ex - ey ->
  SFdiv_core_binary prec emax mx ex my ey =
  (mx * 2 ^ 53 / my, ex - ey - 53, loc_of ((mx * 2 ^ 53) mod my) my).
Proof.
  intros Hx Hy He. unfold SFdiv_core_binary.
  destruct mx as [|px|px]; try (unfold N53 in Hx; lia).
  destruct my as [|py|py]; try (unfold N53 in Hy; lia).
  unfold Zdigits2.
  rewrite (digits2_pos_bounds px 53), (digits2_pos_bounds py 53) by (unfold N53 in *; lia).
  rewrite fexp_normal by lia.
  replace (Z.min (53 + ex - (53 + ey) - 53) (ex - ey)) with (ex - ey - 53) by lia.
  replace (ex - ey - (ex - ey - 53)) with 53 by lia.
  rewrite Z.shiftl_mul_pow2 by lia.
  unfold Z.div, Z.modulo.
  destruct (Z.div_eucl (Z.pos px * 2 ^ 53) (Z.pos py)) as [q r] eqn:E.
  assert (Hr : 0 <= r < Z.pos py).
  { pose proof (Z.mod_pos_bound (Z.pos px * 2 ^ 53) (Z.pos py) ltac:(lia)) as H.
    unfold Z.modulo in H. rewrite E in H. exact H. }
  rewrite new_location_loc_of by exact Hr. reflexivity.
Qed.

Local Open Scope Q_scope.

Lemma pow2_pos e : 0 < pow2 e.
Proof. apply Qpower_0_lt. reflexivity. Qed.

Lemma pow2_add a b : pow2 (a + b) == pow2 a * pow2 b.
Proof. apply Qpower_plus. discriminate. Qed.

Lemma pow2_succ a : pow2 (a + 1) == 2 * pow2 a.
Proof. rewrite pow2_add. change (pow2 1) with 2. ring. Qed.

Lemma pow2_le a b : (a <= b)%Z -> pow2 a <= pow2 b.
Proof. intros H. apply Qpower_le_compat_l; [exact H|discriminate]. Qed.

Lemma pow2_lt_inv a b : pow2 a < pow2 b -> (a < b)%Z.
Proof.
  intros H. destruct (Z_lt_le_dec a b) as [Hlt|Hge]; [exact Hlt|].
  apply pow2_le in Hge. lra.
Qed.

Lemma pow2_nonneg_Z n : (0 <= n)%Z -> pow2 n == inject_Z (2 ^ n).
Proof. intros H. unfold pow2. rewrite Zpower_Qpower by exact H. reflexivity. Qed.

Lemma inject_Z_le' a b : (a <= b)%Z -> inject_Z a <= inject_Z b.
Proof. rewrite <- Zle_Qle. tauto. Qed.

Lemma round_mant_value m e l :
  inject_Z (fst (round_mant m e l)) * pow2 (snd (round_mant m e l)) ==
  inject_Z (round_nearest_even m l) * pow2 e.
Proof.
  unfold round_mant. destruct (round_nearest_even m l =? 2 ^ 53)%Z eqn:E; cbn [fst snd].
  - apply Z.eqb_eq in E. rewrite E, pow2_succ.
    change (inject_Z (2 ^ 52)) with (4503599627370496 # 1).
    change (inject_Z (2 ^ 53)) with (9007199254740992 # 1). ring.
  - reflexivity.
Qed.

Lemma round_mant_N53 m e l : N53 m -> N53 (fst (round_mant m e l)).
Proof.
  intros H. unfold round_mant.
  pose proof (round_nearest_even_cases m l) as Hc.
  destruct (round_nearest_even m l =? 2 ^ 53)%Z eqn:E; cbn [fst].
  - unfold N53. lia.
  - apply Z.eqb_neq in E. unfold N53 in *. lia.
Qed.

Lemma round_mant_exp m e l :
  (e <= snd (round_mant m e l) <= e + 1)%Z.
Proof.
  unfold round_mant. destruct (_ =? _)%Z; cbn [snd]; lia.
Qed.

Lemma round_nearest_even_exact n d m l :
  inbetween n d m l -> (n = m * d)%Z -> round_nearest_even m l = m.
Proof.
  intros (_ & _ & Hl) E. replace (n - m * d)%Z with 0%Z in Hl by lia.
  subst l. reflexivity.
Qed.

Lemma N53_Q m : N53 m -> 4503599627370496 <= inject_Z m /\ inject_Z m + 1 <= 9007199254740992.
Proof.
  intros [H1 H2]. split.
  - change 4503599627370496 with (inject_Z (2 ^ 52)). apply inject_Z_le'. exact H1.
  - change 1 with (inject_Z 1). rewrite <- inject_Z_plus.
    change 9007199254740992 with (inject_Z (2 ^ 53)). apply inject_Z_le'. lia.
Qed.

Lemma inbetween_Q n d m l :
  inbetween n d m l ->
  0 < inject_Z d /\ inject_Z m * inject_Z d <= inject_Z n
  /\ inject_Z n < (inject_Z m + 1) * inject_Z d.
Proof.
  intros (Hd & Hr & _). repeat split.
  - change 0 with (inject_Z 0). rewrite <- Zlt_Qlt. exact Hd.
  - rewrite <- inject_Z_mult. apply inject_Z_le'. lia.
  - change 1 with (inject_Z 1). rewrite <- inject_Z_plus, <- inject_Z_mult.
    rewrite <- Zlt_Qlt. lia.
Qed.

Lemma round_mant_le (n d m e k b : Z) (l : location) :
  N53 m -> inbetween n d m l -> N53 k ->
  inject_Z n * pow2 e <= inject_Z k * pow2 b * inject_Z d ->
  inject_Z (fst (round_mant m e l)) * pow2 (snd (round_mant m e l))
    <= inject_Z k * pow2 b.
Proof.
  intros Hm Hin Hk Hle. rewrite round_mant_value.
  pose proof (N53_Q m Hm) as [Hm1 Hm2]. pose proof (N53_Q k Hk) as [Hk1 Hk2].
  pose proof (inbetween_Q n d m l Hin) as (HD & HN1 & HN2).
  pose proof (pow2_pos e) as HPe. pose proof (pow2_pos b) as HPb.
  pose proof (round_nearest_even_cases m l) as Hc.
  assert (Hm2' : inject_Z (round_nearest_even m l) <= 9007199254740992).
  { change 9007199254740992 with (inject_Z (2 ^ 53)). apply inject_Z_le'.
    unfold N53 in Hm. lia. }
  destruct (Z.lt_trichotomy e b) as [Heb | [Heb | Heb]].
  - assert (H2 : 2 * pow2 e <= pow2 b).
    { rewrite <- pow2_succ. apply pow2_le. lia. }
    nra.
  - subst b.
    assert (HZ : (n <= k * d)%Z).
    { rewrite Zle_Qle, inject_Z_mult. nra. }
    assert (Hk' : (round_nearest_even m l <= k)%Z).
    { destruct (Z.eq_dec n (m * d)%Z) as [E | E].
      - rewrite (round_nearest_even_exact n d m l) by assumption.
        destruct Hin as (Hd & Hr & Hl). nia.
      - destruct Hin as (Hd & Hr & Hl). assert (m < k)%Z by nia. lia. }
    apply inject_Z_le' in Hk'. nra.
  - exfalso.
    assert (H2 : 2 * pow2 b <= pow2 e).
    { rewrite <- pow2_succ. apply pow2_le. lia. }
    assert (A1 : 0 < inject_Z d * pow2 b) by nra.
    assert (A2 : inject_Z m * inject_Z d * pow2 e <= inject_Z n * pow2 e) by nra.
    assert (A3 : inject_Z d * (2 * pow2 b) <= inject_Z d * pow2 e) by nra.
    assert (A4 : 4503599627370496 * (inject_Z d * pow2 e)
                 <= inject_Z m * (inject_Z d * pow2 e)) by nra.
    nra.
Qed.

Lemma round_mant_ge (n d m e k b : Z) (l : location) :
  N53 m -> inbetween n d m l -> N53 k ->
  inject_Z k * pow2 b * inject_Z d <= inject_Z n * pow2 e ->
  inject_Z k * pow2 b
    <= inject_Z (fst (round_mant m e l)) * pow2 (snd (round_mant m e l)).
Proof.
  intros Hm Hin Hk Hle. rewrite round_mant_value.
  pose proof (N53_Q m Hm) as [Hm1 Hm2]. pose proof (N53_Q k Hk) as [Hk1 Hk2].
  pose proof (inbetween_Q n d m l Hin) as (HD & HN1 & HN2).
  pose proof (pow2_pos e) as HPe. pose proof (pow2_pos b) as HPb.
  assert (Hm2' : inject_Z m <= inject_Z (round_nearest_even m l)).
  { apply inject_Z_le'. pose proof (round_nearest_even_cases m l). lia. }
  destruct (Z.lt_trichotomy e b) as [Heb | [Heb | Heb]].
  - exfalso.
    assert (H2 : 2 * pow2 e <= pow2 b).
    { rewrite <- pow2_succ. apply pow2_le. lia. }
    assert (A1 : 0 < inject_Z d * pow2 e) by nra.
    assert (A2 : inject_Z n * pow2 e < (inject_Z m + 1) * inject_Z d * pow2 e) by nra.
    assert (A3 : inject_Z d * (2 * pow2 e) <= inject_Z d * pow2 b) by nra.
    assert (A4 : 4503599627370496 * (inject_Z d * pow2 b)
                 <= inject_Z k * (inject_Z d * pow2 b)) by nra.
    assert (A5 : (inject_Z m + 1) * (inject_Z d * pow2 e)
                 <= 9007199254740992 * (inject_Z d * pow2 e)) by nra.
    nra.
  - subst b.
    assert (HZ : (k * d < (m + 1) * d)%Z).
    { rewrite Zlt_Qlt, !inject_Z_mult, inject_Z_plus. change (inject_Z 1) with 1. nra. }
    assert (Hk' : (k <= m)%Z) by (destruct Hin as (Hd & _ & _); nia).
    apply inject_Z_le' in Hk'. nra.
  - assert (H2 : 2 * pow2 b <= pow2 e).
    { rewrite <- pow2_succ. apply pow2_le. lia. }
    assert (A1 : inject_Z k * pow2 b <= 9007199254740992 * pow2 b) by nra.
    assert (A2 : 4503599627370496 * pow2 e <= inject_Z m * pow2 e) by nra.
    assert (A3 : inject_Z m * pow2 e <= inject_Z (round_nearest_even m l) * pow2 e) by nra.
    nra.
Qed.

Lemma Qmult_le_cancel_pos (a b c : Q) : 0 < c -> a * c <= b * c -> a <= b.
Proof. intros Hc H. apply Qmult_le_r in H; assumption. Qed.

Lemma pow2_53 : pow2 53 == 9007199254740992.
Proof. reflexivity. Qed.

Lemma truediv_normal (sx sy : bool) (mx my : positive) (ex ey : Z) :
  N53 (Z.pos mx) -> N53 (Z.pos my) -> (-1021 <= ex - ey < 1023)%Z ->
  exists (m : positive) (e : Z),
    truediv (S754_finite sx mx ex) (S754_finite sy my ey)
      = S754_finite (xorb sx sy) m e
    /\ N53 (Z.pos m) /\ (ex - ey - 53 <= e <= ex - ey - 51)%Z
    /\ (forall k b, N53 k ->
          inject_Z (Z.pos mx) * pow2 ex
            <= inject_Z k * pow2 b * (inject_Z (Z.pos my) * pow2 ey) ->
          inject_Z (Z.pos m) * pow2 e <= inject_Z k * pow2 b)
    /\ (forall k b, N53 k ->
          inject_Z k * pow2 b * (inject_Z (Z.pos my) * pow2 ey)
            <= inject_Z (Z.pos mx) * pow2 ex ->
          inject_Z k * pow2 b <= inject_Z (Z.pos m) * pow2 e).
Proof.
  intros Hx Hy He. unfold truediv, SFdiv.
  rewrite SFdiv_core_normal by (try assumption; lia).
  set (n := (Z.pos mx * 2 ^ 53)%Z).
  set (q := (n / Z.pos my)%Z).
  assert (Hin : inbetween n (Z.pos my) q (loc_of (n mod Z.pos my) (Z.pos my))).
  { unfold inbetween. 
    assert (E : (n - q * Z.pos my = n mod Z.pos my)%Z).
    { unfold q. rewrite Z.mod_eq by lia. ring. }
    rewrite E. split; [lia|]. split; [apply Z.mod_pos_bound; lia|reflexivity]. }
  assert (Hq : (2 ^ 52 <= q < 2 ^ 54)%Z).
  { unfold q, n, N53 in *. split.
    - apply Z.div_le_lower_bound; [lia|]. nia.
    - apply Z.div_lt_upper_bound; [lia|]. nia. }
  destruct (binary_round_aux_normal (xorb sx sy) n (Z.pos my) q (ex - ey - 53)
              _ Hq ltac:(lia) Hin) as (d' & m & e' & l' & Hres & Hm & Hin' & Hcase).
  pose proof (round_mant_N53 m e' l' Hm) as Hm'.
  pose proof (round_mant_exp m e' l') as He'.
  set (m' := fst (round_mant m e' l')) in *.
  set (e'' := snd (round_mant m e' l')) in *.
  exists (Z.to_pos m'), e''.
  assert (Hpos : Z.pos (Z.to_pos m') = m') by (apply Z2Pos.id; unfold N53 in Hm'; lia).
  rewrite Hpos.
  split; [exact Hres|]. split; [exact Hm'|]. split; [lia|].
  assert (Hval : inject_Z n * pow2 e' * (inject_Z (Z.pos my) * pow2 ey)
                 == inject_Z (Z.pos mx) * pow2 ex * inject_Z d').
  { unfold n. rewrite inject_Z_mult. change (inject_Z (2 ^ 53)) with 9007199254740992.
    destruct Hcase as [[-> ->] | [-> ->]].
    - replace ex with ((ex - ey - 53) + ey + 53)%Z at 2 by lia.
      rewrite !pow2_add, pow2_53. ring.
    - replace ex with ((ex - ey - 53 + 1) + ey + 52)%Z at 2 by lia.
      rewrite !pow2_add. change (pow2 52) with 4503599627370496.
      rewrite inject_Z_mult. change (inject_Z 2) with 2. ring. }
  pose proof (pow2_pos ey) as HPy.
  assert (HMy : 0 < inject_Z (Z.pos my)) by reflexivity.
  assert (Hd' : 0 < inject_Z d').
  { destruct Hin' as (Hd & _). change 0 with (inject_Z 0). rewrite <- Zlt_Qlt. exact Hd. }
  split.
  - intros k b Hk Hle. apply (round_mant_le n d' m e' k b l' Hm Hin' Hk).
    apply (Qmult_le_cancel_pos _ _ (inject_Z (Z.pos my) * pow2 ey)); [nra|].
    rewrite Hval. 
    setoid_replace (inject_Z k * pow2 b * inject_Z d' * (inject_Z (Z.pos my) * pow2 ey))
      with (inject_Z k * pow2 b * (inject_Z (Z.pos my) * pow2 ey) * inject_Z d')
        using relation Qeq by ring.
    apply Qmult_le_compat_r; [exact Hle|lra].
  - intros k b Hk Hle. apply (round_mant_ge n d' m e' k b l' Hm Hin' Hk).
    apply (Qmult_le_cancel_pos _ _ (inject_Z (Z.pos my) * pow2 ey)); [nra|].
    rewrite Hval. 
    setoid_replace (inject_Z k * pow2 b * inject_Z d' * (inject_Z (Z.pos my) * pow2 ey))
      with (inject_Z k * pow2 b * (inject_Z (Z.pos my) * pow2 ey) * inject_Z d')
        using relation Qeq by ring.
    apply Qmult_le_compat_r; [exact Hle|lra].
Qed.

Lemma iter_xO_pow2 (p k : positive) :
  (Z.pos (Pos.iter xO p k) = Z.pos p * 2 ^ Z.pos k)%Z.
Proof.
  induction k as [|k IH] using Pos.peano_ind.
  - cbn [Pos.iter]. rewrite Pos2Z.inj_xO. change (2 ^ 1)%Z with 2%Z. ring.
  - rewrite Pos.iter_succ, Pos2Z.inj_xO, IH, Pos2Z.inj_succ, Z.pow_succ_r by lia. ring.
Qed.

Lemma binary_round_normal (s : bool) (p : positive) :
  (Z.pos p < 2 ^ 53)%Z ->
  exists (m : positive) (e : Z),
    binary_round prec emax s p 0 = S754_finite s m e
    /\ N53 (Z.pos m) /\ (-52 <= e <= 0)%Z
    /\ inject_Z (Z.pos m) * pow2 e == inject_Z (Z.pos p).
Proof.
  intros Hp. unfold binary_round.
  set (d := Z.pos (digits2_pos p)).
  assert (Hd : (2 ^ (d - 1) <= Z.pos p < 2 ^ d)%Z).
  { unfold d. rewrite digits2_pos_log2.
    replace (Z.log2 (Z.pos p) + 1 - 1)%Z with (Z.log2 (Z.pos p)) by lia.
    replace (Z.log2 (Z.pos p) + 1)%Z with (Z.succ (Z.log2 (Z.pos p))) by lia.
    apply Z.log2_spec. lia. }
  assert (Hd1 : (1 <= d <= 53)%Z).
  { split; [unfold d; lia|].
    destruct (Z_le_gt_dec d 53) as [H|H]; [exact H|exfalso].
    assert (2 ^ 53 <= 2 ^ (d - 1))%Z by (apply Z.pow_le_mono_r; lia). lia. }
  rewrite fexp_normal by lia.
  assert (Hal : exists m : positive,
            shl_align p 0 (d + 0 - 53) = (m, (d - 53)%Z) /\
            (Z.pos m = Z.pos p * 2 ^ (53 - d))%Z).
  { unfold shl_align. destruct (d + 0 - 53 - 0)%Z as [|k|k] eqn:E; try lia.
    - exists p. split; [f_equal; lia|]. replace (53 - d)%Z with 0%Z by lia. 
      change (2 ^ 0)%Z with 1%Z. lia.
    - exists (Pos.iter xO p k). split; [f_equal; lia|].
      rewrite iter_xO_pow2. f_equal. f_equal. lia. }
  destruct Hal as (m & -> & Hm).
  assert (HN : N53 (Z.pos m)).
  { rewrite Hm. unfold N53.
    replace (2 ^ 52)%Z with (2 ^ (d - 1) * 2 ^ (53 - d))%Z
      by (rewrite <- Z.pow_add_r by lia; f_equal; lia).
    replace (2 ^ 53)%Z with (2 ^ d * 2 ^ (53 - d))%Z
      by (rewrite <- Z.pow_add_r by lia; f_equal; lia).
    assert (0 < 2 ^ (53 - d))%Z by (apply Z.pow_pos_nonneg; lia). nia. }
  exists m, (d - 53)%Z.
  split.
  - unfold binary_round_aux. rewrite shr_fexp_53 by (try assumption; lia).
    rewrite shr_m_of_loc, loc_of_shr_record_of_loc.
    rewrite round_finish by (try assumption; lia).
    unfold round_mant. cbn [round_nearest_even].
    assert (E : (Z.pos m =? 2 ^ 53)%Z = false) by (apply Z.eqb_neq; unfold N53 in HN; lia).
    rewrite E. reflexivity.
  - split; [exact HN|]. split; [lia|].
    rewrite Hm, inject_Z_mult, <- pow2_nonneg_Z by lia.
    rewrite <- Qmult_assoc, <- pow2_add.
    replace (53 - d + (d - 53))%Z with 0%Z by lia. change (pow2 0) with 1. ring.
Qed.

Lemma Qdiv_le_upper (a b c : Q) : 0 < b -> a / b <= c -> a <= c * b.
Proof.
  intros Hb H. setoid_replace a with (a / b * b) using relation Qeq
    by (field; intros E; rewrite E in Hb; discriminate).
  apply Qmult_le_compat_r; [exact H|apply Qlt_le_weak; exact Hb].
Qed.

Lemma Qdiv_le_lower (a b c : Q) : 0 < b -> c <= a / b -> c * b <= a.
Proof.
  intros Hb H. setoid_replace a with (a / b * b) using relation Qeq
    by (field; intros E; rewrite E in Hb; discriminate).
  apply Qmult_le_compat_r; [exact H|apply Qlt_le_weak; exact Hb].
Qed.

Lemma mag_pos lo hi x : normal53 lo hi x -> 0 < mag x.
Proof.
  destruct x as [| | |s m e]; try contradiction. intros [Hm _]. cbn [mag].
  pose proof (pow2_pos e). assert (0 < inject_Z (Z.pos m)) by reflexivity. nra.
Qed.

(** Division of two normal floats: the result is normal, carries the
    exclusive-or of the signs, and is a monotone rounding of the quotient of
    the magnitudes. *)
Lemma truediv_rounds (x y : spec_float) (lx hx ly hy : Z) :
  normal53 lx hx x -> normal53 ly hy y ->
  (-1021 <= lx - hy)%Z -> (hx - ly < 1023)%Z ->
  normal53 (lx - hy - 53) (hx - ly - 51) (truediv x y)
  /\ sign_bit (truediv x y) = xorb (sign_bit x) (sign_bit y)
  /\ rounds (mag x / mag y) (truediv x y).
Proof.
  destruct x as [| | |sx mx ex]; try contradiction.
  destruct y as [| | |sy my ey]; try contradiction.
  intros [Hx Hex] [Hy Hey] Hlo Hhi.
  destruct (truediv_normal sx sy mx my ex ey Hx Hy ltac:(lia))
    as (m & e & -> & Hm & He & Hle & Hge).
  pose proof (mag_pos ly hy (S754_finite sy my ey) (conj Hy Hey)) as Hpos.
  cbn [normal53 sign_bit mag] in *.
  split; [split; [exact Hm|lia]|]. split; [reflexivity|].
  split; intros k b Hk Hv.
  - apply Hle; [exact Hk|]. apply Qdiv_le_upper; assumption.
  - apply Hge; [exact Hk|]. apply Qdiv_le_lower; assumption.
Qed.

(** A rounding of a number that has a full significand is that number. *)
Lemma rounds_exact (v : Q) (z : spec_float) (k b : Z) :
  N53 k -> v == inject_Z k * pow2 b -> rounds v z -> mag z == v.
Proof.
  intros Hk Hv [Hle Hge]. apply Qle_antisym.
  - rewrite Hv. apply Hle; [exact Hk|]. rewrite Hv. apply Qle_refl.
  - rewrite Hv. apply Hge; [exact Hk|]. rewrite Hv. apply Qle_refl.
Qed.

Lemma rounds_le_1 (v : Q) (z : spec_float) : v <= 1 -> rounds v z -> mag z <= 1.
Proof.
  intros Hv [Hle _].
  assert (H : mag z <= inject_Z (2 ^ 52) * pow2 (-52)).
  { apply Hle; [unfold N53; lia|].
    eapply Qle_trans; [exact Hv|]. vm_compute. discriminate. }
  eapply Qle_trans; [exact H|]. vm_compute. discriminate.
Qed.

(** The largest float below 1 is [1 - 2^-53]. *)
Lemma rounds_lt_1 (v : Q) (z : spec_float) :
  v <= 1 - (1 # 9007199254740992) -> rounds v z -> mag z < 1.
Proof.
  intros Hv [Hle _].
  assert (H : mag z <= inject_Z (2 ^ 53 - 1) * pow2 (-53)).
  { apply Hle; [unfold N53; lia|].
    eapply Qle_trans; [exact Hv|]. vm_compute. discriminate. }
  eapply Qle_lt_trans; [exact H|]. reflexivity.
Qed.

Lemma rounds_proper (v v' : Q) (z : spec_float) : v == v' -> rounds v z -> rounds v' z.
Proof.
  intros E [Hle Hge]. split; intros k b Hk H.
  - apply Hle; [exact Hk|]. rewrite E. exact H.
  - apply Hge; [exact Hk|]. rewrite E. exact H.
Qed.

(** Conversion of a non-zero [int] below [2^53] is exact. *)
Lemma of_int_nonzero (n : Z) :
  (n <> 0)%Z -> (Z.abs n < 2 ^ 53)%Z ->
  normal53 (-52) 0 (of_int n) /\ sign_bit (of_int n) = (n <? 0)%Z
  /\ mag (of_int n) == inject_Z (Z.abs n).
Proof.
  intros Hn Hb. unfold of_int, binary_normalize.
  destruct n as [|p|p]; [lia| |].
  - destruct (binary_round_normal false p ltac:(lia)) as (m & e & -> & Hm & He & Hv).
    cbn [normal53 sign_bit mag]. split; [split; assumption|]. split; [reflexivity|exact Hv].
  - destruct (binary_round_normal true p ltac:(lia)) as (m & e & -> & Hm & He & Hv).
    cbn [normal53 sign_bit mag]. split; [split; assumption|]. split; [reflexivity|exact Hv].
Qed.

End DivisionRounds.

(** *** The normalised fields of a label *)

Section NormalisedFields.

Import Binary64 Labeling.

Local Open Scope Q_scope.

Lemma SF2Q_mag (x : spec_float) :
  SF2Q x == if sign_bit x then - mag x else mag x.
Proof.
  destruct x as [[]|[]| |[] m e]; cbn [SF2Q mag sign_bit cond_Zopp]; try reflexivity.
  change (inject_Z (- Z.pos m)) with (- inject_Z (Z.pos m)). ring.
Qed.

Lemma of_int_2 : of_int 2 = S754_finite false (2 ^ 52) (-51).
Proof. reflexivity. Qed.

(** Halving a normal float is exact. *)
Lemma rounds_half (x z : spec_float) (lo hi : Z) :
  normal53 lo hi x -> rounds (mag x / mag (of_int 2)) z -> mag z == mag x / 2.
Proof.
  destruct x as [| | |s m e]; try contradiction. intros [Hm _] Hr.
  assert (E : mag (S754_finite s m e) / mag (of_int 2) == inject_Z (Z.pos m) * pow2 (e - 1)).
  { assert (E2 : mag (of_int 2) == 2) by reflexivity. rewrite E2. cbn [mag].
    replace e with (e - 1 + 1)%Z at 1 by lia. rewrite pow2_succ. field. }
  rewrite (rounds_exact _ z (Z.pos m) (e - 1) Hm E Hr), E.
  cbn [mag]. replace e with (e - 1 + 1)%Z at 2 by lia. rewrite pow2_succ. field.
Qed.

(** [((x1 + x2) / 2) / w] for a non-zero sum [a = x1 + x2]. *)
Lemma center_nonzero (a w : Z) :
  (a <> 0)%Z -> (Z.abs a < 2 ^ 53)%Z -> (0 < w < 2 ^ 53)%Z ->
  let z := truediv (int_truediv a 2) (of_int w) in
  normal53 (-158) 2 z /\ sign_bit z = (a <? 0)%Z
  /\ rounds (inject_Z (Z.abs a) / 2 / inject_Z w) z.
Proof.
  intros Ha Hb Hw z. unfold z, int_truediv.
  destruct (of_int_nonzero a Ha Hb) as (Na & Sa & Ma).
  destruct (of_int_nonzero 2 ltac:(lia) ltac:(lia)) as (N2 & S2 & M2).
  destruct (of_int_nonzero w ltac:(lia) ltac:(lia)) as (Nw & Sw & Mw).
  destruct (truediv_rounds _ _ _ _ _ _ Na N2 ltac:(lia) ltac:(lia)) as (Nh & Sh & Rh).
  pose proof (rounds_half _ _ _ _ Na Rh) as Mh.
  destruct (truediv_rounds _ _ _ _ _ _ Nh Nw ltac:(lia) ltac:(lia)) as (Nz & Sz & Rz).
  split; [exact Nz|]. split.
  - rewrite Sz, Sh, Sa, S2, Sw. change (2 <? 0)%Z with false.
    replace (w <? 0)%Z with false by (symmetry; apply Z.ltb_ge; lia).
    destruct (a <? 0)%Z; reflexivity.
  - eapply rounds_proper; [|exact Rz].
    rewrite Mh, Ma, Mw. replace (Z.abs w) with w by lia. reflexivity.
Qed.

Lemma center_zero (w : Z) :
  (0 < w < 2 ^ 53)%Z -> truediv (int_truediv 0 2) (of_int w) = S754_zero false.
Proof.
  intros Hw. destruct (of_int_nonzero w ltac:(lia) ltac:(lia)) as (Nw & Sw & _).
  destruct (of_int w) as [| | |s m e]; try contradiction.
  cbn [sign_bit] in Sw. subst s.
  replace (w <? 0)%Z with false by (symmetry; apply Z.ltb_ge; lia). reflexivity.
Qed.

(** [abs(x2 - x1) / w] for a non-zero difference [d = |x2 - x1|]. *)
Lemma extent_nonzero (d w : Z) :
  (0 < d < 2 ^ 53)%Z -> (0 < w < 2 ^ 53)%Z ->
  let z := int_truediv d w in
  normal53 (-105) 1 z /\ sign_bit z = false /\ rounds (inject_Z d / inject_Z w) z.
Proof.
  intros Hd Hw z. unfold z, int_truediv.
  destruct (of_int_nonzero d ltac:(lia) ltac:(lia)) as (Nd & Sd & Md).
  destruct (of_int_nonzero w ltac:(lia) ltac:(lia)) as (Nw & Sw & Mw).
  destruct (truediv_rounds _ _ _ _ _ _ Nd Nw ltac:(lia) ltac:(lia)) as (Nz & Sz & Rz).
  split; [exact Nz|]. split.
  - rewrite Sz, Sd, Sw.
    replace (d <? 0)%Z with false by (symmetry; apply Z.ltb_ge; lia).
    replace (w <? 0)%Z with false by (symmetry; apply Z.ltb_ge; lia). reflexivity.
  - eapply rounds_proper; [|exact Rz].
    rewrite Md, Mw. replace (Z.abs d) with d by lia. replace (Z.abs w) with w by lia.
    reflexivity.
Qed.

Lemma extent_zero (w : Z) :
  (0 < w < 2 ^ 53)%Z -> int_truediv 0 w = S754_zero false.
Proof.
  intros Hw. unfold int_truediv.
  destruct (of_int_nonzero w ltac:(lia) ltac:(lia)) as (Nw & Sw & _).
  destruct (of_int w) as [| | |s m e]; try contradiction.
  cbn [sign_bit] in Sw. subst s.
  replace (w <? 0)%Z with false by (symmetry; apply Z.ltb_ge; lia). reflexivity.
Qed.

Lemma normal53_finite lo hi x : normal53 lo hi x -> is_finite x = true.
Proof. destruct x; try contradiction; reflexivity. Qed.

Lemma center_finite (a w : Z) :
  (Z.abs a < 2 ^ 53)%Z -> (0 < w < 2 ^ 53)%Z ->
  is_finite (truediv (int_truediv a 2) (of_int w)) = true.
Proof.
  intros Ha Hw. destruct (Z.eq_dec a 0%Z) as [-> | Hne].
  - rewrite center_zero by exact Hw. reflexivity.
  - destruct (center_nonzero a w Hne Ha Hw) as (N & _). eapply normal53_finite, N.
Qed.

Lemma extent_finite (d w : Z) :
  (0 <= d < 2 ^ 53)%Z -> (0 < w < 2 ^ 53)%Z -> is_finite (int_truediv d w) = true.
Proof.
  intros Hd Hw. destruct (Z.eq_dec d 0%Z) as [-> | Hne].
  - rewrite extent_zero by exact Hw. reflexivity.
  - destruct (extent_nonzero d w ltac:(lia) Hw) as (N & _). eapply normal53_finite, N.
Qed.

Lemma inject_Z_pos (w : Z) : (0 < w)%Z -> 0 < inject_Z w.
Proof. intros H. change 0 with (inject_Z 0). rewrite <- Zlt_Qlt. exact H. Qed.

Lemma half_ratio_le_1 (a w : Z) :
  (0 <= a <= 2 * w)%Z -> (0 < w)%Z -> inject_Z a / 2 / inject_Z w <= 1.
Proof.
  intros Ha Hw. pose proof (inject_Z_pos w Hw) as HW.
  assert (H : inject_Z a <= 2 * inject_Z w).
  { change 2 with (inject_Z 2). rewrite <- inject_Z_mult, <- Zle_Qle. lia. }
  apply Qle_shift_div_r; [exact HW|]. apply Qle_shift_div_r; [reflexivity|]. lra.
Qed.

Lemma half_ratio_below_1 (a w : Z) :
  (0 <= a < 2 * w)%Z -> (0 < w <= 2 ^ 52)%Z ->
  inject_Z a / 2 / inject_Z w <= 1 - (1 # 9007199254740992).
Proof.
  intros Ha Hw. pose proof (inject_Z_pos w ltac:(lia)) as HW.
  assert (H : inject_Z a + 1 <= 2 * inject_Z w).
  { change 2 with (inject_Z 2). change 1 with (inject_Z 1).
    rewrite <- inject_Z_mult, <- inject_Z_plus, <- Zle_Qle. lia. }
  assert (H' : inject_Z w <= 4503599627370496).
  { change 4503599627370496 with (inject_Z (2 ^ 52)). rewrite <- Zle_Qle. lia. }
  apply Qle_shift_div_r; [exact HW|]. apply Qle_shift_div_r; [reflexivity|]. lra.
Qed.

Lemma ratio_le_1 (d w : Z) :
  (0 <= d <= w)%Z -> (0 < w)%Z -> inject_Z d / inject_Z w <= 1.
Proof.
  intros Hd Hw. pose proof (inject_Z_pos w Hw) as HW.
  apply Qle_shift_div_r; [exact HW|]. rewrite Qmult_1_l, <- Zle_Qle. lia.
Qed.

Lemma ratio_below_1 (d w : Z) :
  (0 <= d < w)%Z -> (0 < w <= 2 ^ 53)%Z ->
  inject_Z d / inject_Z w <= 1 - (1 # 9007199254740992).
Proof.
  intros Hd Hw. pose proof (inject_Z_pos w ltac:(lia)) as HW.
  assert (H : inject_Z d + 1 <= inject_Z w).
  { change 1 with (inject_Z 1). rewrite <- inject_Z_plus, <- Zle_Qle. lia. }
  assert (H' : inject_Z w <= 9007199254740992).
  { change 9007199254740992 with (inject_Z (2 ^ 53)). rewrite <- Zle_Qle. lia. }
  apply Qle_shift_div_r; [exact HW|]. lra.
Qed.

(** A centre field lies in [[0, 1]] when the sum of the two corners lies in
    [[0, 2w]], and strictly inside when the sum lies strictly inside. *)
Lemma center_unit (a w : Z) :
  (0 <= a <= 2 * w)%Z -> (0 < w < 2 ^ 52)%Z ->
  0 <= SF2Q (truediv (int_truediv a 2) (of_int w)) <= 1.
Proof.
  intros Ha Hw. destruct (Z.eq_dec a 0%Z) as [-> | Hne].
  - rewrite center_zero by lia. split; discriminate.
  - destruct (center_nonzero a w Hne ltac:(lia) ltac:(lia)) as (N & S & R).
    rewrite SF2Q_mag, S. replace (a <? 0)%Z with false by (symmetry; apply Z.ltb_ge; lia).
    split; [apply Qlt_le_weak; eapply mag_pos, N|].
    replace (Z.abs a) with a in R by lia.
    apply (rounds_le_1 _ _ (half_ratio_le_1 a w Ha ltac:(lia)) R).
Qed.

Lemma center_open_unit (a w : Z) :
  (0 < a < 2 * w)%Z -> (0 < w < 2 ^ 52)%Z ->
  0 < SF2Q (truediv (int_truediv a 2) (of_int w)) < 1.
Proof.
  intros Ha Hw.
  destruct (center_nonzero a w ltac:(lia) ltac:(lia) ltac:(lia)) as (N & S & R).
  rewrite SF2Q_mag, S. replace (a <? 0)%Z with false by (symmetry; apply Z.ltb_ge; lia).
  split; [eapply mag_pos, N|].
  replace (Z.abs a) with a in R by lia.
  apply (rounds_lt_1 _ _ (half_ratio_below_1 a w ltac:(lia) ltac:(lia)) R).
Qed.

(** An extent field lies in [[0, 1]] when the difference is at most [w], and
    strictly inside when it is neither [0] nor [w]. *)
Lemma extent_unit (d w : Z) :
  (0 <= d <= w)%Z -> (0 < w < 2 ^ 53)%Z -> 0 <= SF2Q (int_truediv d w) <= 1.
Proof.
  intros Hd Hw. destruct (Z.eq_dec d 0%Z) as [-> | Hne].
  - rewrite extent_zero by lia. split; discriminate.
  - destruct (extent_nonzero d w ltac:(lia) ltac:(lia)) as (N & S & R).
    rewrite SF2Q_mag, S.
    split; [apply Qlt_le_weak; eapply mag_pos, N|].
    apply (rounds_le_1 _ _ (ratio_le_1 d w Hd ltac:(lia)) R).
Qed.

Lemma extent_open_unit (d w : Z) :
  (0 < d < w)%Z -> (0 < w < 2 ^ 53)%Z -> 0 < SF2Q (int_truediv d w) < 1.
Proof.
  intros Hd Hw.
  destruct (extent_nonzero d w ltac:(lia) ltac:(lia)) as (N & S & R).
  rewrite SF2Q_mag, S.
  split; [eapply mag_pos, N|].
  apply (rounds_lt_1 _ _ (ratio_below_1 d w ltac:(lia) ltac:(lia)) R).
Qed.




End NormalisedFields.

(** *** The text of a label file *)

Section Formatting.

Import Binary64 PyFormat Labeling.

Lemma append_nil_l (s : string) : EmptyString +:+ s = s.
Proof. reflexivity. Qed.

Lemma append_cons (a : ascii) (s t : string) : String a s +:+ t = String a (s +:+ t).
Proof. reflexivity. Qed.

Lemma is_digit_digit (d : Z) : 0 <= d <= 9 -> is_digit (digit d) = true.
Proof.
  intros H.
  assert (C : d = 0 \/ d = 1 \/ d = 2 \/ d = 3 \/ d = 4 \/ d = 5 \/ d = 6 \/ d = 7
              \/ d = 8 \/ d = 9) by lia.
  repeat (destruct C as [-> | C]; [reflexivity|]). subst d. reflexivity.
Qed.

Lemma is_digit_mod10 (n : Z) : is_digit (digit (n mod 10)) = true.
Proof. apply is_digit_digit. pose proof (Z.mod_pos_bound n 10). lia. Qed.

Lemma zfill6_length (n : Z) : String.length (zfill6 n) = 6%nat.
Proof. reflexivity. Qed.

Lemma zfill6_digits (n : Z) : all_digits (zfill6 n) = true.
Proof. unfold zfill6. cbn [all_digits]. rewrite !is_digit_mod10. reflexivity. Qed.

Lemma string_of_uint_digits (d : Decimal.uint) :
  all_digits (NilEmpty.string_of_uint d) = true.
Proof. induction d; cbn [NilEmpty.string_of_uint all_digits]; auto. Qed.

(** [str(n)] is a non-empty string of digits. *)
Lemma str_nat_digits (n : Z) :
  exists c s, str_nat n = String c s /\ is_digit c = true /\ all_digits s = true.
Proof.
  unfold str_nat, NilZero.string_of_uint.
  destruct (N.to_uint (Z.to_N n)) as [|d|d|d|d|d|d|d|d|d|d];
    cbn [NilEmpty.string_of_uint]; eexists _, _;
    (split; [reflexivity|split; [reflexivity|]]);
    first [reflexivity | apply string_of_uint_digits].
Qed.

Lemma is_digit_not (c x : ascii) : is_digit c = true -> is_digit x = false -> Ascii.eqb c x = false.
Proof.
  intros Hc Hx. destruct (Ascii.eqb_spec c x) as [-> | _]; [congruence|reflexivity].
Qed.

Lemma is_unsigned_fixed6_app (ds fs : string) :
  all_digits ds = true -> String.length fs = 6%nat -> all_digits fs = true ->
  is_unsigned_fixed6 (ds +:+ String "." fs) = true.
Proof.
  intros Hds Hlen Hfs.
  induction ds as [|c ds IH]; rewrite ?append_nil_l, ?append_cons; cbn [is_unsigned_fixed6].
  - rewrite Ascii.eqb_refl, Hlen, Hfs. reflexivity.
  - cbn [all_digits] in Hds. apply andb_true_iff in Hds as [Hc Hds].
    rewrite (is_digit_not c "." Hc eq_refl), Hc. cbn [andb]. apply IH, Hds.
Qed.

(** A finite float prints with six decimals. *)
Lemma format_6f_fixed (x : spec_float) :
  is_finite x = true -> is_fixed6 (format_6f x) = true.
Proof.
  destruct x as [[]|s| |s m e]; try discriminate; try reflexivity. intros _.
  unfold format_6f. set (n := micro m e).
  destruct (str_nat_digits (n / 10 ^ 6)) as (c & ds & -> & Hc & Hds).
  assert (Hu : is_unsigned_fixed6 (String c ds +:+ String "." (zfill6 (n mod 10 ^ 6))) = true).
  { apply is_unsigned_fixed6_app; [cbn [all_digits]; rewrite Hc, Hds; reflexivity
                                  |apply zfill6_length|apply zfill6_digits]. }
  change ("." +:+ zfill6 (n mod 10 ^ 6)) with (String "." (zfill6 (n mod 10 ^ 6))).
  rewrite append_cons in Hu.
  destruct s; cbn [sign_str]; rewrite ?append_cons, ?append_nil_l; cbn [is_fixed6].
  - rewrite Ascii.eqb_refl, Hc. exact Hu.
  - rewrite (is_digit_not c "-" Hc eq_refl), Hc. exact Hu.
Qed.

Lemma lacks_app (c : ascii) (s t : string) :
  lacks c (s +:+ t) = lacks c s && lacks c t.
Proof.
  induction s as [|a s IH]; rewrite ?append_nil_l, ?append_cons; cbn [lacks]; [reflexivity|].
  rewrite IH, andb_assoc. reflexivity.
Qed.

Lemma all_digits_lacks (c : ascii) (s : string) :
  is_digit c = false -> all_digits s = true -> lacks c s = true.
Proof.
  intros Hc. induction s as [|a s IH]; cbn [all_digits lacks]; [reflexivity|].
  intros H. apply andb_true_iff in H as [Ha Hs].
  rewrite (is_digit_not a c Ha Hc), IH by exact Hs. reflexivity.
Qed.

(** No field contains a space or a line feed, whatever the float. *)
Lemma format_6f_lacks (c : ascii) (x : spec_float) :
  c = " "%char \/ c = newline -> lacks c (format_6f x) = true.
Proof.
  intros Hc.
  assert (Hd : is_digit c = false) by (destruct Hc as [-> | ->]; reflexivity).
  assert (Hsign : forall s, lacks c (sign_str s) = true).
  { intros []; destruct Hc as [-> | ->]; reflexivity. }
  destruct x as [s|s| |s m e]; unfold format_6f.
  - rewrite lacks_app, Hsign. destruct Hc as [-> | ->]; reflexivity.
  - rewrite lacks_app, Hsign. destruct Hc as [-> | ->]; reflexivity.
  - destruct Hc as [-> | ->]; reflexivity.
  - set (n := micro m e).
    destruct (str_nat_digits (n / 10 ^ 6)) as (a & ds & E & Ha & Hds).
    rewrite !lacks_app, Hsign, E.
    rewrite (all_digits_lacks c (String a ds)) by (exact Hd || (cbn [all_digits]; rewrite Ha, Hds; reflexivity)).
    rewrite (all_digits_lacks c (zfill6 (n mod 10 ^ 6)) Hd (zfill6_digits _)).
    destruct Hc as [-> | ->]; reflexivity.
Qed.

Lemma split_spaces_lacks (s : string) : lacks " " s = true -> split_spaces s = [s].
Proof.
  induction s as [|a s IH]; cbn [lacks split_spaces]; [reflexivity|].
  intros H. apply andb_true_iff in H as [Ha Hs]. apply negb_true_iff in Ha.
  rewrite Ha, (IH Hs). reflexivity.
Qed.

Lemma split_spaces_app (s t : string) :
  lacks " " s = true -> split_spaces (s +:+ String " " t) = s :: split_spaces t.
Proof.
  induction s as [|a s IH]; rewrite ?append_nil_l, ?append_cons; cbn [lacks split_spaces].
  - intros _. reflexivity.
  - intros H. apply andb_true_iff in H as [Ha Hs]. apply negb_true_iff in Ha.
    rewrite Ha, (IH Hs). reflexivity.
Qed.

Lemma splitlines_app (s t : string) :
  lacks newline s = true ->
  splitlines (s +:+ String newline t) = s :: splitlines t.
Proof.
  induction s as [|a s IH]; rewrite ?append_nil_l, ?append_cons; cbn [lacks splitlines].
  - intros _. rewrite Ascii.eqb_refl. reflexivity.
  - intros H. apply andb_true_iff in H as [Ha Hs]. apply negb_true_iff in Ha.
    rewrite Ha, (IH Hs). reflexivity.
Qed.

Lemma append_assoc (a b c : string) : (a +:+ b) +:+ c = a +:+ (b +:+ c).
Proof.
  induction a as [|x a IH]; rewrite ?append_nil_l, ?append_cons; [reflexivity|].
  rewrite IH. reflexivity.
Qed.

(** The five fields of a label record. *)
Lemma split_spaces_label_record (b : box) (w h : positive) :
  split_spaces (label_record b w h) =
  [ "0"; format_6f (x_center (normalize b w h)); format_6f (y_center (normalize b w h));
    format_6f (width (normalize b w h)); format_6f (height (normalize b w h)) ].
Proof.
  unfold label_record. cbv zeta. change (str_nat class_id) with "0".
  rewrite !(append_cons " " EmptyString), !append_nil_l.
  rewrite split_spaces_app by reflexivity.
  repeat (rewrite split_spaces_app by (apply format_6f_lacks; left; reflexivity)).
  rewrite split_spaces_lacks by (apply format_6f_lacks; left; reflexivity).
  reflexivity.
Qed.

Lemma label_record_lacks_newline (b : box) (w h : positive) :
  lacks newline (label_record b w h) = true.
Proof.
  unfold label_record. cbv zeta. change (str_nat class_id) with "0".
  rewrite !lacks_app, !format_6f_lacks by (right; reflexivity). reflexivity.
Qed.

(** Splitting the text of a label file into lines gives back one record per
    box, in order: every record is terminated by a line feed and holds none. *)
Lemma splitlines_label_text (boxes : list box) (w h : positive) :
  splitlines (label_text boxes w h) = map (fun b => label_record b w h) boxes.
Proof.
  unfold label_text. induction boxes as [|b boxes IH]; cbn [map fold_right]; [reflexivity|].
  unfold label_line at 1. rewrite append_assoc, append_cons, append_nil_l.
  rewrite splitlines_app by apply label_record_lacks_newline.
  rewrite IH. reflexivity.
Qed.

End Formatting.

(** *** The labelling session *)

Section Session.

Import Binary64 PyFormat Labeling.

Variable W : world.

Lemma file_writes_app (a b : list effect) :
  file_writes (a ++ b) = file_writes a ++ file_writes b.
Proof. unfold file_writes. apply flat_map_app. Qed.

(** Only the [y] branch of the Preview touches the label files. *)

Lemma draw_box_frame (event : mouse_event) (x y : Z) (s : state) :
  files (fst (draw_box event x y s)) = files s
  /\ file_writes (snd (draw_box event x y s)) = []
  /\ pc (fst (draw_box event x y s)) = pc s.
Proof.
  destruct event; cbn [draw_box]; [|destruct (drawing s)| |]; repeat split.
Qed.

Lemma load_image_frame (s : state) (sp name : string) (rest todo : list string) :
  files (fst (load_image W s sp name rest todo)) = files s
  /\ file_writes (snd (load_image W s sp name rest todo)) = [].
Proof. unfold load_image. destruct (imread W _); split; reflexivity. Qed.

Lemma enter_splits_frame (todo : list string) (s : state) :
  files (fst (enter_splits W todo s)) = files s
  /\ file_writes (snd (enter_splits W todo s)) = [].
Proof.
  revert s. induction todo as [|sp todo IH]; intros s; cbn [enter_splits].
  - split; reflexivity.
  - destruct (listdir W (img_folder sp)) as [names|]; [|split; reflexivity].
    destruct (List.filter is_image_file names) as [|name rest].
    + specialize (IH (set_split s sp)).
      destruct (enter_splits W todo (set_split s sp)) as [s' out]. exact IH.
    + pose proof (load_image_frame s sp name rest todo) as H.
      destruct (load_image W s sp name rest todo) as [s' out]. exact H.
Qed.

Lemma next_image_frame (s : state) :
  files (fst (next_image W s)) = files s /\ file_writes (snd (next_image W s)) = [].
Proof.
  unfold next_image. destruct (img_files s); [apply enter_splits_frame|apply load_image_frame].
Qed.

Lemma reset_frame (s : state) :
  files (fst (reset W s)) = files s /\ file_writes (snd (reset W s)) = [].
Proof. unfold reset. destruct (imread W _); split; reflexivity. Qed.

(** One input: a file is written exactly when the input confirms a save,
    and then it is the label file of the current image. *)
Lemma step_writes (s : state) (i : input) :
  file_writes (snd (step W s i)) = (if confirms s i then [save_of s] else [])
  /\ files (fst (step W s i)) =
     (if confirms s i then <[fst (save_of s) := snd (save_of s)]> (files s) else files s).
Proof.
  unfold step, confirms.
  destruct (pc s) eqn:Hpc; destruct i as [event x y|code];
    try (destruct (draw_box_frame event x y s) as (Hf & Hw & _); split; assumption);
    try (split; reflexivity).
  - cbv zeta. destruct (Z.land code 255 =? ord "s"); [split; reflexivity|].
    destruct (Z.land code 255 =? ord "n"); [destruct (next_image_frame s); split; assumption|].
    destruct (Z.land code 255 =? ord "r"); [destruct (reset_frame s); split; assumption|].
    split; reflexivity.
  - cbv zeta. destruct (Z.land code 255 =? ord "y").
    + set (s1 := set_files s _).
      destruct (next_image_frame s1) as [Hf Hw].
      destruct (next_image W s1) as [s' out]. cbn [fst snd] in *.
      split; [cbn [file_writes flat_map app]; fold (file_writes out); rewrite Hw; reflexivity|].
      rewrite Hf. reflexivity.
    + destruct (Z.land code 255 =? ord "n"); [|split; reflexivity].
      destruct (next_image_frame s) as [Hf Hw].
      destruct (next_image W s) as [s' out]. cbn [fst snd] in *.
      split; [cbn [file_writes flat_map app]; fold (file_writes out); exact Hw|exact Hf].
Qed.

Lemma run_cons (s : state) (i : input) (inputs : list input) :
  run W s (i :: inputs) =
  (fst (run W (fst (step W s i)) inputs),
   snd (step W s i) ++ snd (run W (fst (step W s i)) inputs)).
Proof.
  cbn [run]. destruct (step W s i) as [s1 out1]. cbn [fst snd].
  destruct (run W s1 inputs) as [s2 out2]. reflexivity.
Qed.

(** A session: the files written are those of its confirmations, in order. *)
Lemma run_writes (s : state) (inputs : list input) :
  file_writes (snd (run W s inputs)) = map save_of (confirmations W s inputs)
  /\ files (fst (run W s inputs)) = write_all (files s) (map save_of (confirmations W s inputs)).
Proof.
  revert s. induction inputs as [|i inputs IH]; intros s.
  - split; reflexivity.
  - rewrite run_cons. cbn [fst snd confirmations].
    destruct (IH (fst (step W s i))) as [IHw IHf].
    destruct (step_writes s i) as [Hw Hf].
    rewrite file_writes_app, Hw, IHw, IHf, Hf, map_app.
    destruct (confirms s i); split; reflexivity.
Qed.

(** Sessions in pieces. *)

Lemma run_app (s : state) (a b : list input) :
  run W s (a ++ b) =
  (fst (run W (fst (run W s a)) b), snd (run W s a) ++ snd (run W (fst (run W s a)) b)).
Proof.
  revert s. induction a as [|i a IH]; intros s.
  - cbn [app run fst snd]. destruct (run W s b); reflexivity.
  - rewrite <- app_comm_cons, !run_cons, IH. cbn [fst snd]. rewrite app_assoc. reflexivity.
Qed.

Lemma run_one (s : state) (i : input) : run W s [i] = (fst (step W s i), snd (step W s i)).
Proof. cbn [run]. destruct (step W s i). rewrite app_nil_r. reflexivity. Qed.

Lemma step_mouse (s : state) (event : mouse_event) (x y : Z) :
  pc s = MainLoop \/ pc s = PreviewLoop ->
  step W s (Mouse event x y) = draw_box event x y s.
Proof. intros [H | H]; unfold step; rewrite H; reflexivity. Qed.

(** Button down at [(x1, y1)], button up at [(x2, y2)]: one more box. *)
Lemma run_drag (s : state) (x1 y1 x2 y2 : Z) :
  pc s = MainLoop \/ pc s = PreviewLoop ->
  let r := run W s (Scenario.drag x1 y1 x2 y2) in
  current_boxes (fst r) = current_boxes s ++ [(x1, y1, x2, y2)]
  /\ pc (fst r) = pc s /\ same_image s (fst r) /\ file_writes (snd r) = [].
Proof.
  intros Hpc r. unfold r, Scenario.drag. rewrite run_cons, run_one.
  rewrite (step_mouse s) by exact Hpc. cbn [draw_box fst snd].
  rewrite step_mouse by exact Hpc. cbn [draw_box fst snd current_boxes pc ix iy app].
  repeat split.
Qed.

(** [r] in the main loop, the image file being readable. *)
Lemma run_reset (s : state) (m : Mat) :
  pc s = MainLoop -> imread W (img_path (split s) (img_name s)) = Some m ->
  let r := run W s [Scenario.press "r"] in
  current_boxes (fst r) = [] /\ pc (fst r) = MainLoop /\ same_image s (fst r)
  /\ file_writes (snd r) = [].
Proof.
  intros Hpc Him r. unfold r. rewrite run_one. unfold Scenario.press, step. rewrite Hpc.
  cbv zeta.
  change (Z.land (ord "r") 255 =? ord "s") with false.
  change (Z.land (ord "r") 255 =? ord "n") with false.
  change (Z.land (ord "r") 255 =? ord "r") with true. cbv iota.
  unfold reset. rewrite Him. repeat split.
Qed.

(** [s] in the main loop opens the Preview. *)
Lemma run_preview (s : state) :
  pc s = MainLoop ->
  let r := run W s [Scenario.press "s"] in
  current_boxes (fst r) = current_boxes s /\ pc (fst r) = PreviewLoop
  /\ same_image s (fst r) /\ file_writes (snd r) = [].
Proof.
  intros Hpc r. unfold r. rewrite run_one. unfold Scenario.press, step. rewrite Hpc.
  cbv zeta. change (Z.land (ord "s") 255 =? ord "s") with true. cbv iota.
  repeat split.
Qed.

(** Leaving an image does not depend on where control was. *)

Lemma enter_splits_set_pc (todo : list string) (s : state) (c : control) :
  enter_splits W todo (set_pc s c) = enter_splits W todo s.
Proof.
  revert s. induction todo as [|sp todo IH]; intros s; cbn [enter_splits]; [reflexivity|].
  destruct (listdir W (img_folder sp)) as [names|]; [|reflexivity].
  destruct (List.filter is_image_file names) as [|name rest]; [|reflexivity].
  change (set_split (set_pc s c) sp) with (set_pc (set_split s sp) c).
  rewrite IH. reflexivity.
Qed.

Lemma next_image_set_pc (s : state) (c : control) :
  next_image W (set_pc s c) = next_image W s.
Proof.
  unfold next_image. cbn [set_pc img_files splits_left split].
  destruct (img_files s); [apply enter_splits_set_pc|reflexivity].
Qed.

(** The next image starts with an empty box list; at the end of the dataset
    the box list is left as it was. *)

Lemma load_image_boxes (s : state) (sp name : string) (rest todo : list string) :
  let s' := fst (load_image W s sp name rest todo) in
  (pc s' = MainLoop -> current_boxes s' = []) /\ pc s' <> Exited.
Proof.
  unfold load_image. destruct (imread W _); cbn [fst pc current_boxes]; split;
    congruence.
Qed.

Lemma enter_splits_boxes (todo : list string) (s : state) :
  let s' := fst (enter_splits W todo s) in
  (pc s' = MainLoop -> current_boxes s' = [])
  /\ (pc s' = Exited -> current_boxes s' = current_boxes s).
Proof.
  revert s. induction todo as [|sp todo IH]; intros s; cbn [enter_splits].
  - cbn [fst set_pc pc current_boxes]. split; [discriminate|reflexivity].
  - destruct (listdir W (img_folder sp)) as [names|];
      [|cbn [fst set_pc pc]; split; discriminate].
    destruct (List.filter is_image_file names) as [|name rest].
    + specialize (IH (set_split s sp)).
      destruct (enter_splits W todo (set_split s sp)) as [s' out]. exact IH.
    + pose proof (load_image_boxes s sp name rest todo) as [H1 H2].
      destruct (load_image W s sp name rest todo) as [s' out]. cbn [fst] in *.
      split; [exact H1|]. intros E. contradiction.
Qed.

Lemma next_image_boxes (s : state) :
  let s' := fst (next_image W s) in
  (pc s' = MainLoop -> current_boxes s' = [])
  /\ (pc s' = Exited -> current_boxes s' = current_boxes s).
Proof.
  unfold next_image. destruct (img_files s) as [|name rest]; [apply enter_splits_boxes|].
  pose proof (load_image_boxes s (split s) name rest (splits_left s)) as [H1 H2].
  cbv zeta in *. split; [exact H1|]. intros E. contradiction.
Qed.

(** The coordinates and dimensions of a session stay in the range of a C [int]. *)

Lemma draw_box_ok (event : mouse_event) (x y : Z) (s : state) :
  state_ok s -> int32 x -> int32 y -> state_ok (fst (draw_box event x y s)).
Proof.
  intros (Hx & Hy & Hb & Hh & Hw) Ix Iy. unfold state_ok.
  destruct event; cbn [draw_box]; [|destruct (drawing s)| |];
    cbn [fst ix iy current_boxes h w].
  - exact (conj Ix (conj Iy (conj Hb (conj Hh Hw)))).
  - exact (conj Hx (conj Hy (conj Hb (conj Hh Hw)))).
  - exact (conj Hx (conj Hy (conj Hb (conj Hh Hw)))).
  - refine (conj Hx (conj Hy (conj _ (conj Hh Hw)))).
    apply Forall_app. split; [exact Hb|]. constructor; [|constructor].
    exact (conj Hx (conj Hy (conj Ix Iy))).
  - exact (conj Hx (conj Hy (conj Hb (conj Hh Hw)))).
Qed.

Lemma load_image_ok (s : state) (sp name : string) (rest todo : list string) :
  world_ok W -> state_ok s -> state_ok (fst (load_image W s sp name rest todo)).
Proof.
  intros HW (Hx & Hy & Hb & Hh & Hw). unfold load_image, imread.
  destruct (image_shape W (img_path sp name)) as [sh|] eqn:E; cbn [fst].
  - destruct (HW _ _ E) as [H1 H2].
    exact (conj Hx (conj Hy (conj (List.Forall_nil _) (conj H1 H2)))).
  - exact (conj Hx (conj Hy (conj Hb (conj Hh Hw)))).
Qed.

Lemma enter_splits_ok (todo : list string) (s : state) :
  world_ok W -> state_ok s -> state_ok (fst (enter_splits W todo s)).
Proof.
  intros HW. revert s. induction todo as [|sp todo IH]; intros s Hs; cbn [enter_splits].
  - exact Hs.
  - destruct (listdir W (img_folder sp)) as [names|]; [|exact Hs].
    destruct (List.filter is_image_file names) as [|name rest].
    + specialize (IH (set_split s sp) Hs).
      destruct (enter_splits W todo (set_split s sp)) as [s' out]. exact IH.
    + pose proof (load_image_ok s sp name rest todo HW Hs) as H.
      destruct (load_image W s sp name rest todo) as [s' out]. exact H.
Qed.

Lemma next_image_ok (s : state) :
  world_ok W -> state_ok s -> state_ok (fst (next_image W s)).
Proof.
  intros HW Hs. unfold next_image.
  destruct (img_files s); [apply enter_splits_ok|apply load_image_ok]; assumption.
Qed.

Lemma reset_ok (s : state) : state_ok s -> state_ok (fst (reset W s)).
Proof.
  intros (Hx & Hy & Hb & Hh & Hw). unfold reset.
  destruct (imread W _); cbn [fst];
    exact (conj Hx (conj Hy (conj (List.Forall_nil _) (conj Hh Hw)))).
Qed.

Lemma step_ok (s : state) (i : input) :
  world_ok W -> state_ok s -> input_ok i -> state_ok (fst (step W s i)).
Proof.
  intros HW Hs Hi. unfold step.
  destruct (pc s); destruct i as [event x y|code];
    try (destruct Hi; apply draw_box_ok; assumption); try exact Hs.
  - cbv zeta. destruct (Z.land code 255 =? ord "s"); [exact Hs|].
    destruct (Z.land code 255 =? ord "n"); [apply next_image_ok; assumption|].
    destruct (Z.land code 255 =? ord "r"); [apply reset_ok; assumption|exact Hs].
  - cbv zeta. destruct (Z.land code 255 =? ord "y").
    + set (s1 := set_files s _).
      pose proof (next_image_ok s1 HW Hs) as H.
      destruct (next_image W s1) as [s' out]. exact H.
    + destruct (Z.land code 255 =? ord "n"); [|exact Hs].
      pose proof (next_image_ok s HW Hs) as H.
      destruct (next_image W s) as [s' out]. exact H.
Qed.

Lemma confirmations_ok (s : state) (inputs : list input) :
  world_ok W -> state_ok s -> Forall input_ok inputs ->
  Forall state_ok (confirmations W s inputs).
Proof.
  intros HW. revert s. induction inputs as [|i inputs IH]; intros s Hs Hi; cbn [confirmations].
  - constructor.
  - apply Forall_cons in Hi as [Hi His]. apply Forall_app. split.
    + destruct (confirms s i); constructor; [exact Hs|constructor].
    + apply IH; [apply step_ok; assumption|exact His].
Qed.

End Session.

(** *** What a label file holds *)

Section LabelFile.

Import Binary64 PyFormat Labeling.

Lemma int32_sum (a b : Z) : int32 a -> int32 b -> Z.abs (a + b) < 2 ^ 53.
Proof. unfold int32. lia. Qed.

Lemma int32_diff (a b : Z) : int32 a -> int32 b -> 0 <= Z.abs (b - a) < 2 ^ 53.
Proof. unfold int32. lia. Qed.

Lemma dim_ok_range (d : positive) : dim_ok d -> 0 < Z.pos d < 2 ^ 53.
Proof. unfold dim_ok. lia. Qed.

(** With coordinates and dimensions in the range of a C [int], the four
    fields of a label are finite floats. *)
Lemma normalize_finite (b : box) (w h : positive) :
  box_ok b -> dim_ok w -> dim_ok h ->
  let l := normalize b w h in
  is_finite (x_center l) = true /\ is_finite (y_center l) = true
  /\ is_finite (width l) = true /\ is_finite (height l) = true.
Proof.
  destruct b as [[[x1 y1] x2] y2]. intros (H1 & H2 & H3 & H4) Hw Hh. cbn [normalize].
  cbn [x_center y_center width height].
  apply dim_ok_range in Hw, Hh.
  repeat split.
  - apply center_finite; [apply int32_sum; assumption|exact Hw].
  - apply center_finite; [apply int32_sum; assumption|exact Hh].
  - apply extent_finite; [apply int32_diff; assumption|exact Hw].
  - apply extent_finite; [apply int32_diff; assumption|exact Hh].
Qed.

Lemma label_record_ok (b : box) (w h : positive) :
  box_ok b -> dim_ok w -> dim_ok h -> is_label_record (label_record b w h) = true.
Proof.
  intros Hb Hw Hh. unfold is_label_record. rewrite split_spaces_label_record.
  destruct (normalize_finite b w h Hb Hw Hh) as (F1 & F2 & F3 & F4).
  rewrite !format_6f_fixed by assumption. reflexivity.
Qed.

(** The text written for a list of boxes: one record per box, each closed
    by a line feed, each with class id [0] and four six-decimal fields. *)
Lemma label_text_ok (boxes : list box) (w h : positive) :
  Forall box_ok boxes -> dim_ok w -> dim_ok h ->
  forallb is_label_record (splitlines (label_text boxes w h)) = true.
Proof.
  intros Hb Hw Hh. rewrite splitlines_label_text.
  induction Hb as [|b boxes Hb _ IH]; cbn [map forallb]; [reflexivity|].
  rewrite label_record_ok by assumption. exact IH.
Qed.

End LabelFile.

(** *** Fields between 0 and 1, in print *)

Section UnitFields.

Import Binary64 PyFormat Labeling Dataset Reading.

Lemma round_half_even_le (n d k : Z) :
  0 < d -> 0 <= n <= k * d -> 0 <= round_half_even n d <= k.
Proof.
  intros Hd Hn. unfold round_half_even.
  assert (Hq : 0 <= n / d <= k).
  { split; [apply Z.div_pos; lia|]. apply Z.div_le_upper_bound; lia. }
  pose proof (Z.mod_pos_bound n d Hd) as Hm.
  pose proof (Z.div_mod n d ltac:(lia)) as Hdm.
  destruct (Z.eq_dec (n / d) k) as [E|E].
  - assert (Hz : n mod d = 0) by nia.
    rewrite Hz. replace (2 * 0 ?= d) with Lt by (symmetry; apply Z.compare_lt_iff; lia). lia.
  - destruct (2 * (n mod d) ?= d); [destruct (Z.even (n / d))| |]; lia.
Qed.

Lemma micro_unit (m : positive) (e : Z) :
  (inject_Z (Z.pos m) * pow2 e <= 1)%Q -> 0 <= micro m e <= 10 ^ 6.
Proof.
  intros H. unfold micro. destruct (0 <=? e) eqn:He.
  - apply Z.leb_le in He. rewrite pow2_nonneg_Z in H by exact He.
    rewrite <- inject_Z_mult in H. change 1%Q with (inject_Z 1) in H.
    rewrite <- Zle_Qle in H.
    assert (0 < 2 ^ e) by (apply Z.pow_pos_nonneg; lia). nia.
  - apply Z.leb_gt in He.
    assert (Hd : 0 < 2 ^ (- e)) by (apply Z.pow_pos_nonneg; lia).
    assert (Hm : Z.pos m <= 2 ^ (- e)).
    { rewrite Zle_Qle, <- pow2_nonneg_Z by lia.
      pose proof (pow2_pos (- e)) as P.
      assert (E : (pow2 e * pow2 (- e) == 1)%Q).
      { rewrite <- pow2_add. replace (e + - e) with 0 by lia. reflexivity. }
      apply (Qmult_le_compat_r _ _ (pow2 (- e))) in H; [|apply Qlt_le_weak; exact P].
      rewrite <- Qmult_assoc, E in H. rewrite Qmult_1_r, Qmult_1_l in H. exact H. }
    apply round_half_even_le; [exact Hd|]. nia.
Qed.

(** A non-negative finite float that is at most 1 prints as [0.dddddd] or
    [1.000000]. *)
Lemma format_6f_unit (x : spec_float) :
  is_finite x = true -> sign_bit x = false -> (SF2Q x <= 1)%Q ->
  is_unit_field (format_6f x).
Proof.
  destruct x as [s|s| |s m e]; try discriminate; cbn [sign_bit]; intros _ -> H.
  - right. exists 0. split; [lia|reflexivity].
  - cbn [SF2Q cond_Zopp] in H. pose proof (micro_unit m e H) as Hn.
    unfold format_6f. set (n := micro m e) in *. cbn [sign_str]. rewrite append_nil_l.
    destruct (Z.eq_dec n (10 ^ 6)) as [E|E].
    + left. rewrite E. reflexivity.
    + right. exists n. split; [lia|].
      rewrite Z.div_small, Z.mod_small by lia. reflexivity.
Qed.

Lemma center_sign (a w : Z) :
  0 <= a < 2 ^ 53 -> 0 < w < 2 ^ 53 ->
  sign_bit (truediv (int_truediv a 2) (of_int w)) = false.
Proof.
  intros Ha Hw. destruct (Z.eq_dec a 0) as [-> | Hne].
  - rewrite center_zero by exact Hw. reflexivity.
  - destruct (center_nonzero a w Hne ltac:(lia) Hw) as (_ & S & _). rewrite S.
    apply Z.ltb_ge. lia.
Qed.

Lemma extent_sign (d w : Z) :
  0 <= d < 2 ^ 53 -> 0 < w < 2 ^ 53 -> sign_bit (int_truediv d w) = false.
Proof.
  intros Hd Hw. destruct (Z.eq_dec d 0) as [-> | Hne].
  - rewrite extent_zero by exact Hw. reflexivity.
  - destruct (extent_nonzero d w ltac:(lia) Hw) as (_ & S & _). exact S.
Qed.

End UnitFields.

(** *** How close the printed fields are to the exact values *)

Section Accuracy.

Import Binary64 PyFormat Labeling.

Local Open Scope Q_scope.

Lemma frac_le (a b c d : Q) : 0 < b -> 0 < d -> a * d <= c * b -> a / b <= c / d.
Proof.
  intros Hb Hd H. apply Qle_shift_div_l; [exact Hd|].
  setoid_replace (a / b * d) with (a * d / b) using relation Qeq
    by (field; intros E; rewrite E in Hb; discriminate).
  apply Qle_shift_div_r; [exact Hb|exact H].
Qed.

Lemma frac_lt (a b c d : Q) : 0 < b -> 0 < d -> a * d < c * b -> a / b < c / d.
Proof.
  intros Hb Hd H. apply Qlt_shift_div_l; [exact Hd|].
  setoid_replace (a / b * d) with (a * d / b) using relation Qeq
    by (field; intros E; rewrite E in Hb; discriminate).
  apply Qlt_shift_div_r; [exact Hb|exact H].
Qed.

Lemma pow2_sub (a b : Z) : pow2 (a - b) == pow2 a / pow2 b.
Proof.
  pose proof (pow2_pos b) as P.
  replace a with ((a - b) + b)%Z at 2 by lia. rewrite pow2_add.
  field. intros E. rewrite E in P. discriminate.
Qed.

(** Every positive rational lies in one binade. *)
Lemma binade (v : Q) : 0 < v -> exists c, pow2 c <= v < pow2 (c + 1).
Proof.
  intros Hv. destruct v as [n d].
  assert (Hn : (0 < n)%Z) by (unfold Qlt in Hv; cbn in Hv; lia).
  pose proof (Z.log2_spec n Hn) as Ln.
  pose proof (Z.log2_spec (Z.pos d) ltac:(lia)) as Ld.
  pose proof (Z.log2_nonneg n) as Pn. pose proof (Z.log2_nonneg (Z.pos d)) as Pd.
  set (p := Z.log2 n) in *. set (q := Z.log2 (Z.pos d)) in *.
  assert (Ev : n # d == inject_Z n / inject_Z (Z.pos d)) by (apply Qmake_Qdiv).
  assert (Dpos : 0 < inject_Z (Z.pos d)) by reflexivity.
  assert (Lo : pow2 (p - q - 1) <= n # d).
  { rewrite Ev. replace (p - q - 1)%Z with (p - (q + 1))%Z by lia. rewrite pow2_sub.
    rewrite !pow2_nonneg_Z by lia.
    apply frac_le; [|exact Dpos|].
    - change 0 with (inject_Z 0). rewrite <- Zlt_Qlt. apply Z.pow_pos_nonneg; lia.
    - rewrite <- !inject_Z_mult, <- Zle_Qle.
      replace (Z.succ q) with (q + 1)%Z in Ld by lia.
      assert (0 < 2 ^ p)%Z by (apply Z.pow_pos_nonneg; lia). nia. }
  assert (Hi : n # d < pow2 (p - q + 1)).
  { rewrite Ev. replace (p - q + 1)%Z with ((p + 1) - q)%Z by lia. rewrite pow2_sub.
    rewrite !pow2_nonneg_Z by lia.
    apply frac_lt; [exact Dpos| |].
    - change 0 with (inject_Z 0). rewrite <- Zlt_Qlt. apply Z.pow_pos_nonneg; lia.
    - rewrite <- !inject_Z_mult, <- Zlt_Qlt.
      replace (Z.succ p) with (p + 1)%Z in Ln by lia.
      assert (0 < 2 ^ q)%Z by (apply Z.pow_pos_nonneg; lia). nia. }
  destruct (Qlt_le_dec (n # d) (pow2 (p - q))) as [H|H].
  - exists (p - q - 1)%Z. replace (p - q - 1 + 1)%Z with (p - q)%Z by lia. split; assumption.
  - exists (p - q)%Z. split; assumption.
Qed.

(** Every positive rational lies between two neighbours of the binary64
    grid (the exponent range set aside). *)
Lemma bracket (v : Q) :
  0 < v -> exists k b, N53 k /\ inject_Z k * pow2 b <= v < inject_Z (k + 1) * pow2 b.
Proof.
  intros Hv. destruct (binade v Hv) as (c & Hlo & Hhi).
  set (b := (c - 52)%Z). pose proof (pow2_pos b) as Pb.
  set (x := v / pow2 b).
  assert (Ex : v == x * pow2 b).
  { unfold x. field. intros E. rewrite E in Pb. discriminate. }
  assert (X1 : inject_Z (2 ^ 52) <= x).
  { unfold x. apply Qle_shift_div_l; [exact Pb|].
    rewrite <- pow2_nonneg_Z by lia. rewrite <- pow2_add.
    replace (52 + b)%Z with c by (unfold b; lia). exact Hlo. }
  assert (X2 : x < inject_Z (2 ^ 53)).
  { unfold x. apply Qlt_shift_div_r; [exact Pb|].
    rewrite <- pow2_nonneg_Z by lia. rewrite <- pow2_add.
    replace (53 + b)%Z with (c + 1)%Z by (unfold b; lia). exact Hhi. }
  pose proof (Qfloor_le x) as F1. pose proof (Qlt_floor x) as F2.
  exists (Qfloor x), b. split; [|split].
  - unfold N53. split.
    + assert (H : inject_Z (2 ^ 52) < inject_Z (Qfloor x + 1)) by lra.
      rewrite <- Zlt_Qlt in H. lia.
    + assert (H : inject_Z (Qfloor x) < inject_Z (2 ^ 53)) by lra.
      rewrite <- Zlt_Qlt in H. exact H.
  - rewrite Ex. apply Qmult_le_compat_r; [exact F1|lra].
  - rewrite Ex at 1. apply Qmult_lt_compat_r; [exact Pb|exact F2].
Qed.

(** A rounding of [v] is within one unit in the last place of [v]. *)
Lemma rounds_err (v : Q) (z : spec_float) :
  0 < v -> rounds v z -> v - v * pow2 (-52) <= mag z <= v + v * pow2 (-52).
Proof.
  intros Hv [Hle Hge]. destruct (bracket v Hv) as (k & b & Hk & Hlo & Hhi).
  pose proof (pow2_pos b) as Pb.
  assert (L : inject_Z k * pow2 b <= mag z) by (apply Hge; assumption).
  assert (U : mag z <= inject_Z (k + 1) * pow2 b).
  { destruct (Z.eq_dec (k + 1)%Z (2 ^ 53)%Z) as [E|E].
    - assert (E' : inject_Z (k + 1) * pow2 b == inject_Z (2 ^ 52) * pow2 (b + 1)).
      { rewrite E, pow2_succ. change (inject_Z (2 ^ 53)) with (2 * inject_Z (2 ^ 52)). ring. }
      rewrite E'. apply Hle; [unfold N53; lia|]. rewrite <- E'. lra.
    - apply Hle; [unfold N53 in *; lia|]. lra. }
  assert (S : pow2 b <= v * pow2 (-52)).
  { assert (K : inject_Z (2 ^ 52) <= inject_Z k) by (rewrite <- Zle_Qle; unfold N53 in Hk; lia).
    assert (E : pow2 b == inject_Z (2 ^ 52) * pow2 b * pow2 (-52)).
    { change (pow2 (-52)) with (/ inject_Z (2 ^ 52)). field. discriminate. }
    rewrite E. apply Qmult_le_compat_r; [|apply Qlt_le_weak, pow2_pos].
    eapply Qle_trans; [|exact Hlo]. apply Qmult_le_compat_r; [exact K|lra]. }
  rewrite inject_Z_plus in U, Hhi. change (inject_Z 1) with 1 in U, Hhi.
  split; lra.
Qed.

Lemma round_half_even_err (n d : Z) :
  (0 < d)%Z -> (Z.abs (2 * (round_half_even n d * d - n)) <= d)%Z.
Proof.
  intros Hd. unfold round_half_even.
  pose proof (Z.mod_pos_bound n d Hd) as Hm.
  pose proof (Z.div_mod n d ltac:(lia)) as Hdm.
  set (q := (n / d)%Z) in *. set (r := (n mod d)%Z) in *.
  apply Z.abs_le.
  destruct (2 * r ?= d)%Z eqn:C.
  - apply Z.compare_eq_iff in C. destruct (Z.even q); lia.
  - assert (C' : (2 * r < d)%Z) by (apply Z.compare_lt_iff; exact C). lia.
  - assert (C' : (d < 2 * r)%Z) by (apply Z.compare_gt_iff; exact C). lia.
Qed.

(** The millionths printed for a float are within one half of its
    magnitude in millionths. *)
Lemma micro_err (m : positive) (e : Z) :
  Qabs (inject_Z (micro m e) - inject_Z (Z.pos m) * pow2 e * 1000000) <= 1 # 2.
Proof.
  unfold micro. destruct (0 <=? e)%Z eqn:He.
  - apply Z.leb_le in He. rewrite pow2_nonneg_Z by exact He.
    rewrite !inject_Z_mult. change (inject_Z (10 ^ 6)) with 1000000.
    setoid_replace (inject_Z (Z.pos m) * inject_Z (2 ^ e) * 1000000
                    - inject_Z (Z.pos m) * inject_Z (2 ^ e) * 1000000) with 0
      using relation Qeq by ring.
    discriminate.
  - apply Z.leb_gt in He.
    assert (Hd : (0 < 2 ^ (- e))%Z) by (apply Z.pow_pos_nonneg; lia).
    pose proof (round_half_even_err (Z.pos m * 10 ^ 6) (2 ^ (- e)) Hd) as H.
    set (r := round_half_even (Z.pos m * 10 ^ 6) (2 ^ (- e))) in *.
    set (d := (2 ^ (- e))%Z) in *.
    assert (Ed : pow2 e == / inject_Z d).
    { unfold d. rewrite <- pow2_nonneg_Z by lia.
      pose proof (pow2_pos (- e)) as P.
      assert (E : pow2 e * pow2 (- e) == 1).
      { rewrite <- pow2_add. replace (e + - e)%Z with 0%Z by lia. reflexivity. }
      apply (Qmult_inj_r _ _ (pow2 (- e))); [intros E0; rewrite E0 in P; discriminate|].
      rewrite E. field. intros E0; rewrite E0 in P; discriminate. }
    assert (Dq : 0 < inject_Z d) by (change 0 with (inject_Z 0); rewrite <- Zlt_Qlt; exact Hd).
    apply Qabs_Qle_condition.
    apply Z.abs_le in H.
    assert (H1 : - inject_Z d <= 2 * (inject_Z r * inject_Z d - inject_Z (Z.pos m) * 1000000)).
    { change 2 with (inject_Z 2). change 1000000 with (inject_Z (10 ^ 6)).
      rewrite <- !inject_Z_mult, <- inject_Z_opp.
      unfold Qminus. rewrite <- inject_Z_opp, <- inject_Z_plus, <- inject_Z_mult, <- Zle_Qle.
      lia. }
    assert (H2 : 2 * (inject_Z r * inject_Z d - inject_Z (Z.pos m) * 1000000) <= inject_Z d).
    { change 2 with (inject_Z 2). change 1000000 with (inject_Z (10 ^ 6)).
      rewrite <- !inject_Z_mult.
      unfold Qminus. rewrite <- inject_Z_opp, <- inject_Z_plus, <- inject_Z_mult, <- Zle_Qle.
      lia. }
    rewrite Ed.
    setoid_replace (inject_Z r - inject_Z (Z.pos m) * / inject_Z d * 1000000)
      with ((inject_Z r * inject_Z d - inject_Z (Z.pos m) * 1000000) / inject_Z d)
      using relation Qeq by (field; intros E0; rewrite E0 in Dq; discriminate).
    split.
    + apply Qle_shift_div_l; [exact Dq|]. lra.
    + apply Qle_shift_div_r; [exact Dq|]. lra.
Qed.

End Accuracy.

(** *** The printed fields against the exact values *)

Section PrintedAccuracy.

Import Binary64 PyFormat Labeling Reading.

Local Open Scope Q_scope.

(** The decimal a field prints is within half a millionth, and the
    rounding error of the division, of the exact value. *)
Lemma format_6f_accurate (z : spec_float) (v : Q) :
  0 <= v <= 1 -> sign_bit z = false ->
  (v == 0 -> z = S754_zero false) ->
  (0 < v -> (exists lo hi, normal53 lo hi z) /\ rounds v z) ->
  prints_within (500001 # 1000000000000) z v.
Proof.
  intros [V0 V1] Hs Hz Hr. unfold prints_within.
  destruct (Qlt_le_dec 0 v) as [Hpos|Hle].
  - destruct (Hr Hpos) as [(lo & hi & N) R].
    destruct z as [| | |s m e]; try contradiction. cbn [sign_bit] in Hs. subst s.
    exists (micro m e). split.
    + unfold format_6f. cbn [sign_str]. rewrite append_nil_l. reflexivity.
    + pose proof (rounds_err v _ Hpos R) as [E1 E2]. cbn [mag] in E1, E2.
      pose proof (micro_err m e) as M. apply Qabs_Qle_condition in M. destruct M as [M1 M2].
      assert (P : pow2 (-52) == 1 # 4503599627370496) by reflexivity.
      rewrite P in E1, E2.
      set (g := inject_Z (Z.pos m) * pow2 e) in *.
      apply Qabs_Qle_condition.
      setoid_replace (inject_Z (micro m e) / 1000000 - v)
        with ((inject_Z (micro m e) - g * 1000000) / 1000000 + (g - v))
        using relation Qeq by field.
      assert (A1 : -(1 # 2000000) <= (inject_Z (micro m e) - g * 1000000) / 1000000).
      { apply Qle_shift_div_l; [reflexivity|]. lra. }
      assert (A2 : (inject_Z (micro m e) - g * 1000000) / 1000000 <= 1 # 2000000).
      { apply Qle_shift_div_r; [reflexivity|]. lra. }
      split; lra.
  - assert (E : v == 0) by lra. rewrite (Hz E). exists 0%Z. split; [reflexivity|].
    rewrite E. vm_compute. discriminate.
Qed.

Lemma center_printed (a w : Z) :
  (0 <= a <= 2 * w)%Z -> (0 < w < 2 ^ 52)%Z ->
  prints_within (500001 # 1000000000000)
    (truediv (int_truediv a 2) (of_int w)) (inject_Z a / 2 / inject_Z w).
Proof.
  intros Ha Hw. pose proof (inject_Z_pos w ltac:(lia)) as HW.
  destruct (Z.eq_dec a 0%Z) as [->|N0].
  - exists 0%Z. rewrite center_zero by lia. split; [reflexivity|].
    setoid_replace (inject_Z 0 / 2 / inject_Z w) with 0 using relation Qeq
      by (unfold Qdiv; change (inject_Z 0) with 0; ring).
    vm_compute. discriminate.
  - assert (A1 : 1 <= inject_Z a) by (change 1 with (inject_Z 1); rewrite <- Zle_Qle; lia).
    assert (P : 0 < inject_Z a / 2 / inject_Z w).
    { apply Qlt_shift_div_l; [exact HW|]. apply Qlt_shift_div_l; [reflexivity|]. lra. }
    destruct (center_nonzero a w N0 ltac:(lia) ltac:(lia)) as (N & S & R).
    replace (Z.abs a) with a in R by lia.
    apply format_6f_accurate.
    + split; [lra|apply half_ratio_le_1; lia].
    + rewrite S. apply Z.ltb_ge. lia.
    + intros E. lra.
    + intros _. split; [eauto|exact R].
Qed.

Lemma extent_printed (d w : Z) :
  (0 <= d <= w)%Z -> (0 < w < 2 ^ 53)%Z ->
  prints_within (500001 # 1000000000000) (int_truediv d w) (inject_Z d / inject_Z w).
Proof.
  intros Hd Hw. pose proof (inject_Z_pos w ltac:(lia)) as HW.
  destruct (Z.eq_dec d 0%Z) as [->|N0].
  - exists 0%Z. rewrite extent_zero by lia. split; [reflexivity|].
    setoid_replace (inject_Z 0 / inject_Z w) with 0 using relation Qeq
      by (unfold Qdiv; change (inject_Z 0) with 0; ring).
    vm_compute. discriminate.
  - assert (A1 : 1 <= inject_Z d) by (change 1 with (inject_Z 1); rewrite <- Zle_Qle; lia).
    assert (P : 0 < inject_Z d / inject_Z w).
    { apply Qlt_shift_div_l; [exact HW|]. lra. }
    destruct (extent_nonzero d w ltac:(lia) ltac:(lia)) as (N & S & R).
    apply format_6f_accurate.
    + split; [lra|apply ratio_le_1; lia].
    + exact S.
    + intros E. lra.
    + intros _. split; [eauto|exact R].
Qed.

Lemma inject_Z_abs (z : Z) : inject_Z (Z.abs z) == Qabs (inject_Z z).
Proof. unfold inject_Z. apply Zabs_Qabs. Qed.

End PrintedAccuracy.

(** *** Fields strictly between 0 and 1, in print *)

Section InnerFields.

Import Binary64 PyFormat Labeling Reading.

Local Open Scope Q_scope.

(** A rounding of a number between [1/1999998] and [1 - 1/1999998] prints
    with digits from [000001] to [999999]. *)
Lemma format_6f_inner (z : spec_float) (v : Q) :
  (1 # 1999998) <= v <= 1 - (1 # 1999998) ->
  sign_bit z = false -> (exists lo hi, normal53 lo hi z) -> rounds v z ->
  is_inner_field (format_6f z).
Proof.
  intros [V0 V1] Hs (lo & hi & N) R.
  destruct z as [| | |s m e]; try contradiction. cbn [sign_bit] in Hs. subst s.
  assert (Hpos : 0 < v) by lra.
  pose proof (rounds_err v _ Hpos R) as [E1 E2]. cbn [mag] in E1, E2.
  pose proof (micro_err m e) as M. apply Qabs_Qle_condition in M. destruct M as [M1 M2].
  assert (P : pow2 (-52) == 1 # 4503599627370496) by reflexivity.
  rewrite P in E1, E2.
  set (g := inject_Z (Z.pos m) * pow2 e) in *. set (n := micro m e) in *.
  assert (L : (1 <= n)%Z).
  { assert (H : inject_Z 0 < inject_Z n) by (change (inject_Z 0) with 0; lra).
    rewrite <- Zlt_Qlt in H. lia. }
  assert (U : (n <= 999999)%Z).
  { assert (H : inject_Z n < inject_Z 1000000) by (change (inject_Z 1000000) with 1000000; lra).
    rewrite <- Zlt_Qlt in H. lia. }
  exists n. split; [lia|].
  unfold format_6f. fold n. cbn [sign_str]. rewrite append_nil_l.
  rewrite Z.div_small, Z.mod_small by lia. reflexivity.
Qed.

Lemma center_inner (a w : Z) :
  (0 < a < 2 * w)%Z -> (0 < w < 10 ^ 6)%Z ->
  is_inner_field (format_6f (truediv (int_truediv a 2) (of_int w))).
Proof.
  intros Ha Hw. pose proof (inject_Z_pos w ltac:(lia)) as HW.
  assert (A1 : 1 <= inject_Z a) by (change 1 with (inject_Z 1); rewrite <- Zle_Qle; lia).
  assert (A2 : inject_Z a + 1 <= 2 * inject_Z w).
  { change 2 with (inject_Z 2). change 1 with (inject_Z 1).
    rewrite <- inject_Z_mult, <- inject_Z_plus, <- Zle_Qle. lia. }
  assert (W1 : inject_Z w <= 999999).
  { change 999999 with (inject_Z 999999). rewrite <- Zle_Qle. lia. }
  destruct (center_nonzero a w ltac:(lia) ltac:(lia) ltac:(lia)) as (N & S & R).
  replace (Z.abs a) with a in R by lia.
  apply (format_6f_inner _ (inject_Z a / 2 / inject_Z w)).
  - split.
    + apply Qle_shift_div_l; [exact HW|]. apply Qle_shift_div_l; [reflexivity|]. lra.
    + apply Qle_shift_div_r; [exact HW|]. apply Qle_shift_div_r; [reflexivity|]. lra.
  - rewrite S. apply Z.ltb_ge. lia.
  - eauto.
  - exact R.
Qed.

Lemma extent_inner (d w : Z) :
  (0 < d < w)%Z -> (0 < w < 10 ^ 6)%Z -> is_inner_field (format_6f (int_truediv d w)).
Proof.
  intros Hd Hw. pose proof (inject_Z_pos w ltac:(lia)) as HW.
  assert (A1 : 1 <= inject_Z d) by (change 1 with (inject_Z 1); rewrite <- Zle_Qle; lia).
  assert (A2 : inject_Z d + 1 <= inject_Z w).
  { change 1 with (inject_Z 1). rewrite <- inject_Z_plus, <- Zle_Qle. lia. }
  assert (W1 : inject_Z w <= 999999).
  { change 999999 with (inject_Z 999999). rewrite <- Zle_Qle. lia. }
  destruct (extent_nonzero d w ltac:(lia) ltac:(lia)) as (N & S & R).
  apply (format_6f_inner _ (inject_Z d / inject_Z w)).
  - split.
    + apply Qle_shift_div_l; [exact HW|]. lra.
    + apply Qle_shift_div_r; [exact HW|]. lra.
  - exact S.
  - eauto.
  - exact R.
Qed.

End InnerFields.

(** ** Part III: the claims *)

Section Claims.

Import Binary64 PyFormat Labeling.




(** C4.  [r] read in the main loop empties the box list and writes no file:
    every label file, of this image or another, is as before; when the image
    file is still readable the pixels are those of the file, with nothing
    drawn on them, and the tool stays on the same image. *)
Theorem C4_reset_discards_boxes_only (W : world) (s : state) (code : Z) :
  pc s = MainLoop -> Z.land code 255 = ord "r" ->
  let r := step W s (WaitKey code) in
  current_boxes (fst r) = []
  /\ files (fst r) = files s
  /\ file_writes (snd r) = []
  /\ forall m, imread W (img_path (split s) (img_name s)) = Some m ->
       img (fst r) = m /\ painted (img (fst r)) = []
       /\ pc (fst r) = MainLoop
       /\ split (fst r) = split s /\ img_name (fst r) = img_name s.
Proof.
  intros Hpc Hk r. unfold r, step. rewrite Hpc. cbv zeta. rewrite Hk.
  change (ord "r" =? ord "s") with false. change (ord "r" =? ord "n") with false.
  change (ord "r" =? ord "r") with true. cbv iota.
  unfold reset. destruct (imread W (img_path (split s) (img_name s))) as [m|] eqn:E;
    cbn [fst snd current_boxes files img pc split img_name].
  - split; [reflexivity|]. split; [reflexivity|]. split; [reflexivity|].
    intros m' [= <-]. split; [reflexivity|]. split; [|repeat split].
    unfold imread in E. destruct (image_shape W _); [|discriminate].
    injection E as <-. reflexivity.
  - split; [reflexivity|]. split; [reflexivity|]. split; [reflexivity|].
    intros m' [=].
Qed.

Lemma C4_witness :
  let s := fst (run Scenario.world1 Scenario.on_a (Scenario.drag 10 10 30 30)) in
  pc s = MainLoop /\ Z.land 114 255 = ord "r"
  /\ current_boxes s = [(10, 10, 30, 30)]
  /\ current_boxes (fst (step Scenario.world1 s (WaitKey 114))) = []
  /\ files (fst (step Scenario.world1 s (WaitKey 114))) = files s.
Proof.
  cbv zeta.
  set (s := fst (run Scenario.world1 Scenario.on_a (Scenario.drag 10 10 30 30))).
  assert (Hpc : pc s = MainLoop) by reflexivity.
  assert (Hk : Z.land 114 255 = ord "r") by reflexivity.
  assert (Hb : current_boxes s = [(10, 10, 30, 30)]) by reflexivity.
  pose proof (C4_reset_discards_boxes_only Scenario.world1 s 114 Hpc Hk) as T.
  exact (conj Hpc (conj Hk (conj Hb (conj (proj1 T) (proj1 (proj2 T)))))).
Defined.

(** C10.  [y] read in the Preview with no committed box writes the label
    file of the current image all the same, with no line in it: the file
    exists afterwards and is empty, whatever it held before. *)
Theorem C10_confirm_without_boxes_writes_empty_file (W : world) (s : state) (code : Z) :
  pc s = PreviewLoop -> Z.land code 255 = ord "y" -> current_boxes s = [] ->
  let r := step W s (WaitKey code) in
  let path := label_path (split s) (img_name s) in
  file_writes (snd r) = [(path, EmptyString)]
  /\ files (fst r) = <[path := EmptyString]> (files s)
  /\ files (fst r) !! path = Some EmptyString
  /\ splitlines EmptyString = [].
Proof.
  intros Hpc Hk Hb r path.
  destruct (step_writes W s (WaitKey code)) as [Hw Hf]. fold r in Hw, Hf.
  assert (Hc : confirms s (WaitKey code) = true).
  { unfold confirms. rewrite Hpc, Hk. reflexivity. }
  rewrite Hc in Hw, Hf. unfold save_of in Hw, Hf. rewrite Hb in Hw, Hf.
  cbn [fst snd label_text map fold_right] in Hw, Hf. fold path in Hw, Hf.
  split; [exact Hw|]. split; [exact Hf|]. split; [|reflexivity].
  rewrite Hf. apply lookup_insert_eq.
Qed.

Lemma C10_witness :
  let s := fst (run Scenario.world1 Scenario.on_a [Scenario.press "s"]) in
  pc s = PreviewLoop /\ Z.land 121 255 = ord "y" /\ current_boxes s = []
  /\ file_writes (snd (step Scenario.world1 s (WaitKey 121)))
     = [(label_path (split s) (img_name s), EmptyString)].
Proof.
  cbv zeta. set (s := fst (run Scenario.world1 Scenario.on_a [Scenario.press "s"])).
  assert (Hpc : pc s = PreviewLoop) by reflexivity.
  assert (Hk : Z.land 121 255 = ord "y") by reflexivity.
  assert (Hb : current_boxes s = []) by reflexivity.
  exact (conj Hpc (conj Hk (conj Hb
           (proj1 (C10_confirm_without_boxes_writes_empty_file
                     Scenario.world1 s 121 Hpc Hk Hb))))).
Defined.


(** C3, as the code has it.  [n] read in the Preview writes no label file,
    and then leaves the image exactly as Skip does from the main loop: the
    tool goes on to the next image, whose box list starts empty, or ends
    (only then is the box list still the one that was drawn).  It does not
    return to the main loop of the same image. *)
Theorem C3_cancel_writes_nothing_and_skips (W : world) (s : state) (code : Z) :
  pc s = PreviewLoop -> Z.land code 255 = ord "n" ->
  let r := step W s (WaitKey code) in
  file_writes (snd r) = []
  /\ files (fst r) = files s
  /\ fst r = fst (step W (set_pc s MainLoop) (Scenario.press "n"))
  /\ (pc (fst r) = MainLoop -> current_boxes (fst r) = [])
  /\ (pc (fst r) = Exited -> current_boxes (fst r) = current_boxes s).
Proof.
  intros Hpc Hk r.
  destruct (step_writes W s (WaitKey code)) as [Hw Hf]. fold r in Hw, Hf.
  assert (Hc : confirms s (WaitKey code) = false).
  { unfold confirms. rewrite Hpc, Hk. reflexivity. }
  rewrite Hc in Hw, Hf.
  assert (E : fst r = fst (next_image W s)).
  { unfold r, step. rewrite Hpc. cbv zeta. rewrite Hk.
    change (ord "n" =? ord "y") with false. change (ord "n" =? ord "n") with true.
    cbv iota. destruct (next_image W s). reflexivity. }
  split; [exact Hw|]. split; [exact Hf|]. split.
  - rewrite E. unfold Scenario.press, step. cbn [set_pc pc]. cbv zeta.
    change (Z.land (ord "n") 255 =? ord "s") with false.
    change (Z.land (ord "n") 255 =? ord "n") with true. cbv iota.
    rewrite (next_image_set_pc W s MainLoop). reflexivity.
  - rewrite E. apply next_image_boxes.
Qed.

Lemma C3_witness :
  let s := fst (run Scenario.world1 Scenario.on_a
                  (Scenario.drag 10 10 30 30 ++ [Scenario.press "s"])) in
  pc s = PreviewLoop /\ Z.land 110 255 = ord "n"
  /\ file_writes (snd (step Scenario.world1 s (WaitKey 110))) = []
  /\ files (fst (step Scenario.world1 s (WaitKey 110))) = files s.
Proof.
  cbv zeta.
  set (s := fst (run Scenario.world1 Scenario.on_a
                   (Scenario.drag 10 10 30 30 ++ [Scenario.press "s"]))).
  assert (Hpc : pc s = PreviewLoop) by (vm_compute; reflexivity).
  assert (Hk : Z.land 110 255 = ord "n") by reflexivity.
  pose proof (C3_cancel_writes_nothing_and_skips Scenario.world1 s 110 Hpc Hk) as T.
  exact (conj Hpc (conj Hk (conj (proj1 T) (proj1 (proj2 T))))).
Defined.

(** C3, as the spec has it, fails: with [a.png] previewed with one box and
    [b.png] still to come, [n] takes the tool to [b.png] with no box. *)
Lemma C3_cancel_returns_to_drawing_counterexample :
  let before := fst (run Scenario.world1 Scenario.on_a
                       (Scenario.drag 10 10 30 30 ++ [Scenario.press "s"])) in
  let after := fst (step Scenario.world1 before (Scenario.press "n")) in
  (pc before = PreviewLoop /\ img_name before = "a.png"
   /\ current_boxes before = [(10, 10, 30, 30)])
  /\ (pc after = MainLoop /\ img_name after = "b.png" /\ current_boxes after = []).
Proof. vm_compute. repeat split. Qed.

(** C5, as the code has it.  For a box whose corners lie within the image,
    every spatial field of the written record lies in [[0, 1]]: it reads
    [0.dddddd] or [1.000000].  When moreover the width and the height of
    the box are not zero and the box spans neither the whole width nor the
    whole height of the image, the floats that are formatted lie strictly
    between 0 and 1; and when the image has fewer than a million columns
    and fewer than a million rows, so do the written fields: each reads
    [0.dddddd] with digits from [000001] to [999999]. *)
Theorem C5_fields_strictly_inside_unit (x1 y1 x2 y2 : Z) (w h : positive) :
  dim_ok w -> dim_ok h -> in_image (x1, y1, x2, y2) w h ->
  let l := normalize (x1, y1, x2, y2) w h in
  let written := [format_6f (x_center l); format_6f (y_center l);
                  format_6f (width l); format_6f (height l)] in
  split_spaces (label_record (x1, y1, x2, y2) w h) = "0" :: written
  /\ Forall Reading.is_unit_field written
  /\ (x1 <> x2 -> y1 <> y2 -> Z.abs (x2 - x1) < Z.pos w -> Z.abs (y2 - y1) < Z.pos h ->
      Forall (fun v => 0 < v < 1)%Q (fields l)
      /\ (Z.pos w < 10 ^ 6 -> Z.pos h < 10 ^ 6 -> Forall Reading.is_inner_field written)).
Proof.
  intros Hw Hh (X1 & X2 & Y1 & Y2) l written. unfold dim_ok in Hw, Hh.
  split; [apply split_spaces_label_record|].
  unfold written, l, fields. cbn [normalize x_center y_center width height].
  split.
  - apply List.Forall_cons;
      [apply format_6f_unit; [apply center_finite|apply center_sign|apply center_unit]; lia|].
    apply List.Forall_cons;
      [apply format_6f_unit; [apply center_finite|apply center_sign|apply center_unit]; lia|].
    apply List.Forall_cons;
      [apply format_6f_unit; [apply extent_finite|apply extent_sign|apply extent_unit]; lia|].
    apply List.Forall_cons;
      [apply format_6f_unit; [apply extent_finite|apply extent_sign|apply extent_unit]; lia|].
    apply List.Forall_nil.
  - intros Hx Hy Dx Dy. split.
    + apply List.Forall_cons; [apply center_open_unit; lia|].
      apply List.Forall_cons; [apply center_open_unit; lia|].
      apply List.Forall_cons; [apply extent_open_unit; lia|].
      apply List.Forall_cons; [apply extent_open_unit; lia|].
      apply List.Forall_nil.
    + intros Mw Mh.
      apply List.Forall_cons; [apply center_inner; lia|].
      apply List.Forall_cons; [apply center_inner; lia|].
      apply List.Forall_cons; [apply extent_inner; lia|].
      apply List.Forall_cons; [apply extent_inner; lia|].
      apply List.Forall_nil.
Qed.

(** C5 on the box [(10, 10, 30, 30)] of an image of 100 columns and 50
    rows. *)
Lemma C5_witness :
  let l := normalize (10, 10, 30, 30) 100 50 in
  dim_ok 100 /\ dim_ok 50 /\ in_image (10, 10, 30, 30) 100 50
  /\ 10 <> 30 /\ Z.abs (30 - 10) < 100 /\ Z.abs (30 - 10) < 50
  /\ Z.pos 100 < 10 ^ 6 /\ Z.pos 50 < 10 ^ 6
  /\ Forall (fun v => 0 < v < 1)%Q (fields l)
  /\ Forall Reading.is_inner_field
       [format_6f (x_center l); format_6f (y_center l);
        format_6f (width l); format_6f (height l)].
Proof.
  cbv zeta.
  assert (Hw : dim_ok 100) by reflexivity.
  assert (Hh : dim_ok 50) by reflexivity.
  assert (Hb : in_image (10, 10, 30, 30) 100 50) by (unfold in_image; lia).
  assert (Hn : 10 <> 30) by discriminate.
  assert (Dx : Z.abs (30 - 10) < 100) by reflexivity.
  assert (Dy : Z.abs (30 - 10) < 50) by reflexivity.
  assert (Mw : Z.pos 100 < 10 ^ 6) by reflexivity.
  assert (Mh : Z.pos 50 < 10 ^ 6) by reflexivity.
  pose proof (proj2 (proj2 (C5_fields_strictly_inside_unit 10 10 30 30 100 50 Hw Hh Hb))
                Hn Hn Dx Dy) as T.
  exact (conj Hw (conj Hh (conj Hb (conj Hn (conj Dx (conj Dy (conj Mw (conj Mh
           (conj (proj1 T) (proj2 T Mw Mh)))))))))).
Defined.

(** C5, as the spec has it, fails: a click without a drag at [(10, 10)] of
    a 100 x 100 image commits the box [(10, 10, 10, 10)], which lies within
    the image; confirming writes a record whose width and height are 0.
    And on an image of 1000001 columns and 3 rows the box [(0, 0, 1, 1)],
    which has a width and a height and spans neither side of the image, is
    written with the centre [0.000000]. *)
Lemma C5_open_interval_counterexample :
  file_writes (snd (run Scenario.world1 Scenario.on_a
                      (Scenario.click 10 10 ++ [Scenario.press "s"; Scenario.press "y"])))
    = [(label_path "train" "a.png",
        "0 0.100000 0.100000 0.000000 0.000000" +:+ String newline EmptyString)]
  /\ in_image (10, 10, 10, 10) 100 100
  /\ width (normalize (10, 10, 10, 10) 100 100) = S754_zero false
  /\ ~ (0 < SF2Q (width (normalize (10, 10, 10, 10)%Z 100 100)))%Q
  /\ in_image (0, 0, 1, 1) 1000001 3
  /\ label_record (0, 0, 1, 1) 1000001 3 = "0 0.000000 0.166667 0.000001 0.333333".
Proof.
  split; [vm_compute; reflexivity|]. split; [unfold in_image; lia|].
  split; [vm_compute; reflexivity|]. split; [vm_compute; discriminate|].
  split; [unfold in_image; lia|]. vm_compute. reflexivity.
Qed.

(** C6.  Two boxes are committed, [r] is pressed, the box [(0, 0, 50, 50)]
    is committed on a 100 x 100 image, and the save is confirmed with [s]
    then [y]: the one file written is the label file of the image, and it
    holds the one line [0 0.250000 0.250000 0.500000 0.500000]. *)
Theorem C6_reset_then_one_box_scenario (W : world) (s : state) (m : Mat)
    (a1 b1 c1 d1 a2 b2 c2 d2 : Z) :
  pc s = MainLoop -> w s = 100%positive -> h s = 100%positive ->
  imread W (img_path (split s) (img_name s)) = Some m ->
  let inputs := Scenario.drag a1 b1 c1 d1 ++ Scenario.drag a2 b2 c2 d2
                ++ [Scenario.press "r"] ++ Scenario.drag 0 0 50 50
                ++ [Scenario.press "s"] ++ [Scenario.press "y"] in
  let r := run W s inputs in
  let path := label_path (split s) (img_name s) in
  let line := "0 0.250000 0.250000 0.500000 0.500000" in
  file_writes (snd r) = [(path, line +:+ String newline EmptyString)]
  /\ files (fst r) !! path = Some (line +:+ String newline EmptyString)
  /\ splitlines (line +:+ String newline EmptyString) = [line].
Proof.
  intros Hpc Hw Hh Him inputs r path line.
  unfold r, inputs. rewrite !run_app. cbn [fst snd]. rewrite !file_writes_app.
  destruct (run_drag W s a1 b1 c1 d1 (or_introl Hpc)) as (B1 & P1 & S1 & W1).
  set (s1 := fst (run W s (Scenario.drag a1 b1 c1 d1))) in *. rewrite W1.
  rewrite Hpc in P1.
  destruct (run_drag W s1 a2 b2 c2 d2 (or_introl P1)) as (B2 & P2 & S2 & W2).
  set (s2 := fst (run W s1 (Scenario.drag a2 b2 c2 d2))) in *. rewrite W2.
  rewrite P1 in P2.
  destruct S1 as (S1a & S1b & S1c & S1d & S1e).
  destruct S2 as (S2a & S2b & S2c & S2d & S2e).
  assert (Him2 : imread W (img_path (split s2) (img_name s2)) = Some m).
  { rewrite S2a, S2b, S1a, S1b. exact Him. }
  destruct (run_reset W s2 m P2 Him2) as (B3 & P3 & S3 & W3).
  set (s3 := fst (run W s2 [Scenario.press "r"])) in *. rewrite W3.
  destruct S3 as (S3a & S3b & S3c & S3d & S3e).
  destruct (run_drag W s3 0 0 50 50 (or_introl P3)) as (B4 & P4 & S4 & W4).
  set (s4 := fst (run W s3 (Scenario.drag 0 0 50 50))) in *. rewrite W4.
  rewrite P3 in P4. rewrite B3 in B4. cbn [app] in B4.
  destruct S4 as (S4a & S4b & S4c & S4d & S4e).
  destruct (run_preview W s4 P4) as (B5 & P5 & S5 & W5).
  set (s5 := fst (run W s4 [Scenario.press "s"])) in *. rewrite W5.
  destruct S5 as (S5a & S5b & S5c & S5d & S5e).
  rewrite run_one. cbn [fst snd app].
  destruct (step_writes W s5 (Scenario.press "y")) as [Hwr Hfs].
  assert (Hc : confirms s5 (Scenario.press "y") = true).
  { unfold confirms, Scenario.press. rewrite P5. reflexivity. }
  rewrite Hc in Hwr, Hfs.
  assert (Hsave : save_of s5 = (path, line +:+ String newline EmptyString)).
  { unfold save_of.
    rewrite S5a, S5b, S5c, S5d, S4a, S4b, S4c, S4d, S3a, S3b, S3c, S3d,
      S2a, S2b, S2c, S2d, S1a, S1b, S1c, S1d, B5, B4, Hw, Hh.
    assert (T : label_text [(0, 0, 50, 50)] 100 100 = line +:+ String newline EmptyString)
      by (vm_compute; reflexivity).
    rewrite T. reflexivity. }
  rewrite Hsave in Hwr, Hfs. cbn [fst snd] in Hfs.
  split; [exact Hwr|]. split; [rewrite Hfs; apply lookup_insert_eq|].
  vm_compute. reflexivity.
Qed.

Lemma C6_witness :
  pc Scenario.on_a = MainLoop /\ w Scenario.on_a = 100%positive
  /\ h Scenario.on_a = 100%positive
  /\ file_writes
       (snd (run Scenario.world1 Scenario.on_a
               (Scenario.drag 1 2 30 40 ++ Scenario.drag 5 5 7 7
                ++ [Scenario.press "r"] ++ Scenario.drag 0 0 50 50
                ++ [Scenario.press "s"] ++ [Scenario.press "y"])))
     = [(label_path (split Scenario.on_a) (img_name Scenario.on_a),
         "0 0.250000 0.250000 0.500000 0.500000" +:+ String newline EmptyString)].
Proof.
  assert (Hpc : pc Scenario.on_a = MainLoop) by reflexivity.
  assert (Hw : w Scenario.on_a = 100%positive) by reflexivity.
  assert (Hh : h Scenario.on_a = 100%positive) by reflexivity.
  assert (Him : imread Scenario.world1
                  (img_path (split Scenario.on_a) (img_name Scenario.on_a))
                = Some (img Scenario.on_a)) by reflexivity.
  exact (conj Hpc (conj Hw (conj Hh
           (proj1 (C6_reset_then_one_box_scenario Scenario.world1 Scenario.on_a
                     (img Scenario.on_a) 1 2 30 40 5 5 7 7 Hpc Hw Hh Him))))).
Defined.

(** C8.  The device is a function of [torch.cuda.is_available()] alone:
    [cuda] when it holds and [cpu] otherwise; the script makes one training
    call, and the device it passes is that one. *)
Theorem C8_device_follows_availability (cuda_is_available : bool) :
  Trainer.device cuda_is_available = (if cuda_is_available then "cuda" else "cpu")
  /\ exists kwargs,
       List.filter Ultralytics.is_train (Trainer.main cuda_is_available)
         = [Ultralytics.train kwargs]
       /\ Ultralytics.kwarg "device" kwargs
          = Some (Ultralytics.Str (Trainer.device cuda_is_available)).
Proof.
  split; [reflexivity|]. destruct cuda_is_available; eexists; split; reflexivity.
Qed.

(** C9.  The exporter loads one checkpoint, [best.pt], and makes one export
    call and no training call; the options of the export call are the
    constants [nms=True], [dynamic=False] and [half=False]. *)
Theorem C9_export_once_with_fixed_options :
  List.filter Ultralytics.is_load Exporter.script = [Ultralytics.YOLO "best.pt"]
  /\ List.filter Ultralytics.is_train Exporter.script = []
  /\ exists kwargs,
       List.filter Ultralytics.is_export Exporter.script = [Ultralytics.export kwargs]
       /\ Ultralytics.kwarg "nms" kwargs = Some (Ultralytics.Bool true)
       /\ Ultralytics.kwarg "dynamic" kwargs = Some (Ultralytics.Bool false)
       /\ Ultralytics.kwarg "half" kwargs = Some (Ultralytics.Bool false).
Proof.
  split; [reflexivity|]. split; [reflexivity|]. eexists. repeat split.
Qed.

End Claims.

(** ** Part IV: more facts about the model *)

(** *** Walking the dataset *)

Section Walk.

Import Labeling Dataset.

Variable W : world.

Lemma land_255_periodic (code k : Z) : Z.land (code + 256 * k) 255 = Z.land code 255.
Proof.
  change 255 with (Z.ones 8). rewrite !Z.land_ones by lia.
  rewrite Z.mul_comm. apply Z_mod_plus_full.
Qed.

(** Where [load_image] arrives. *)
Lemma load_image_arrives (s : state) (sp name : string) (rest td : list string) :
  let s' := fst (load_image W s sp name rest td) in
  pc s' = Crashed
  \/ (pc s' = MainLoop /\ split s' = sp /\ img_name s' = name /\ img_files s' = rest
      /\ splits_left s' = td /\ current_boxes s' = [] /\ shows_boxes W s').
Proof.
  unfold load_image, imread.
  destruct (image_shape W (img_path sp name)) as [[h0 w0]|] eqn:E; cbn [fst pc];
    [right|left; reflexivity].
  unfold shows_boxes.
  cbn [fst pc split img_name img_files splits_left current_boxes img h w source shape
       painted map snd].
  rewrite E. repeat split.
Qed.

Lemma playlist_cons (sp : string) (td : list string) :
  playlist W (sp :: td) = map (pair sp) (images_of W sp) ++ playlist W td.
Proof. reflexivity. Qed.

(** The loop over the splits stops at the first image of the splits to
    come, or at the end, unless a listing or a decoding fails. *)
Lemma enter_splits_visits (td : list string) (s : state) :
  let s' := fst (enter_splits W td s) in
  match playlist W td with
  | [] => pc s' = Exited \/ pc s' = Crashed
  | (sp, name) :: rest =>
      pc s' = Crashed
      \/ (pc s' = MainLoop /\ split s' = sp /\ img_name s' = name /\ todo W s' = rest
          /\ current_boxes s' = [] /\ shows_boxes W s')
  end.
Proof.
  revert s. induction td as [|sp td IH]; intros s; cbn [enter_splits].
  - left. reflexivity.
  - rewrite playlist_cons. unfold images_of.
    destruct (listdir W (img_folder sp)) as [names|].
    + destruct (List.filter is_image_file names) as [|name rest].
      * cbn [map app]. specialize (IH (set_split s sp)).
        destruct (enter_splits W td (set_split s sp)) as [s' out]. exact IH.
      * cbn [map app].
        pose proof (load_image_arrives s sp name rest td) as H.
        destruct (load_image W s sp name rest td) as [s' out]. cbn [fst] in *.
        destruct H as [H|(H1 & H2 & H3 & H4 & H5 & H6 & H7)]; [left; exact H|right].
        unfold todo. rewrite H2, H4, H5.
        exact (conj H1 (conj eq_refl (conj H3 (conj eq_refl (conj H6 H7))))).
    + cbn [map app fst set_pc pc].
      destruct (playlist W td) as [|[sp' name'] rest]; [right|left]; reflexivity.
Qed.

Lemma next_image_visits (s : state) :
  let s' := fst (next_image W s) in
  match todo W s with
  | [] => pc s' = Exited \/ pc s' = Crashed
  | (sp, name) :: rest =>
      pc s' = Crashed
      \/ (pc s' = MainLoop /\ split s' = sp /\ img_name s' = name /\ todo W s' = rest
          /\ current_boxes s' = [] /\ shows_boxes W s')
  end.
Proof.
  unfold next_image, todo at 1.
  destruct (img_files s) as [|name rest]; cbn [map app]; [apply enter_splits_visits|].
  pose proof (load_image_arrives s (split s) name rest (splits_left s)) as H.
  cbv zeta in *.
  destruct H as [H|(H1 & H2 & H3 & H4 & H5 & H6 & H7)]; [left; exact H|right].
  unfold todo. rewrite H2, H4, H5.
  exact (conj H1 (conj eq_refl (conj H3 (conj eq_refl (conj H6 H7))))).
Qed.

End Walk.

(** *** The position in the dataset *)

Section Position.

Import Labeling Dataset.

Variable W : world.

Lemma skipn_cons_inv {A : Type} (n : nat) (l : list A) (x : A) (r : list A) :
  skipn n l = x :: r -> nth_error l n = Some x /\ skipn (S n) l = r.
Proof.
  revert l. induction n as [|n IH]; intros [|a l] H; cbn in *; try discriminate.
  - injection H as -> ->. split; reflexivity.
  - apply IH in H. exact H.
Qed.

Lemma skipn_nil_inv {A : Type} (n : nat) (l : list A) (x : A) :
  nth_error l n = Some x -> skipn (S n) l = [] -> S n = length l.
Proof.
  revert l. induction n as [|n IH]; intros [|a l] H1 H2; cbn in *; try discriminate.
  - destruct l; [reflexivity|discriminate].
  - f_equal. apply IH; assumption.
Qed.

Lemma crashed_at (s : state) (k : nat) : pc s = Crashed -> at_image W s k.
Proof. intros H. split; [intros [R|R]; congruence|congruence]. Qed.

(** Leaving image [k] brings the tool to image [k + 1], or to the end. *)
Lemma next_image_at (s s0 : state) (k : nat) :
  todo W s = todo W s0 -> running s0 -> at_image W s0 k ->
  at_image W (fst (next_image W s)) (S k).
Proof.
  intros Htd R0 [H0 _]. destruct (H0 R0) as (Hn & Hsk & _).
  pose proof (next_image_visits W s) as Hv. cbv zeta in Hv.
  rewrite Htd, <- Hsk in Hv.
  destruct (skipn (S k) (playlist W splits)) as [|[sp name] rest] eqn:E.
  - destruct Hv as [Hv|Hv]; [|apply crashed_at; exact Hv].
    split; [intros [R|R]; congruence|]. intros _. eapply skipn_nil_inv; eassumption.
  - destruct Hv as [Hc|(H1 & H2 & H3 & H4 & H5 & H6)]; [apply crashed_at; exact Hc|].
    apply skipn_cons_inv in E as [E1 E2].
    split; [|congruence]. intros _. rewrite H2, H3, H4. exact (conj E1 (conj E2 H6)).
Qed.

Lemma painted_rectangle (m : Mat) (p1 p2 : Z * Z) (c : Z * Z * Z) (t : Z) :
  painted (rectangle m p1 p2 c t)
  = painted m ++ [{| pt1 := p1; pt2 := p2; color := c; thickness := t |}].
Proof. reflexivity. Qed.

(** The mouse callback keeps the window in step with the box list. *)
Lemma draw_box_at (event : mouse_event) (x y : Z) (s : state) (k : nat) :
  at_image W s k -> at_image W (fst (draw_box event x y s)) k.
Proof.
  intros H.
  destruct event; cbn [draw_box]; [|destruct (drawing s)| |]; cbn [fst]; try exact H.
  destruct H as [H E]. split; [|exact E].
  intros R. destruct (H R) as (H1 & H2 & S1 & S2 & S3 & S4).
  refine (conj H1 (conj H2 _)).
  unfold shows_boxes.
  cbn [img split img_name h w current_boxes source shape painted rectangle].
  rewrite map_app, S3. repeat split; assumption.
Qed.

Lemma reset_at (s : state) (k : nat) :
  at_image W s k -> running s -> at_image W (fst (reset W s)) k.
Proof.
  intros [H _] R. destruct (H R) as (H1 & H2 & S1 & S2 & S3 & S4).
  unfold reset, imread. rewrite S4. cbn [fst]. split; [|discriminate]. intros _.
  refine (conj H1 (conj H2 _)). unfold shows_boxes.
  cbn [img split img_name h w current_boxes source shape painted map].
  repeat split; assumption.
Qed.

Lemma preview_at (s : state) (k : nat) :
  at_image W s k -> running s -> at_image W (set_pc s PreviewLoop) k.
Proof. intros [H _] R. split; [|discriminate]. intros _. exact (H R). Qed.

(** One input: the position moves on by one exactly when the input makes
    the tool leave the image. *)
Lemma step_at (s : state) (i : input) (k : nat) :
  at_image W s k -> at_image W (fst (step W s i)) ((if leaves s i then 1 else 0) + k).
Proof.
  intros H. unfold step, leaves.
  destruct (pc s) eqn:Hpc; destruct i as [event x y|code]; cbn [Nat.add];
    try (apply draw_box_at; exact H); try exact H.
  - cbv zeta. destruct (Z.land code 255 =? ord "s") eqn:Ks.
    + apply Z.eqb_eq in Ks. rewrite Ks. change (ord "s" =? ord "n") with false.
      apply preview_at; [exact H|left; exact Hpc].
    + destruct (Z.land code 255 =? ord "n").
      * apply (next_image_at s s); [reflexivity|left; exact Hpc|exact H].
      * destruct (Z.land code 255 =? ord "r"); [|exact H].
        apply reset_at; [exact H|left; exact Hpc].
  - cbv zeta. destruct (Z.land code 255 =? ord "y").
    + cbn [orb]. set (s1 := set_files s _).
      pose proof (next_image_at s1 s k eq_refl (or_intror Hpc) H) as N.
      destruct (next_image W s1) as [s' out]. exact N.
    + cbn [orb]. destruct (Z.land code 255 =? ord "n"); [|exact H].
      pose proof (next_image_at s s k eq_refl (or_intror Hpc) H) as N.
      destruct (next_image W s) as [s' out]. exact N.
Qed.

Lemma run_fst_cons (s : state) (i : input) (inputs : list input) :
  fst (run W s (i :: inputs)) = fst (run W (fst (step W s i)) inputs).
Proof. rewrite run_cons. reflexivity. Qed.

Lemma run_at (s : state) (inputs : list input) (k : nat) :
  at_image W s k -> at_image W (fst (run W s inputs)) (departures W s inputs + k).
Proof.
  revert s k. induction inputs as [|i inputs IH]; intros s k H; [exact H|].
  rewrite run_fst_cons. cbn [departures].
  replace ((if leaves s i then 1 else 0) + departures W (fst (step W s i)) inputs + k)%nat
    with (departures W (fst (step W s i)) inputs + ((if leaves s i then 1 else 0) + k))%nat
    by lia.
  apply IH, step_at, H.
Qed.

Lemma start_at (disk : gmap string string) : at_image W (fst (start W disk)) 0.
Proof.
  unfold start. pose proof (enter_splits_visits W splits (boot disk)) as Hv. cbv zeta in Hv.
  destruct (playlist W splits) as [|[sp name] rest] eqn:E.
  - destruct Hv as [Hv|Hv]; [|split; [intros [R|R]; congruence|congruence]].
    split; [intros [R|R]; congruence|]. intros _. rewrite E. reflexivity.
  - destruct Hv as [Hc|(H1 & H2 & H3 & H4 & H5 & H6)];
      [split; [intros [R|R]; congruence|congruence]|].
    split; [|congruence].
    intros _. rewrite E, H2, H3, H4. cbn [nth_error skipn]. repeat split; try reflexivity.
    all: apply H6.
Qed.

End Position.

(** *** The press point, the box list and the disk *)

Section Pointer.

Import Labeling Dataset.

Variable W : world.

(** Only the mouse callback assigns the globals [drawing], [ix] and [iy]. *)

Lemma load_image_pointer (s : state) (sp name : string) (rest td : list string) :
  let s' := fst (load_image W s sp name rest td) in
  ix s' = ix s /\ iy s' = iy s /\ drawing s' = drawing s.
Proof. unfold load_image. destruct (imread W _); repeat split. Qed.

Lemma enter_splits_pointer (td : list string) (s : state) :
  let s' := fst (enter_splits W td s) in
  ix s' = ix s /\ iy s' = iy s /\ drawing s' = drawing s.
Proof.
  revert s. induction td as [|sp td IH]; intros s; cbn [enter_splits]; [repeat split|].
  destruct (listdir W (img_folder sp)) as [names|]; [|repeat split].
  destruct (List.filter is_image_file names) as [|name rest].
  - specialize (IH (set_split s sp)).
    destruct (enter_splits W td (set_split s sp)) as [s' out]. exact IH.
  - pose proof (load_image_pointer s sp name rest td) as H.
    destruct (load_image W s sp name rest td) as [s' out]. exact H.
Qed.

Lemma next_image_pointer (s : state) :
  let s' := fst (next_image W s) in
  ix s' = ix s /\ iy s' = iy s /\ drawing s' = drawing s.
Proof.
  unfold next_image.
  destruct (img_files s); [apply enter_splits_pointer|apply load_image_pointer].
Qed.

Lemma step_pointer (s : state) (i : input) :
  no_press i -> ix (fst (step W s i)) = ix s /\ iy (fst (step W s i)) = iy s.
Proof.
  intros Hi. unfold step.
  destruct (pc s); destruct i as [event x y|code]; try (split; reflexivity);
    try (destruct event; [destruct Hi| | |]; cbn [draw_box];
         try destruct (drawing s); split; reflexivity).
  - cbv zeta. destruct (Z.land code 255 =? ord "s"); [split; reflexivity|].
    destruct (Z.land code 255 =? ord "n");
      [destruct (next_image_pointer s) as (A & B & _); split; assumption|].
    destruct (Z.land code 255 =? ord "r"); [|split; reflexivity].
    unfold reset. destruct (imread W _); split; reflexivity.
  - cbv zeta. destruct (Z.land code 255 =? ord "y").
    + set (s1 := set_files s _).
      destruct (next_image_pointer s1) as (A & B & _).
      destruct (next_image W s1) as [s' out]. split; assumption.
    + destruct (Z.land code 255 =? ord "n"); [|split; reflexivity].
      destruct (next_image_pointer s) as (A & B & _).
      destruct (next_image W s) as [s' out]. split; assumption.
Qed.

Lemma run_pointer (s : state) (inputs : list input) :
  Forall no_press inputs ->
  ix (fst (run W s inputs)) = ix s /\ iy (fst (run W s inputs)) = iy s.
Proof.
  revert s. induction inputs as [|i inputs IH]; intros s H; [split; reflexivity|].
  apply Forall_cons in H as [Hi H]. rewrite run_fst_cons.
  destruct (IH (fst (step W s i)) H) as [A B].
  destruct (step_pointer s i Hi) as [C D]. split; congruence.
Qed.

(** Leaving an image either empties the box list or, when the tool stops,
    leaves it alone. *)
Lemma next_image_boxes_cases (s : state) :
  current_boxes (fst (next_image W s)) = current_boxes s
  \/ current_boxes (fst (next_image W s)) = [].
Proof.
  pose proof (next_image_visits W s) as H. cbv zeta in H.
  assert (C : forall (td : list string) (s0 : state),
             current_boxes (fst (enter_splits W td s0)) = current_boxes s0
             \/ current_boxes (fst (enter_splits W td s0)) = []).
  { clear. induction td as [|sp td IH]; intros s0; cbn [enter_splits]; [left; reflexivity|].
    destruct (listdir W (img_folder sp)) as [names|]; [|left; reflexivity].
    destruct (List.filter is_image_file names) as [|name rest].
    - specialize (IH (set_split s0 sp)).
      destruct (enter_splits W td (set_split s0 sp)) as [s' out]. exact IH.
    - unfold load_image. destruct (imread W _); [right|left]; reflexivity. }
  unfold next_image. destruct (img_files s) as [|name rest]; [apply C|].
  unfold load_image. destruct (imread W _); [right|left]; reflexivity.
Qed.

Lemma painted_rectangles (m : Mat) (boxes : list box) :
  painted (rectangles m boxes green) = painted m ++ map green_rect boxes.
Proof.
  unfold rectangles. revert m. induction boxes as [|[[[x1 y1] x2] y2] boxes IH]; intros m.
  - cbn [fold_left map]. rewrite app_nil_r. reflexivity.
  - cbn [fold_left map]. rewrite IH, painted_rectangle, <- app_assoc. reflexivity.
Qed.

(** One drag per box: the boxes are committed in order. *)
Lemma run_drags (s : state) (boxes : list box) :
  running s ->
  let r := run W s (drags boxes) in
  current_boxes (fst r) = current_boxes s ++ boxes
  /\ painted (img (fst r)) = painted (img s) ++ map green_rect boxes
  /\ pc (fst r) = pc s /\ same_image s (fst r) /\ file_writes (snd r) = [].
Proof.
  revert s. induction boxes as [|[[[x1 y1] x2] y2] boxes IH]; intros s R.
  - cbn [drags flat_map run fst snd map]. rewrite !app_nil_r. repeat split.
  - cbv zeta. change (drags ((x1, y1, x2, y2) :: boxes))
      with (Scenario.drag x1 y1 x2 y2 ++ drags boxes).
    rewrite run_app. cbn [fst snd].
    destruct (run_drag W s x1 y1 x2 y2 R) as (B1 & P1 & S1 & W1).
    assert (I1 : painted (img (fst (run W s (Scenario.drag x1 y1 x2 y2))))
                 = painted (img s) ++ [green_rect (x1, y1, x2, y2)]).
    { unfold Scenario.drag. rewrite run_cons, run_one.
      rewrite (step_mouse W s) by exact R. cbn [draw_box fst snd].
      rewrite step_mouse by exact R. reflexivity. }
    set (s1 := fst (run W s (Scenario.drag x1 y1 x2 y2))) in *.
    assert (R1 : running s1) by (unfold running; rewrite P1; exact R).
    destruct (IH s1 R1) as (B2 & I2 & P2 & S2 & W2).
    rewrite file_writes_app, W1, W2, B2, B1, I2, I1, P2, P1, <- !app_assoc.
    split; [reflexivity|]. split; [reflexivity|]. split; [reflexivity|].
    split; [|reflexivity].
    destruct S1 as (A1 & A2 & A3 & A4 & A5). destruct S2 as (C1 & C2 & C3 & C4 & C5).
    unfold same_image. repeat split; congruence.
Qed.

(** Writing the files of an output, one path at a time. *)
Lemma write_all_lookup (disk : gmap string string) (saves : list (string * string))
    (path : string) :
  write_all disk saves !! path
  = match last_write path saves with Some t => Some t | None => disk !! path end.
Proof.
  unfold write_all, last_write.
  assert (fold_some : forall (l : list (string * string)) (t : string),
    fold_left (fun acc pt => if String.eqb (fst pt) path then Some (snd pt) else acc)
      l (Some t) <> None).
  { induction l as [|[p' t'] l IH]; intros t; cbn [fold_left fst snd]; [discriminate|].
    destruct (String.eqb p' path); apply IH. }
  assert (G : forall (acc : option string) (d : gmap string string),
    (forall t, acc = Some t -> d !! path = Some t) ->
    fold_left (fun d pt => <[fst pt := snd pt]> d) saves d !! path
    = match fold_left (fun acc pt => if String.eqb (fst pt) path then Some (snd pt) else acc)
              saves acc with
      | Some t => Some t
      | None => d !! path
      end).
  { induction saves as [|[p t] saves IH]; intros acc d Hacc; cbn [fold_left fst snd].
    - destruct acc as [t|]; [apply Hacc; reflexivity|reflexivity].
    - rewrite (IH (if String.eqb p path then Some t else acc) (<[p := t]> d)).
      + destruct (fold_left _ saves _) as [t'|] eqn:F; [reflexivity|].
        destruct (String.eqb p path) eqn:E.
        * exfalso. revert F. apply fold_some.
        * apply String.eqb_neq in E. rewrite lookup_insert_ne by exact E. reflexivity.
      + intros t0. destruct (String.eqb p path) eqn:E.
        * intros [= <-]. apply String.eqb_eq in E as ->. apply lookup_insert_eq.
        * apply String.eqb_neq in E. rewrite lookup_insert_ne by exact E. apply Hacc. }
  apply G. discriminate.
Qed.

End Pointer.

(** *** The confirmations of a session *)

Section SessionFacts.

Import Labeling Dataset.

Variable W : world.

Lemma playlist_In (sps : list string) (sp name : string) :
  In (sp, name) (playlist W sps) ->
  In sp sps /\ exists names, listdir W (img_folder sp) = Some names
                            /\ In name names /\ is_image_file name = true.
Proof.
  unfold playlist. rewrite in_flat_map. intros (sp' & Hsp & H).
  rewrite in_map_iff in H. destruct H as (name' & [= <- <-] & H).
  split; [exact Hsp|]. unfold images_of in H.
  destruct (listdir W (img_folder sp')) as [names|]; [|destruct H].
  apply filter_In in H as [H1 H2]. exists names. repeat split; assumption.
Qed.

Lemma confirms_leaves (s : state) (i : input) : confirms s i = true -> leaves s i = true.
Proof.
  unfold confirms, leaves. destruct (pc s); destruct i; try discriminate.
  intros ->. reflexivity.
Qed.

Lemma confirms_running (s : state) (i : input) : confirms s i = true -> running s.
Proof.
  unfold confirms, running. destruct (pc s); destruct i; try discriminate.
  intros _. right. reflexivity.
Qed.

(** The confirmations of a session fall on images of increasing number. *)
Lemma confirmations_at (s : state) (inputs : list input) (k : nat) :
  at_image W s k ->
  exists ks, Forall (le k) ks /\ StronglySorted lt ks
    /\ Forall2 (fun j c => nth_error (playlist W splits) j = Some (split c, img_name c))
               ks (confirmations W s inputs).
Proof.
  revert s k. induction inputs as [|i inputs IH]; intros s k H.
  - exists []. repeat split; constructor.
  - cbn [confirmations]. pose proof (step_at W s i k H) as H1.
    destruct (IH _ _ H1) as (ks & Hle & Hso & Hf).
    destruct (confirms s i) eqn:Hc.
    + rewrite (confirms_leaves s i Hc) in Hle.
      destruct (proj1 H (confirms_running s i Hc)) as (Hn & _).
      exists (k :: ks). split; [|split].
      * constructor; [lia|]. eapply List.Forall_impl; [|exact Hle]. cbn. intros; lia.
      * constructor; [exact Hso|]. eapply List.Forall_impl; [|exact Hle]. cbn. intros; lia.
      * cbn [app]. constructor; assumption.
    + exists ks. split; [|split; assumption].
      eapply List.Forall_impl; [|exact Hle]. cbn. intros; lia.
Qed.

Lemma load_image_set_files (s : state) (f : gmap string string) (sp name : string)
    (rest td : list string) :
  load_image W (set_files s f) sp name rest td
  = (set_files (fst (load_image W s sp name rest td)) f,
     snd (load_image W s sp name rest td)).
Proof. unfold load_image. destruct (imread W _); reflexivity. Qed.

Lemma enter_splits_set_files (td : list string) (s : state) (f : gmap string string) :
  enter_splits W td (set_files s f)
  = (set_files (fst (enter_splits W td s)) f, snd (enter_splits W td s)).
Proof.
  revert s. induction td as [|sp td IH]; intros s; cbn [enter_splits]; [reflexivity|].
  destruct (listdir W (img_folder sp)) as [names|]; [|reflexivity].
  destruct (List.filter is_image_file names) as [|name rest].
  - change (set_split (set_files s f) sp) with (set_files (set_split s sp) f).
    rewrite IH. destruct (enter_splits W td (set_split s sp)). reflexivity.
  - rewrite load_image_set_files. destruct (load_image W s sp name rest td). reflexivity.
Qed.

Lemma next_image_set_files (s : state) (f : gmap string string) :
  next_image W (set_files s f)
  = (set_files (fst (next_image W s)) f, snd (next_image W s)).
Proof.
  unfold next_image. cbn [set_files img_files splits_left split].
  destruct (img_files s); [apply enter_splits_set_files|apply load_image_set_files].
Qed.

End SessionFacts.

(** *** Paths and file names *)

Section Paths.

Import PyFormat Posixpath Labeling.

Lemma append_nil_r (s : string) : s +:+ EmptyString = s.
Proof. induction s as [|c s IH]; [reflexivity|]. rewrite append_cons, IH. reflexivity. Qed.

Lemma length_append (a b : string) :
  String.length (a +:+ b) = (String.length a + String.length b)%nat.
Proof.
  induction a as [|c a IH]; [rewrite append_nil_l; reflexivity|].
  rewrite append_cons. cbn [String.length]. rewrite IH. reflexivity.
Qed.

Lemma substring_full (s : string) : String.substring 0 (String.length s) s = s.
Proof. induction s as [|c s IH]; [reflexivity|]. cbn. rewrite IH. reflexivity. Qed.

(** Cutting a string at [n] and gluing the two pieces gives it back. *)
Lemma substring_split (n : nat) (s : string) :
  (n <= String.length s)%nat ->
  String.substring 0 n s +:+ String.substring n (String.length s - n) s = s.
Proof.
  revert n. induction s as [|c s IH]; intros [|n] H; cbn [String.length] in *;
    try lia; cbn [String.substring Nat.sub].
  - reflexivity.
  - rewrite append_nil_l. cbn. rewrite substring_full. reflexivity.
  - rewrite append_cons, IH by lia. reflexivity.
Qed.

Lemma substring_prefix (a b : string) :
  String.substring 0 (String.length a) (a +:+ b) = a.
Proof.
  induction a as [|c a IH]; [rewrite append_nil_l; destruct b; reflexivity|].
  rewrite append_cons. cbn. rewrite IH. reflexivity.
Qed.

Lemma substring_suffix (a b : string) :
  String.substring (String.length a) (String.length b) (a +:+ b) = b.
Proof.
  induction a as [|c a IH]; [rewrite append_nil_l; apply substring_full|].
  rewrite append_cons. cbn. exact IH.
Qed.

(** [endswith] holds of the strings that end with the suffix, and of no
    other. *)
Lemma endswith_spec (suffix s : string) :
  endswith suffix s = true <-> exists pre, s = pre +:+ suffix.
Proof.
  unfold endswith. rewrite andb_true_iff, Nat.leb_le, String.eqb_eq. split.
  - intros [Hle He].
    exists (String.substring 0 (String.length s - String.length suffix) s).
    rewrite <- He at 2.
    rewrite <- (substring_split (String.length s - String.length suffix) s) at 1 by lia.
    repeat f_equal. lia.
  - intros [pre ->]. rewrite length_append. split; [lia|].
    replace (String.length pre + String.length suffix - String.length suffix)%nat
      with (String.length pre) by lia.
    apply substring_suffix.
Qed.

Lemma lower_append (a b : string) : lower (a +:+ b) = lower a +:+ lower b.
Proof.
  induction a as [|c a IH]; [rewrite !append_nil_l; reflexivity|].
  rewrite append_cons. cbn [lower]. rewrite append_cons, IH. reflexivity.
Qed.

Lemma lower_append_inv (f a b : string) :
  lower f = a +:+ b -> exists x y, f = x +:+ y /\ lower x = a /\ lower y = b.
Proof.
  revert f. induction a as [|c a IH]; intros f H.
  - rewrite append_nil_l in H. exists EmptyString, f. rewrite append_nil_l. auto.
  - rewrite append_cons in H. destruct f as [|d f]; [discriminate|].
    cbn [lower] in H. injection H as Hc H. destruct (IH f H) as (x & y & -> & Hx & Hy).
    exists (String d x), y. rewrite append_cons. cbn [lower]. rewrite Hc, Hx. auto.
Qed.

(** Searching from the right. *)

Lemma rfind_from_lacks (c : ascii) (s : string) (i last : Z) :
  lacks c s = true -> rfind_from c s i last = last.
Proof.
  revert i last. induction s as [|a s IH]; intros i last H; [reflexivity|].
  cbn [lacks] in H. apply andb_true_iff in H as [H1 H2]. cbn [rfind_from].
  apply negb_true_iff in H1. rewrite H1. apply IH, H2.
Qed.

Lemma rfind_from_append (c : ascii) (a b : string) (i last : Z) :
  rfind_from c (a +:+ b) i last
  = rfind_from c b (i + Z.of_nat (String.length a)) (rfind_from c a i last).
Proof.
  revert i last. induction a as [|d a IH]; intros i last.
  - rewrite append_nil_l. cbn [String.length rfind_from]. rewrite Z.add_0_r. reflexivity.
  - rewrite append_cons. cbn [rfind_from String.length]. rewrite IH. f_equal. lia.
Qed.

Lemma rfind_from_range (c : ascii) (s : string) (i last : Z) :
  last < i -> last <= rfind_from c s i last < i + Z.of_nat (String.length s).
Proof.
  revert i last. induction s as [|a s IH]; intros i last H; cbn [rfind_from String.length].
  - lia.
  - destruct (Ascii.eqb a c).
    + specialize (IH (i + 1) i ltac:(lia)). lia.
    + specialize (IH (i + 1) last ltac:(lia)). lia.
Qed.

(** The stem and the extension of a plain file name. *)
Lemma splitext_plain (stem ext : string) :
  lacks "/" stem = true -> all_dots stem = false ->
  lacks "/" ext = true -> lacks "." ext = true ->
  splitext (stem +:+ "." +:+ ext) = (stem, "." +:+ ext).
Proof.
  intros S1 S2 E1 E2. unfold splitext.
  assert (Hsep : rfind "/" (stem +:+ "." +:+ ext) = -1).
  { unfold rfind. apply rfind_from_lacks.
    rewrite lacks_app, S1. rewrite (append_cons "." EmptyString), append_nil_l.
    cbn [lacks]. rewrite E1. reflexivity. }
  assert (Hdot : rfind "." (stem +:+ "." +:+ ext) = Z.of_nat (String.length stem)).
  { unfold rfind. rewrite rfind_from_append.
    rewrite (append_cons "." EmptyString), append_nil_l. cbn [rfind_from].
    change (Ascii.eqb "." ".") with true. cbv iota.
    rewrite rfind_from_lacks by exact E2. lia. }
  rewrite Hsep, Hdot.
  assert (L : (-1 <? Z.of_nat (String.length stem)) = true) by (apply Z.ltb_lt; lia).
  rewrite L. change (Z.to_nat (-1 + 1)) with 0%nat. rewrite Nat2Z.id, Nat.sub_0_r.
  rewrite substring_prefix, S2. f_equal.
  rewrite length_append.
  replace (String.length stem + String.length ("." +:+ ext) - String.length stem)%nat
    with (String.length ("." +:+ ext)) by lia.
  apply substring_suffix.
Qed.

(** The pieces [splitext] returns make up the path. *)
Lemma splitext_join (p : string) : fst (splitext p) +:+ snd (splitext p) = p.
Proof.
  unfold splitext.
  destruct (rfind "/" p <? rfind "." p) eqn:L; [|apply append_nil_r].
  destruct (all_dots _); [apply append_nil_r|]. cbn [fst snd].
  apply Z.ltb_lt in L.
  pose proof (rfind_from_range "/" p 0 (-1) ltac:(lia)) as R1.
  pose proof (rfind_from_range "." p 0 (-1) ltac:(lia)) as R2.
  fold (rfind "/" p) in R1. fold (rfind "." p) in R2.
  apply substring_split. lia.
Qed.

(** The three label directories. *)
Lemma labels_folder_splits (sp : string) :
  In sp splits ->
  labels_folder sp = dataset_folder +:+ sp +:+ "/labels"
  /\ String.eqb (labels_folder sp) "" = false
  /\ endswith "/" (labels_folder sp) = false.
Proof.
  intros [<-|[<-|[<-|[]]]]; vm_compute; repeat split.
Qed.

Lemma startswith_slash_prefix (a b : string) :
  startswith "/" (a +:+ b) = true -> a <> EmptyString -> startswith "/" a = true.
Proof.
  destruct a as [|c a]; [congruence|]. rewrite append_cons. intros H _.
  unfold startswith in *. cbn [String.prefix] in *.
  destruct (ascii_dec "/" c); [|discriminate]. destruct a; reflexivity.
Qed.

End Paths.

(** *** Fields outside the unit interval *)

Section OutsideUnit.

Import Binary64 Labeling.

Local Open Scope Q_scope.

(** The smallest float above 1 is [1 + 2^-52]. *)
Lemma rounds_gt_1 (v : Q) (z : spec_float) :
  1 + (1 # 4503599627370496) <= v -> rounds v z -> 1 < mag z.
Proof.
  intros Hv [_ Hge].
  assert (H : inject_Z (2 ^ 52 + 1) * pow2 (-52) <= mag z).
  { apply Hge; [unfold N53; lia|].
    eapply Qle_trans; [|exact Hv]. vm_compute. discriminate. }
  eapply Qlt_le_trans; [|exact H]. reflexivity.
Qed.

Lemma half_ratio_above_1 (a w : Z) :
  (2 * w < a)%Z -> (0 < w <= 2 ^ 51)%Z ->
  1 + (1 # 4503599627370496) <= inject_Z a / 2 / inject_Z w.
Proof.
  intros Ha Hw. pose proof (inject_Z_pos w ltac:(lia)) as HW.
  assert (H : 2 * inject_Z w + 1 <= inject_Z a).
  { change 2 with (inject_Z 2). change 1 with (inject_Z 1).
    rewrite <- inject_Z_mult, <- inject_Z_plus, <- Zle_Qle. lia. }
  assert (H' : inject_Z w <= 2251799813685248).
  { change 2251799813685248 with (inject_Z (2 ^ 51)). rewrite <- Zle_Qle. lia. }
  apply Qle_shift_div_l; [exact HW|]. apply Qle_shift_div_l; [reflexivity|]. lra.
Qed.

Lemma ratio_above_1 (d w : Z) :
  (w < d)%Z -> (0 < w <= 2 ^ 52)%Z ->
  1 + (1 # 4503599627370496) <= inject_Z d / inject_Z w.
Proof.
  intros Hd Hw. pose proof (inject_Z_pos w ltac:(lia)) as HW.
  assert (H : inject_Z w + 1 <= inject_Z d).
  { change 1 with (inject_Z 1). rewrite <- inject_Z_plus, <- Zle_Qle. lia. }
  assert (H' : inject_Z w <= 4503599627370496).
  { change 4503599627370496 with (inject_Z (2 ^ 52)). rewrite <- Zle_Qle. lia. }
  apply Qle_shift_div_l; [exact HW|]. lra.
Qed.

(** A centre field lies in [[0, 1]] only when the sum of the two corners
    lies in [[0, 2w]]. *)
Lemma center_unit_iff (a w : Z) :
  (Z.abs a < 2 ^ 53)%Z -> (0 < w < 2 ^ 51)%Z ->
  0 <= SF2Q (truediv (int_truediv a 2) (of_int w)) <= 1 <-> (0 <= a <= 2 * w)%Z.
Proof.
  intros Ha Hw. split; [|intros H; apply center_unit; lia].
  intros [H0 H1].
  destruct (Z.eq_dec a 0%Z) as [-> | Hne]; [lia|].
  destruct (center_nonzero a w Hne Ha ltac:(lia)) as (N & S & R).
  pose proof (mag_pos _ _ _ N) as Hpos.
  rewrite SF2Q_mag, S in H0, H1.
  destruct (a <? 0)%Z eqn:Hs.
  - exfalso. lra.
  - apply Z.ltb_ge in Hs. split; [exact Hs|].
    destruct (Z_le_gt_dec a (2 * w)) as [Hle|Hgt]; [exact Hle|exfalso].
    replace (Z.abs a) with a in R by lia.
    pose proof (rounds_gt_1 _ _ (half_ratio_above_1 a w ltac:(lia) ltac:(lia)) R). lra.
Qed.

(** An extent field is never negative, and is at most 1 only when the
    difference is at most [w]. *)
Lemma extent_unit_iff (d w : Z) :
  (0 <= d < 2 ^ 53)%Z -> (0 < w < 2 ^ 52)%Z ->
  0 <= SF2Q (int_truediv d w)
  /\ (SF2Q (int_truediv d w) <= 1 <-> (d <= w)%Z).
Proof.
  intros Hd Hw.
  destruct (Z.eq_dec d 0%Z) as [-> | Hne].
  - rewrite extent_zero by lia. cbn [SF2Q]. split; [apply Qle_refl|]. split; [lia|discriminate].
  - destruct (extent_nonzero d w ltac:(lia) ltac:(lia)) as (N & S & R).
    pose proof (mag_pos _ _ _ N) as Hpos. rewrite SF2Q_mag, S.
    split; [lra|]. split.
    + intros H1. destruct (Z_le_gt_dec d w) as [Hle|Hgt]; [exact Hle|exfalso].
      pose proof (rounds_gt_1 _ _ (ratio_above_1 d w ltac:(lia) ltac:(lia)) R). lra.
    + intros Hle. apply (rounds_le_1 _ _ (ratio_le_1 d w ltac:(lia) ltac:(lia)) R).
Qed.

End OutsideUnit.

(** *** Whole sessions *)

Section Whole.

Import PyFormat Labeling Dataset.

Variable W : world.

(** The program before its first input is within the range of a C [int]. *)
Lemma start_ok (disk : gmap string string) : world_ok W -> state_ok (fst (start W disk)).
Proof.
  intros HW. unfold start. apply enter_splits_ok; [exact HW|].
  unfold state_ok, boot, int32, dim_ok. cbn [ix iy current_boxes h w].
  split; [lia|]. split; [lia|]. split; [constructor|]. split; reflexivity.
Qed.


(** No crash on a readable dataset. *)







(** The closing message. *)

Lemma filter_farewell_load (s : state) (sp name : string) (rest td : list string) :
  List.filter is_farewell (snd (load_image W s sp name rest td)) = []
  /\ pc (fst (load_image W s sp name rest td)) <> Exited.
Proof.
  unfold load_image. destruct (imread W _); cbn [fst snd pc]; [|split; [reflexivity|discriminate]].
  split; [|discriminate]. cbn [List.filter is_farewell].
  rewrite (append_cons "[" EmptyString). reflexivity.
Qed.

Lemma filter_farewell_enter (td : list string) (s : state) :
  List.filter is_farewell (snd (enter_splits W td s))
  = match pc (fst (enter_splits W td s)) with Exited => farewell | _ => [] end.
Proof.
  revert s. induction td as [|sp td IH]; intros s; cbn [enter_splits]; [reflexivity|].
  destruct (listdir W (img_folder sp)) as [names|]; [|reflexivity].
  destruct (List.filter is_image_file names) as [|name rest].
  - specialize (IH (set_split s sp)).
    destruct (enter_splits W td (set_split s sp)) as [s' out]. exact IH.
  - pose proof (filter_farewell_load s sp name rest td) as [A B].
    destruct (load_image W s sp name rest td) as [s' out]. cbn [fst snd] in *.
    cbn [List.filter is_farewell]. rewrite A. destruct (pc s'); congruence.
Qed.

Lemma filter_farewell_next (s : state) :
  List.filter is_farewell (snd (next_image W s))
  = match pc (fst (next_image W s)) with Exited => farewell | _ => [] end.
Proof.
  unfold next_image. destruct (img_files s) as [|name rest]; [apply filter_farewell_enter|].
  pose proof (filter_farewell_load s (split s) name rest (splits_left s)) as [A B].
  rewrite A. destruct (pc _); congruence.
Qed.

Lemma filter_farewell_step (s : state) (i : input) :
  pc s <> Exited ->
  List.filter is_farewell (snd (step W s i))
  = match pc (fst (step W s i)) with Exited => farewell | _ => [] end.
Proof.
  intros Hne. unfold step.
  destruct (pc s) eqn:Hpc; destruct i as [event x y|code]; try congruence;
    try (cbn [fst snd List.filter]; rewrite Hpc; reflexivity);
    try (destruct event; cbn [draw_box]; try destruct (drawing s);
         cbn [fst snd pc List.filter is_farewell]; rewrite Hpc; reflexivity).
  - cbv zeta. destruct (Z.land code 255 =? ord "s"); [reflexivity|].
    destruct (Z.land code 255 =? ord "n"); [apply filter_farewell_next|].
    destruct (Z.land code 255 =? ord "r");
      [|cbn [fst snd List.filter is_farewell]; rewrite Hpc; reflexivity].
    unfold reset. destruct (imread W _); reflexivity.
  - cbv zeta. destruct (Z.land code 255 =? ord "y").
    + set (s1 := set_files s _).
      pose proof (filter_farewell_next s1) as N.
      destruct (next_image W s1) as [s' out]. cbn [fst snd] in *. exact N.
    + destruct (Z.land code 255 =? ord "n");
        [|cbn [fst snd List.filter]; rewrite Hpc; reflexivity].
      pose proof (filter_farewell_next s) as N.
      destruct (next_image W s) as [s' out]. cbn [fst snd] in *. exact N.
Qed.

Lemma run_stopped (s : state) (inputs : list input) :
  pc s = Exited \/ pc s = Crashed -> run W s inputs = (s, []).
Proof.
  intros H. induction inputs as [|i inputs IH]; [reflexivity|].
  cbn [run]. assert (E : step W s i = (s, [])).
  { unfold step. destruct H as [-> | ->]; reflexivity. }
  rewrite E, IH. reflexivity.
Qed.

Lemma filter_farewell_run (s : state) (inputs : list input) :
  pc s <> Exited ->
  List.filter is_farewell (snd (run W s inputs))
  = match pc (fst (run W s inputs)) with Exited => farewell | _ => [] end.
Proof.
  revert s. induction inputs as [|i inputs IH]; intros s Hne.
  - cbn [run fst snd List.filter]. destruct (pc s); congruence.
  - rewrite run_cons. cbn [fst snd]. rewrite List.filter_app, filter_farewell_step by exact Hne.
    destruct (pc (fst (step W s i))) eqn:E.
    + rewrite IH by congruence. reflexivity.
    + rewrite IH by congruence. reflexivity.
    + rewrite run_stopped by (left; exact E). cbn [fst snd List.filter]. rewrite E.
      apply app_nil_r.
    + rewrite IH by congruence. reflexivity.
Qed.

(** Directories before files. *)

Lemma writes_after_makedirs_app (made : list string) (a b : list effect) :
  writes_after_makedirs made (a ++ b)
  <-> writes_after_makedirs made a
      /\ writes_after_makedirs (rev (made_dirs a) ++ made) b.
Proof.
  revert made. induction a as [|e a IH]; intros made; cbn [app writes_after_makedirs].
  - cbn [made_dirs flat_map rev app]. tauto.
  - destruct e; cbn [made_dirs flat_map app]; fold (made_dirs a); try apply IH.
    + rewrite IH. cbn [rev]. rewrite <- app_assoc. reflexivity.
    + rewrite IH. tauto.
Qed.

Lemma writes_after_makedirs_none (made : list string) (out : list effect) :
  file_writes out = [] -> writes_after_makedirs made out.
Proof.
  revert made. induction out as [|e out IH]; intros made H; [exact I|].
  destruct e; cbn [writes_after_makedirs]; cbn [file_writes flat_map app] in H;
    try (apply IH; exact H). discriminate.
Qed.

Lemma made_dirs_load (s : state) (sp name : string) (rest td : list string) :
  made_dirs (snd (load_image W s sp name rest td)) = []
  /\ (running (fst (load_image W s sp name rest td)) ->
      split (fst (load_image W s sp name rest td)) = sp).
Proof. unfold load_image. destruct (imread W _); split; reflexivity. Qed.

Lemma made_dirs_enter (td : list string) (s : state) :
  running (fst (enter_splits W td s)) ->
  In (labels_folder (split (fst (enter_splits W td s))))
     (made_dirs (snd (enter_splits W td s))).
Proof.
  revert s. induction td as [|sp td IH]; intros s; cbn [enter_splits].
  - intros [H|H]; discriminate.
  - destruct (listdir W (img_folder sp)) as [names|]; [|intros [H|H]; discriminate].
    destruct (List.filter is_image_file names) as [|name rest].
    + specialize (IH (set_split s sp)).
      destruct (enter_splits W td (set_split s sp)) as [s' out]. cbn [fst snd] in *.
      intros R. right. apply IH, R.
    + pose proof (made_dirs_load s sp name rest td) as [A B].
      destruct (load_image W s sp name rest td) as [s' out]. cbn [fst snd] in *.
      intros R. left. rewrite (B R). reflexivity.
Qed.

Lemma made_dirs_next (s : state) (made : list string) :
  In (labels_folder (split s)) made ->
  running (fst (next_image W s)) ->
  In (labels_folder (split (fst (next_image W s))))
     (rev (made_dirs (snd (next_image W s))) ++ made).
Proof.
  intros Hm. unfold next_image. destruct (img_files s) as [|name rest].
  - intros R. apply in_or_app. left. apply in_rev. rewrite rev_involutive.
    apply made_dirs_enter, R.
  - destruct (made_dirs_load s (split s) name rest (splits_left s)) as [A B].
    intros R. rewrite A, (B R). exact Hm.
Qed.

(** The label file of a listed image lies directly in the label directory
    of its split. *)
Lemma label_path_base (sp name : string) :
  In sp splits -> lacks "/" name = true ->
  exists base, lacks "/" base = true
               /\ label_path sp name = labels_folder sp +:+ "/" +:+ base.
Proof.
  intros Hsp Hn. exists (fst (Posixpath.splitext name) +:+ ".txt").
  assert (Hl : lacks "/" (fst (Posixpath.splitext name)) = true).
  { pose proof (splitext_join name) as J. rewrite <- J, lacks_app in Hn.
    apply andb_true_iff in Hn as [Hn _]. exact Hn. }
  assert (Hb : lacks "/" (fst (Posixpath.splitext name) +:+ ".txt") = true).
  { rewrite lacks_app, Hl. reflexivity. }
  split; [exact Hb|].
  unfold label_path. cbn [fst Posixpath.join fold_left]. unfold Posixpath.join2.
  destruct (labels_folder_splits sp Hsp) as (_ & L2 & L3). rewrite L2, L3. cbn [orb].
  assert (Hs : Posixpath.startswith "/" (fst (Posixpath.splitext name) +:+ ".txt") = false).
  { destruct (fst (Posixpath.splitext name) +:+ ".txt") as [|c t]; [reflexivity|].
    cbn [lacks] in Hb. apply andb_true_iff in Hb as [Hb _]. apply negb_true_iff in Hb.
    unfold Posixpath.startswith. cbn [String.prefix].
    destruct (ascii_dec "/" c) as [<-|]; [discriminate Hb|reflexivity]. }
  rewrite Hs. reflexivity.
Qed.

Lemma step_makedirs (s : state) (i : input) (made : list string) :
  (running s ->
   In (labels_folder (split s)) made /\ In (split s) splits
   /\ lacks "/" (img_name s) = true) ->
  writes_after_makedirs made (snd (step W s i))
  /\ (running (fst (step W s i)) ->
      In (labels_folder (split (fst (step W s i))))
         (rev (made_dirs (snd (step W s i))) ++ made)).
Proof.
  intros Hm. unfold step.
  destruct (pc s) eqn:Hpc; destruct i as [event x y|code];
    try (split; [exact I|]; intros [R|R]; cbn [fst] in R; congruence);
    try (assert (Hin : In (labels_folder (split s)) made)
           by (apply Hm; unfold running; rewrite Hpc; auto);
         destruct event; cbn [draw_box]; try destruct (drawing s);
         (split; [exact I | intros _; exact Hin])).
  - assert (Hin : In (labels_folder (split s)) made) by (apply Hm; left; exact Hpc).
    cbv zeta. destruct (Z.land code 255 =? ord "s"); [split; [exact I|intros _; exact Hin]|].
    destruct (Z.land code 255 =? ord "n").
    + split; [apply writes_after_makedirs_none, next_image_frame|].
      apply made_dirs_next, Hin.
    + destruct (Z.land code 255 =? ord "r"); [|split; [exact I|intros _; exact Hin]].
      unfold reset. destruct (imread W _); split; first [exact I | intros _; exact Hin].
  - destruct (Hm (or_intror Hpc)) as (Hin & Hsp & Hname).
    cbv zeta. destruct (Z.land code 255 =? ord "y").
    + set (s1 := set_files s _).
      pose proof (made_dirs_next s1 made Hin) as N.
      pose proof (next_image_frame W s1) as [_ F].
      destruct (next_image W s1) as [s' out]. cbn [fst snd] in *.
      split; [|exact N]. cbn [writes_after_makedirs].
      split; [|apply writes_after_makedirs_none, F].
      destruct (label_path_base (split s) (img_name s) Hsp Hname) as (base & Hb & Hp).
      exists (split s), base. exact (conj Hsp (conj Hin (conj Hb Hp))).
    + destruct (Z.land code 255 =? ord "n"); [|split; [exact I|intros _; exact Hin]].
      pose proof (made_dirs_next s made Hin) as N.
      pose proof (next_image_frame W s) as [_ F].
      destruct (next_image W s) as [s' out]. cbn [fst snd] in *.
      split; [|exact N]. cbn [writes_after_makedirs]. apply writes_after_makedirs_none, F.
Qed.

(** On a listed image the split is one of the three and the name has no
    slash. *)
Lemma at_image_listed (s : state) (k : nat) :
  plain_names W -> at_image W s k -> running s ->
  In (split s) splits /\ lacks "/" (img_name s) = true.
Proof.
  intros HP [H _] R. destruct (H R) as (Hn & _).
  apply nth_error_In, playlist_In in Hn as (Hsp & names & Hl & Hin & _).
  split; [exact Hsp|].
  pose proof (HP _ _ Hl) as Hall. rewrite List.Forall_forall in Hall. apply Hall, Hin.
Qed.

Lemma run_makedirs (s : state) (inputs : list input) (made : list string) (k : nat) :
  plain_names W -> at_image W s k ->
  (running s -> In (labels_folder (split s)) made) ->
  writes_after_makedirs made (snd (run W s inputs)).
Proof.
  intros HP. revert s made k.
  induction inputs as [|i inputs IH]; intros s made k Hat Hm; [exact I|].
  rewrite run_cons. cbn [snd]. apply writes_after_makedirs_app.
  assert (Hm' : running s ->
                In (labels_folder (split s)) made /\ In (split s) splits
                /\ lacks "/" (img_name s) = true).
  { intros R. destruct (at_image_listed s k HP Hat R) as [A B].
    exact (conj (Hm R) (conj A B)). }
  destruct (step_makedirs s i made Hm') as [A B]. split; [exact A|].
  apply (IH _ _ _ (step_at W s i k Hat) B).
Qed.

End Whole.

(** *** The label directories *)

Section WholeFacts.

Import Binary64 PyFormat Labeling Dataset.

Variable W : world.

Lemma made_dirs_app (a b : list effect) : made_dirs (a ++ b) = made_dirs a ++ made_dirs b.
Proof. unfold made_dirs. apply flat_map_app. Qed.

Lemma enter_splits_dirs (td : list string) (s : state) (acc : list string) :
  acc ++ map labels_folder td = map labels_folder splits ->
  dirs_made (acc ++ made_dirs (snd (enter_splits W td s))) (fst (enter_splits W td s)).
Proof.
  revert s acc. induction td as [|sp td IH]; intros s acc H; cbn [enter_splits].
  - unfold dirs_made. cbn [fst snd set_pc pc made_dirs flat_map app].
    exact H.
  - destruct (listdir W (img_folder sp)) as [names|]; [|exact I].
    assert (H' : (acc ++ [labels_folder sp]) ++ map labels_folder td
                 = map labels_folder splits).
    { rewrite <- app_assoc. exact H. }
    destruct (List.filter is_image_file names) as [|name rest].
    + specialize (IH (set_split s sp) _ H').
      destruct (enter_splits W td (set_split s sp)) as [s' out]. cbn [fst snd] in *.
      change (made_dirs (MakeDirs (labels_folder sp) :: out))
        with ([labels_folder sp] ++ made_dirs out).
      rewrite app_assoc. exact IH.
    + unfold load_image. destruct (imread W _); [|exact I].
      unfold dirs_made. cbn [fst snd pc splits_left made_dirs flat_map app].
      exact H'.
Qed.

Lemma next_image_dirs (s s0 : state) (acc : list string) :
  running s0 -> dirs_made acc s0 ->
  img_files s = img_files s0 -> splits_left s = splits_left s0 ->
  dirs_made (acc ++ made_dirs (snd (next_image W s))) (fst (next_image W s)).
Proof.
  intros R H E1 E2.
  assert (H' : acc ++ map labels_folder (splits_left s) = map labels_folder splits).
  { rewrite E2. unfold dirs_made in H. destruct R as [R|R]; rewrite R in H; exact H. }
  unfold next_image. destruct (img_files s) as [|name rest].
  - apply enter_splits_dirs, H'.
  - unfold load_image. destruct (imread W _); [|exact I].
    unfold dirs_made. cbn [fst snd pc splits_left made_dirs flat_map app].
    rewrite app_nil_r. exact H'.
Qed.

Lemma step_dirs (s : state) (i : input) (acc : list string) :
  dirs_made acc s ->
  dirs_made (acc ++ made_dirs (snd (step W s i))) (fst (step W s i)).
Proof.
  intros H. unfold step.
  destruct (pc s) eqn:Hpc; destruct i as [event x y|code];
    try (cbn [fst snd made_dirs flat_map]; rewrite app_nil_r; exact H);
    try (destruct event; cbn [draw_box]; try destruct (drawing s);
         cbn [fst snd made_dirs flat_map app]; rewrite app_nil_r;
         unfold dirs_made in *; cbn [pc splits_left]; rewrite Hpc in *; exact H).
  - cbv zeta. destruct (Z.land code 255 =? ord "s").
    + cbn [fst snd made_dirs flat_map app]. rewrite app_nil_r.
      unfold dirs_made in *. cbn [set_pc pc splits_left]. rewrite Hpc in H. exact H.
    + destruct (Z.land code 255 =? ord "n");
        [apply (next_image_dirs s s); [left; exact Hpc|exact H|reflexivity|reflexivity]|].
      destruct (Z.land code 255 =? ord "r").
      * unfold reset. destruct (imread W _); [|exact I].
        cbn [fst snd made_dirs flat_map app]. rewrite app_nil_r.
        unfold dirs_made in *. cbn [pc splits_left]. rewrite Hpc in H. exact H.
      * cbn [fst snd made_dirs flat_map app]. rewrite app_nil_r. exact H.
  - cbv zeta. destruct (Z.land code 255 =? ord "y").
    + set (s1 := set_files s _).
      pose proof (next_image_dirs s1 s acc (or_intror Hpc) H eq_refl eq_refl) as N.
      destruct (next_image W s1) as [s' out]. exact N.
    + destruct (Z.land code 255 =? ord "n");
        [|cbn [fst snd made_dirs flat_map]; rewrite app_nil_r; exact H].
      pose proof (next_image_dirs s s acc (or_intror Hpc) H eq_refl eq_refl) as N.
      destruct (next_image W s) as [s' out]. exact N.
Qed.

Lemma run_dirs (s : state) (inputs : list input) (acc : list string) :
  dirs_made acc s ->
  dirs_made (acc ++ made_dirs (snd (run W s inputs))) (fst (run W s inputs)).
Proof.
  revert s acc. induction inputs as [|i inputs IH]; intros s acc H.
  - cbn [run fst snd made_dirs flat_map]. rewrite app_nil_r. exact H.
  - rewrite run_cons. cbn [fst snd]. rewrite made_dirs_app, app_assoc.
    apply IH, step_dirs, H.
Qed.

End WholeFacts.

(** ** Part V: further properties of the code *)

(** *** The session *)

Section Further.

Import Binary64 PyFormat Posixpath Labeling Dataset.

(** X1.  From the start of the program, the tool visits the image files in
    the order of the splits [train], [val], [test] and, within a split, in
    the order of the directory listing, files without an image extension
    left out, and never goes back: after any inputs, unless it has
    crashed, it is on the image whose number in that order is the number of
    inputs that made it leave an image ([n] in the main loop, [y] or [n]
    in the Preview), or it has ended and has left every image once. *)
Theorem X1_images_visited_in_listing_order (W : world) (disk : gmap string string)
    (inputs : list input) :
  let s0 := fst (start W disk) in
  let s := fst (run W s0 inputs) in
  pc s = Crashed
  \/ (pc s = Exited /\ departures W s0 inputs = length (playlist W splits))
  \/ nth_error (playlist W splits) (departures W s0 inputs) = Some (split s, img_name s).
Proof.
  intros s0 s. pose proof (run_at W s0 inputs 0 (start_at W disk)) as [H E]. fold s in H, E.
  rewrite Nat.add_0_r in H, E. unfold running in H.
  destruct (pc s); [right; right; apply H; left; reflexivity
                   |right; right; apply H; right; reflexivity
                   |right; left; split; [reflexivity|apply E; reflexivity]
                   |left; reflexivity].
Qed.

(** X2.  From the start of the program, whenever the tool waits for an
    input, the image in memory is the current image file, with its
    dimensions in [h] and [w], and the rectangles painted on it are the
    committed boxes, each in green with thickness 2, in the order they were
    committed: the live red rectangle and the red Preview rectangles never
    reach it. *)
Theorem X2_window_shows_committed_boxes (W : world) (disk : gmap string string)
    (inputs : list input) :
  let s := fst (run W (fst (start W disk)) inputs) in
  pc s = Exited \/ pc s = Crashed
  \/ (source (img s) = img_path (split s) (img_name s)
      /\ shape (img s) = (h s, w s)
      /\ painted (img s) = map green_rect (current_boxes s)).
Proof.
  intros s. pose proof (run_at W (fst (start W disk)) inputs 0 (start_at W disk)) as [H _].
  fold s in H. unfold running, shows_boxes in H.
  destruct (pc s).
  - right; right. destruct H as (_ & _ & A & B & C & _); [left; reflexivity|]. auto.
  - right; right. destruct H as (_ & _ & A & B & C & _); [right; reflexivity|]. auto.
  - left; reflexivity.
  - right; left; reflexivity.
Qed.

(** X3.  From the start of the program, every file a session writes is the
    label file of a file that one of the three image directories lists and
    whose name ends, case ignored, in [.png], [.jpg] or [.jpeg]. *)
Theorem X3_writes_only_labels_of_listed_images (W : world) (disk : gmap string string)
    (inputs : list input) :
  Forall (fun pt => exists sp name names,
            In sp splits /\ listdir W (img_folder sp) = Some names
            /\ In name names /\ is_image_file name = true
            /\ fst pt = label_path sp name)
         (file_writes (snd (run W (fst (start W disk)) inputs))).
Proof.
  destruct (run_writes W (fst (start W disk)) inputs) as [-> _].
  destruct (confirmations_at W _ inputs 0 (start_at W disk)) as (ks & _ & _ & Hf).
  induction Hf as [|j c ks cs Hj _ IH]; cbn [map]; constructor; [|exact IH].
  apply nth_error_In, playlist_In in Hj as (Hsp & names & Hl & Hn & Hi).
  exists (split c), (img_name c), names. repeat split; assumption.
Qed.


(** X5.  One input changes the box list in one of three ways only: it
    leaves it as it is, appends one box at its end, or empties it.  No
    input removes or alters a single committed box. *)
Theorem X5_boxes_grow_or_vanish (W : world) (s : state) (i : input) :
  let s' := fst (step W s i) in
  current_boxes s' = current_boxes s
  \/ (exists b, current_boxes s' = current_boxes s ++ [b])
  \/ current_boxes s' = [].
Proof.
  cbv zeta. unfold step.
  destruct (pc s); destruct i as [event x y|code]; try (left; reflexivity);
    try (destruct event; cbn [draw_box]; try destruct (drawing s);
         solve [left; reflexivity | right; left; eexists; reflexivity]).
  - cbv zeta. destruct (Z.land code 255 =? ord "s"); [left; reflexivity|].
    destruct (Z.land code 255 =? ord "n").
    + destruct (next_image_boxes_cases W s) as [H|H]; [left|right; right]; exact H.
    + destruct (Z.land code 255 =? ord "r"); [|left; reflexivity].
      right; right. unfold reset. destruct (imread W _); reflexivity.
  - cbv zeta. destruct (Z.land code 255 =? ord "y").
    + set (s1 := set_files s _).
      pose proof (next_image_boxes_cases W s1) as H.
      destruct (next_image W s1) as [s' out]. cbn [fst] in *.
      destruct H as [H|H]; [left|right; right]; exact H.
    + destruct (Z.land code 255 =? ord "n"); [|left; reflexivity].
      pose proof (next_image_boxes_cases W s) as H.
      destruct (next_image W s) as [s' out]. cbn [fst] in *.
      destruct H as [H|H]; [left|right; right]; exact H.
Qed.

(** X6.  The press point [(ix, iy)] is assigned by a button press only: it
    survives a reset, a skip, a save and the change of image.  So a button
    release that follows inputs without a press commits a box that starts
    at the press point from before those inputs, be it on another image. *)
Theorem X6_release_uses_last_press (W : world) (s : state) (inputs : list input)
    (x y : Z) :
  Forall no_press inputs ->
  let s1 := fst (run W s inputs) in
  running s1 ->
  current_boxes (fst (step W s1 (Mouse EVENT_LBUTTONUP x y)))
  = current_boxes s1 ++ [(ix s, iy s, x, y)].
Proof.
  intros Hi s1 R. rewrite step_mouse by exact R. cbn [draw_box fst current_boxes].
  destruct (run_pointer W s inputs Hi) as [A B]. fold s1 in A, B. rewrite A, B.
  reflexivity.
Qed.

(** X7.  Before the first button press of a session the press point is
    [(-1, -1)]: a button release received then commits a box that starts
    at [(-1, -1)]. *)
Theorem X7_release_before_any_press (W : world) (disk : gmap string string)
    (inputs : list input) (x y : Z) :
  Forall no_press inputs ->
  let s1 := fst (run W (fst (start W disk)) inputs) in
  running s1 ->
  current_boxes (fst (step W s1 (Mouse EVENT_LBUTTONUP x y)))
  = current_boxes s1 ++ [(-1, -1, x, y)].
Proof.
  intros Hi s1 R. rewrite step_mouse by exact R. cbn [draw_box fst current_boxes].
  destruct (run_pointer W (fst (start W disk)) inputs Hi) as [A B]. fold s1 in A, B.
  destruct (enter_splits_pointer W splits (boot disk)) as (C & D & _).
  unfold start in A, B. rewrite A, B, C, D. reflexivity.
Qed.

(** X8.  Boxes dragged one after the other are committed in that order,
    after the boxes already there, and painted in that order; dragging
    writes no file and leaves the tool where it was. *)
Theorem X8_drags_commit_in_order (W : world) (s : state) (boxes : list box) :
  running s ->
  let r := run W s (drags boxes) in
  current_boxes (fst r) = current_boxes s ++ boxes
  /\ painted (img (fst r)) = painted (img s) ++ map green_rect boxes
  /\ pc (fst r) = pc s /\ same_image s (fst r) /\ file_writes (snd r) = [].
Proof. apply run_drags. Qed.

(** X9.  Boxes dragged on an image with no box yet, then [s] and [y]: one
    file is written, the label file of the image, and its lines are the
    records of the boxes in the order they were drawn. *)
Theorem X9_saved_lines_follow_drawing_order (W : world) (s : state) (boxes : list box) :
  pc s = MainLoop -> current_boxes s = [] ->
  let r := run W s (drags boxes ++ [Scenario.press "s"; Scenario.press "y"]) in
  let text := label_text boxes (w s) (h s) in
  file_writes (snd r) = [(label_path (split s) (img_name s), text)]
  /\ files (fst r) !! label_path (split s) (img_name s) = Some text
  /\ splitlines text = map (fun b => label_record b (w s) (h s)) boxes.
Proof.
  intros Hpc Hb r text. unfold r.
  change [Scenario.press "s"; Scenario.press "y"]
    with ([Scenario.press "s"] ++ [Scenario.press "y"]).
  rewrite !run_app. cbn [fst snd]. rewrite !file_writes_app.
  destruct (run_drags W s boxes (or_introl Hpc)) as (B1 & _ & P1 & S1 & W1).
  set (s1 := fst (run W s (drags boxes))) in *. rewrite Hpc in P1. rewrite Hb in B1.
  destruct (run_preview W s1 P1) as (B2 & P2 & S2 & W2).
  set (s2 := fst (run W s1 [Scenario.press "s"])) in *.
  rewrite (run_one W s2). cbn [fst snd].
  destruct (step_writes W s2 (Scenario.press "y")) as [Hw Hf].
  assert (Hc : confirms s2 (Scenario.press "y") = true).
  { unfold confirms, Scenario.press. rewrite P2. reflexivity. }
  rewrite Hc in Hw, Hf. rewrite W1, W2, Hw, Hf. unfold save_of. cbn [fst snd app].
  destruct S1 as (A1 & A2 & A3 & A4 & A5). destruct S2 as (C1 & C2 & C3 & C4 & C5).
  rewrite B2, B1, C1, C2, C3, C4, A1, A2, A3, A4. cbn [app]. fold text.
  split; [reflexivity|]. split; [apply lookup_insert_eq|].
  apply splitlines_label_text.
Qed.

(** X10.  The mouse callback stays active while the Preview is open: a box
    dragged then is committed, and [y] saves it with the others, though the
    Preview image, drawn before, does not show it. *)
Theorem X10_box_drawn_during_preview_is_saved (W : world) (s : state) (x1 y1 x2 y2 : Z) :
  pc s = MainLoop ->
  let r := run W s ([Scenario.press "s"] ++ Scenario.drag x1 y1 x2 y2
                    ++ [Scenario.press "y"]) in
  hd_error (snd r) = Some (ImShow "Preview" (rectangles (img s) (current_boxes s) red))
  /\ file_writes (snd r)
     = [(label_path (split s) (img_name s),
         label_text (current_boxes s ++ [(x1, y1, x2, y2)]) (w s) (h s))].
Proof.
  intros Hpc r. unfold r. rewrite !run_app. cbn [fst snd]. rewrite !file_writes_app.
  destruct (run_preview W s Hpc) as (B1 & P1 & S1 & W1).
  assert (O1 : hd_error (snd (run W s [Scenario.press "s"]))
               = Some (ImShow "Preview" (rectangles (img s) (current_boxes s) red))).
  { rewrite run_one. unfold Scenario.press, step. rewrite Hpc. cbv zeta.
    change (Z.land (ord "s") 255 =? ord "s") with true. reflexivity. }
  set (s1 := fst (run W s [Scenario.press "s"])) in *.
  destruct (run_drag W s1 x1 y1 x2 y2 (or_intror P1)) as (B2 & P2 & S2 & W2).
  set (s2 := fst (run W s1 (Scenario.drag x1 y1 x2 y2))) in *. rewrite P1 in P2.
  rewrite (run_one W s2). cbn [fst snd].
  destruct (step_writes W s2 (Scenario.press "y")) as [Hw _].
  assert (Hc : confirms s2 (Scenario.press "y") = true).
  { unfold confirms, Scenario.press. rewrite P2. reflexivity. }
  rewrite Hc in Hw. rewrite W1, W2, Hw. unfold save_of. cbn [app].
  destruct S1 as (A1 & A2 & A3 & A4 & A5). destruct S2 as (C1 & C2 & C3 & C4 & C5).
  rewrite B2, B1, C1, C2, C3, C4, A1, A2, A3, A4.
  split; [|reflexivity].
  destruct (snd (run W s [Scenario.press "s"])) as [|e out]; [discriminate O1|exact O1].
Qed.

(** X11.  Only the low eight bits of the value [cv2.waitKey] returns are
    looked at: two key codes that differ by a multiple of 256 have the same
    effect in every state. *)
Theorem X11_key_code_is_masked (W : world) (s : state) (code k : Z) :
  step W s (WaitKey (code + 256 * k)) = step W s (WaitKey code).
Proof. unfold step. rewrite land_255_periodic. reflexivity. Qed.

(** X12.  A key the loop does not name changes nothing: in the main loop
    any key but [s], [n] and [r], and while the Preview is open any key but
    [y] and [n] ([s] and [r] among them), leave the state as it is, and no
    file is written and no window closed.  The value [-1] of a call that
    timed out is such a key. *)
Theorem X12_other_keys_change_nothing (W : world) (s : state) (code : Z) :
  let key := Z.land code 255 in
  (pc s = MainLoop /\ key <> ord "s" /\ key <> ord "n" /\ key <> ord "r")
  \/ (pc s = PreviewLoop /\ key <> ord "y" /\ key <> ord "n") ->
  let r := step W s (WaitKey code) in
  fst r = s /\ file_writes (snd r) = []
  /\ Forall (fun e => match e with ImShow name m => name = "image" /\ m = img s
                                  | _ => False end) (snd r).
Proof.
  intros key H r. unfold r, step.
  destruct H as [(Hpc & K1 & K2 & K3)|(Hpc & K1 & K2)]; rewrite Hpc; cbv zeta; fold key.
  - apply Z.eqb_neq in K1, K2, K3. rewrite K1, K2, K3.
    repeat split. constructor; [split; reflexivity|constructor].
  - apply Z.eqb_neq in K1, K2. rewrite K1, K2. repeat split. constructor.
Qed.

(** X13.  After a session, a path holds the last text the session wrote to
    it, and what it held before when the session wrote nothing to it: the
    tool deletes no file and touches no file but those it writes. *)
Theorem X13_disk_holds_last_write (W : world) (s : state) (inputs : list input)
    (path : string) :
  let r := run W s inputs in
  files (fst r) !! path
  = match last_write path (file_writes (snd r)) with
    | Some text => Some text
    | None => files s !! path
    end.
Proof.
  cbv zeta. destruct (run_writes W s inputs) as [-> ->]. apply write_all_lookup.
Qed.

(** X14.  Confirming and cancelling in the Preview take the tool to the
    same place: the state after [y] is the state after [n] with the label
    file of the image that was left written in. *)
Theorem X14_confirm_is_cancel_plus_write (W : world) (s : state) :
  pc s = PreviewLoop ->
  let path := label_path (split s) (img_name s) in
  let text := label_text (current_boxes s) (w s) (h s) in
  fst (step W s (Scenario.press "y"))
  = set_files (fst (step W s (Scenario.press "n"))) (<[path := text]> (files s)).
Proof.
  intros Hpc path text. unfold step, Scenario.press. rewrite Hpc. cbv zeta.
  change (Z.land (ord "y") 255 =? ord "y") with true.
  change (Z.land (ord "n") 255 =? ord "y") with false.
  change (Z.land (ord "n") 255 =? ord "n") with true. cbv iota.
  fold path text. rewrite next_image_set_files.
  destruct (next_image W s) as [s' out]. reflexivity.
Qed.

End Further.

(** *** Paths and fields *)

Section FurtherFields.

Import Binary64 PyFormat Posixpath Labeling Dataset.

(** X15.  The label file of an image takes the name of the image with its
    last extension replaced by [.txt], in the [labels] directory of the
    split: for a plain file name [stem.ext] (no slash, one extension after
    a stem that is not made of dots only) it is
    [<dataset>/<split>/labels/<stem>.txt].  The extension plays no part:
    two images of a split that differ in their extension only share one
    label file. *)
Theorem X15_label_file_replaces_extension (sp stem ext : string) :
  In sp splits ->
  lacks "/" stem = true -> all_dots stem = false ->
  lacks "/" ext = true -> lacks "." ext = true ->
  fst (splitext (stem +:+ "." +:+ ext)) = stem
  /\ label_path sp (stem +:+ "." +:+ ext)
     = dataset_folder +:+ sp +:+ "/labels/" +:+ stem +:+ ".txt".
Proof.
  intros Hsp S1 S2 E1 E2. rewrite (splitext_plain stem ext S1 S2 E1 E2). cbn [fst].
  split; [reflexivity|].
  unfold label_path. rewrite (splitext_plain stem ext S1 S2 E1 E2).
  cbn [fst Posixpath.join fold_left]. unfold join2.
  destruct (labels_folder_splits sp Hsp) as (L1 & L2 & L3). rewrite L2, L3. cbn [orb].
  assert (Hs : startswith "/" (stem +:+ ".txt") = false).
  { destruct stem as [|c stem]; [discriminate S2|]. rewrite append_cons.
    cbn [lacks] in S1. apply andb_true_iff in S1 as [S1 _]. apply negb_true_iff in S1.
    unfold startswith. cbn [String.prefix].
    destruct (ascii_dec "/" c) as [<-|]; [discriminate S1|reflexivity]. }
  rewrite Hs, L1. rewrite !append_assoc.
  rewrite !(append_cons "/" "labels"). reflexivity.
Qed.

(** X16.  The files the tool takes for images are exactly those whose
    name ends in [.png], [.jpg] or [.jpeg], upper and lower case letters
    being the same; nothing else of the name or of the content is looked
    at. *)
Theorem X16_image_files_by_extension (f : string) :
  is_image_file f = true
  <-> exists stem ext, f = stem +:+ ext
        /\ (lower ext = ".png" \/ lower ext = ".jpg" \/ lower ext = ".jpeg").
Proof.
  unfold is_image_file. rewrite !orb_true_iff, !endswith_spec. split.
  - intros [[[pre H]|[pre H]]|[pre H]];
      apply lower_append_inv in H as (x & y & -> & _ & Hy); exists x, y; auto.
  - intros (stem & ext & -> & H). rewrite lower_append.
    destruct H as [->|[->| ->]]; [left; left|left; right|right]; eexists; reflexivity.
Qed.

(** X17.  For every name without a slash, as a directory listing gives
    them, the label file lies directly in the [labels] directory of the
    split and its name ends in [.txt]: a save never lands in an image
    directory or outside the dataset. *)
Theorem X17_label_file_is_in_labels_folder (sp name : string) :
  In sp splits -> lacks "/" name = true ->
  exists base,
    label_path sp name = dataset_folder +:+ sp +:+ "/labels/" +:+ base
    /\ lacks "/" base = true /\ endswith ".txt" base = true.
Proof.
  intros Hsp Hn. exists (fst (splitext name) +:+ ".txt").
  assert (Hl : lacks "/" (fst (splitext name)) = true).
  { pose proof (splitext_join name) as J. rewrite <- J, lacks_app in Hn.
    apply andb_true_iff in Hn as [Hn _]. exact Hn. }
  assert (Hb : lacks "/" (fst (splitext name) +:+ ".txt") = true).
  { rewrite lacks_app, Hl. reflexivity. }
  split; [|split; [exact Hb|apply endswith_spec; eexists; reflexivity]].
  unfold label_path. cbn [fst Posixpath.join fold_left]. unfold join2.
  destruct (labels_folder_splits sp Hsp) as (L1 & L2 & L3). rewrite L2, L3. cbn [orb].
  assert (Hs : startswith "/" (fst (splitext name) +:+ ".txt") = false).
  { destruct (fst (splitext name) +:+ ".txt") as [|c t]; [reflexivity|].
    cbn [lacks] in Hb. apply andb_true_iff in Hb as [Hb _]. apply negb_true_iff in Hb.
    unfold startswith. cbn [String.prefix].
    destruct (ascii_dec "/" c) as [<-|]; [discriminate Hb|reflexivity]. }
  rewrite Hs, L1. rewrite !append_assoc.
  rewrite !(append_cons "/" "labels"). reflexivity.
Qed.

(** X18.  The label of a box does not depend on the direction of the
    drag: the two corners may be exchanged, in [x], in [y] or in both, and
    the four fields and the line written are the same. *)
Theorem X18_label_ignores_drag_direction (x1 y1 x2 y2 : Z) (w h : positive) :
  normalize (x2, y2, x1, y1) w h = normalize (x1, y1, x2, y2) w h
  /\ normalize (x2, y1, x1, y2) w h = normalize (x1, y1, x2, y2) w h
  /\ normalize (x1, y2, x2, y1) w h = normalize (x1, y1, x2, y2) w h
  /\ label_record (x2, y2, x1, y1) w h = label_record (x1, y1, x2, y2) w h.
Proof.
  assert (A : forall a b, Z.abs (a - b) = Z.abs (b - a)) by (intros; lia).
  unfold label_record. cbn [normalize].
  rewrite (Z.add_comm x2 x1), (Z.add_comm y2 y1), (A x1 x2), (A y1 y2).
  repeat split.
Qed.

(** X19.  The fields are not clamped.  For coordinates and dimensions in
    the range of a C [int], a centre field lies in [[0, 1]] exactly when
    the sum of the two coordinates lies in [[0, 2w]] (resp. [[0, 2h]]); a
    width or height field is never negative, and it is at most 1 exactly
    when the distance between the two coordinates is at most [w] (resp.
    [h]).  The rounding of the divisions never moves a field across 0
    or 1. *)
Theorem X19_fields_in_unit_iff_box_centred (x1 y1 x2 y2 : Z) (w h : positive) :
  box_ok (x1, y1, x2, y2) -> dim_ok w -> dim_ok h ->
  let l := normalize (x1, y1, x2, y2) w h in
  ((0 <= SF2Q (x_center l) <= 1)%Q <-> 0 <= x1 + x2 <= 2 * Z.pos w)
  /\ ((0 <= SF2Q (y_center l) <= 1)%Q <-> 0 <= y1 + y2 <= 2 * Z.pos h)
  /\ (0 <= SF2Q (width l))%Q /\ ((SF2Q (width l) <= 1)%Q <-> Z.abs (x2 - x1) <= Z.pos w)
  /\ (0 <= SF2Q (height l))%Q /\ ((SF2Q (height l) <= 1)%Q <-> Z.abs (y2 - y1) <= Z.pos h).
Proof.
  intros (X1 & Y1 & X2 & Y2) Hw Hh l. unfold int32 in *. unfold dim_ok in *.
  unfold l. cbn [normalize x_center y_center width height].
  split; [apply center_unit_iff; lia|]. split; [apply center_unit_iff; lia|].
  destruct (extent_unit_iff (Z.abs (x2 - x1)) (Z.pos w) ltac:(lia) ltac:(lia)) as [A B].
  destruct (extent_unit_iff (Z.abs (y2 - y1)) (Z.pos h) ltac:(lia) ltac:(lia)) as [C D].
  exact (conj A (conj B (conj C D))).
Qed.

(** X20.  A click without a drag commits a box of no width and no
    height, and the box is saved like any other: after the click, [s] and
    [y] write the label file of the image with one line per box, the last
    one for the click, and that line ends with the two fields
    [0.000000 0.000000]. *)
Theorem X20_click_saves_empty_box (W : world) (s : state) (x y : Z) :
  pc s = MainLoop -> dim_ok (w s) -> dim_ok (h s) ->
  let r := run W s (Scenario.click x y ++ [Scenario.press "s"; Scenario.press "y"]) in
  let l := normalize (x, y, x, y) (w s) (h s) in
  current_boxes (fst (run W s (Scenario.click x y))) = current_boxes s ++ [(x, y, x, y)]
  /\ (exists text,
        file_writes (snd r) = [(label_path (split s) (img_name s), text)]
        /\ splitlines text
           = map (fun b => label_record b (w s) (h s)) (current_boxes s)
             ++ [label_record (x, y, x, y) (w s) (h s)])
  /\ width l = S754_zero false /\ height l = S754_zero false
  /\ split_spaces (label_record (x, y, x, y) (w s) (h s))
     = ["0"; format_6f (x_center l); format_6f (y_center l); "0.000000"; "0.000000"].
Proof.
  intros Hpc Hw Hh r l. unfold dim_ok in *.
  change (Scenario.click x y) with (Scenario.drag x y x y) in *.
  destruct (run_drag W s x y x y (or_introl Hpc)) as (B1 & P1 & S1 & W1).
  split; [exact B1|]. split.
  - exists (label_text (current_boxes s ++ [(x, y, x, y)]) (w s) (h s)). split.
    + unfold r.
      change [Scenario.press "s"; Scenario.press "y"]
        with ([Scenario.press "s"] ++ [Scenario.press "y"]).
      rewrite !run_app. cbn [fst snd]. rewrite !file_writes_app.
      set (s1 := fst (run W s (Scenario.drag x y x y))) in *. rewrite Hpc in P1.
      destruct (run_preview W s1 P1) as (B2 & P2 & S2 & W2).
      set (s2 := fst (run W s1 [Scenario.press "s"])) in *.
      rewrite (run_one W s2). cbn [fst snd].
      destruct (step_writes W s2 (Scenario.press "y")) as [Hwr _].
      assert (Hc : confirms s2 (Scenario.press "y") = true).
      { unfold confirms, Scenario.press. rewrite P2. reflexivity. }
      rewrite Hc in Hwr. rewrite W1, W2, Hwr. unfold save_of. cbn [app].
      destruct S1 as (A1 & A2 & A3 & A4 & A5). destruct S2 as (C1 & C2 & C3 & C4 & C5).
      rewrite B2, B1, C1, C2, C3, C4, A1, A2, A3, A4. reflexivity.
    + rewrite splitlines_label_text, map_app. reflexivity.
  - assert (Ew : width l = S754_zero false).
    { unfold l. cbn [normalize width]. rewrite Z.sub_diag. apply extent_zero. lia. }
    assert (Eh : height l = S754_zero false).
    { unfold l. cbn [normalize height]. rewrite Z.sub_diag. apply extent_zero. lia. }
    split; [exact Ew|]. split; [exact Eh|].
    rewrite split_spaces_label_record. fold l. rewrite Ew, Eh. reflexivity.
Qed.

End FurtherFields.

(** *** The program from its start *)

Section FurtherWhole.

Import Binary64 PyFormat Labeling Dataset.

(** X21.  From the start of the program, on a dataset whose images have
    dimensions in the range of a C [int] and with mouse coordinates in that
    range, every file a session writes, whatever the inputs, is made of
    well-formed lines only: the class id [0] and four fields with six
    decimals, separated by single spaces. *)
Theorem X21_session_files_well_formed (W : world) (disk : gmap string string)
    (inputs : list input) :
  world_ok W -> Forall input_ok inputs ->
  Forall (fun pt => forallb is_label_record (splitlines (snd pt)) = true)
         (file_writes (snd (run W (fst (start W disk)) inputs))).
Proof.
  intros HW Hi. destruct (run_writes W (fst (start W disk)) inputs) as [-> _].
  pose proof (confirmations_ok W _ inputs HW (start_ok W disk HW) Hi) as Hc.
  induction Hc as [|c cs Hc _ IH]; cbn [map]; constructor; [|exact IH].
  destruct Hc as (_ & _ & Hb & Hh & Hw). cbn [save_of snd].
  apply label_text_ok; assumption.
Qed.


(** X23.  The windows are all destroyed and the closing message is
    printed exactly when the loop over the splits has ended, once, and
    never while an image is still open or after a crash. *)
Theorem X23_farewell_once_at_the_end (W : world) (disk : gmap string string)
    (inputs : list input) :
  let s0 := fst (start W disk) in
  let s := fst (run W s0 inputs) in
  List.filter is_farewell (snd (start W disk) ++ snd (run W s0 inputs))
  = match pc s with Exited => farewell | _ => [] end.
Proof.
  intros s0 s. rewrite List.filter_app.
  pose proof (filter_farewell_enter W splits (boot disk)) as H0.
  fold (start W disk) in H0. fold s0 in H0. rewrite H0.
  destruct (pc s0) eqn:E.
  - unfold s. rewrite filter_farewell_run by congruence. reflexivity.
  - unfold s. rewrite filter_farewell_run by congruence. reflexivity.
  - unfold s. rewrite run_stopped by (left; exact E). cbn [fst snd List.filter]. rewrite E.
    apply app_nil_r.
  - unfold s. rewrite filter_farewell_run by congruence. reflexivity.
Qed.

(** X24.  On a file system whose listings hold names without a slash, as
    [os.listdir] gives them, every label file is written directly in the
    [labels] directory of one of the three splits, and that directory has
    been created earlier in the same run ([os.makedirs], line 40, comes
    before the images of the split are listed). *)
Theorem X24_label_directory_made_before_write (W : world) (disk : gmap string string)
    (inputs : list input) :
  plain_names W ->
  writes_after_makedirs []
    (snd (start W disk) ++ snd (run W (fst (start W disk)) inputs)).
Proof.
  intros HP. apply writes_after_makedirs_app. split.
  - apply writes_after_makedirs_none. unfold start. apply enter_splits_frame.
  - apply (run_makedirs W _ inputs _ 0 HP (start_at W disk)).
    intros R. rewrite app_nil_r. apply in_rev. rewrite rev_involutive.
    unfold start in *. apply made_dirs_enter, R.
Qed.

(** X25.  The [labels] directories are created in the order [train],
    [val], [test], one per split entered, also for a split without any
    image: once the tool has ended all three have been created, each once;
    while it waits on an image, those of the splits up to the current one
    have been, and those of the splits to come have not. *)
Theorem X25_label_directories_in_split_order (W : world) (disk : gmap string string)
    (inputs : list input) :
  let s0 := fst (start W disk) in
  let s := fst (run W s0 inputs) in
  let made := made_dirs (snd (start W disk) ++ snd (run W s0 inputs)) in
  match pc s with
  | Crashed => True
  | Exited => made = map labels_folder splits
  | _ => made ++ map labels_folder (splits_left s) = map labels_folder splits
  end.
Proof.
  intros s0 s made. unfold made. rewrite made_dirs_app.
  apply (run_dirs W s0 inputs (made_dirs (snd (start W disk)))).
  apply (enter_splits_dirs W splits (boot disk) []). reflexivity.
Qed.

End FurtherWhole.

(** *** The text of a field *)

Section FurtherText.

Import Binary64 PyFormat Labeling Dataset Reading.

(** X26.  For a box whose corners lie within the image, the line written
    is the class id [0] followed by four fields that each read [0.dddddd]
    or [1.000000]: no sign, no exponent, one digit before the point. *)
Theorem X26_fields_print_as_zero_point_or_one (x1 y1 x2 y2 : Z) (w h : positive) :
  dim_ok w -> dim_ok h -> in_image (x1, y1, x2, y2) w h ->
  exists xc yc bw bh,
    split_spaces (label_record (x1, y1, x2, y2) w h) = ["0"; xc; yc; bw; bh]
    /\ is_unit_field xc /\ is_unit_field yc /\ is_unit_field bw /\ is_unit_field bh.
Proof.
  intros Hw Hh (X1 & X2 & Y1 & Y2). unfold dim_ok in *.
  rewrite split_spaces_label_record. cbn [normalize x_center y_center width height].
  do 4 eexists. split; [reflexivity|].
  split; [|split; [|split]].
  - apply format_6f_unit; [apply center_finite|apply center_sign|apply center_unit]; lia.
  - apply format_6f_unit; [apply center_finite|apply center_sign|apply center_unit]; lia.
  - apply format_6f_unit; [apply extent_finite|apply extent_sign|apply extent_unit]; lia.
  - apply format_6f_unit; [apply extent_finite|apply extent_sign|apply extent_unit]; lia.
Qed.

End FurtherText.

(** *** The accuracy of a field *)

Section FurtherAccuracy.

Import Binary64 PyFormat Labeling Reading.

(** X27.  For a box whose corners lie within the image, each of the four
    fields of the label line is printed as a decimal with six places that
    is within 0.000000500001 of the exact value of its formula
    ([(x1 + x2) / 2 / w], [|x2 - x1| / w] and the same in [y], over the
    rationals): half a millionth for the six decimals, the rest for the
    roundings of the float divisions. *)
Theorem X27_printed_fields_within_half_a_millionth (x1 y1 x2 y2 : Z) (w h : positive) :
  dim_ok w -> dim_ok h -> in_image (x1, y1, x2, y2) w h ->
  let l := normalize (x1, y1, x2, y2) w h in
  let tol := (500001 # 1000000000000)%Q in
  prints_within tol (x_center l)
    (Exact.center (inject_Z x1) (inject_Z x2) (inject_Z (Z.pos w)))
  /\ prints_within tol (y_center l)
       (Exact.center (inject_Z y1) (inject_Z y2) (inject_Z (Z.pos h)))
  /\ prints_within tol (width l)
       (Exact.extent (inject_Z x1) (inject_Z x2) (inject_Z (Z.pos w)))
  /\ prints_within tol (height l)
       (Exact.extent (inject_Z y1) (inject_Z y2) (inject_Z (Z.pos h))).
Proof.
  intros Hw Hh (X1 & X2 & Y1 & Y2) l tol. unfold dim_ok in *.
  unfold l, tol, Exact.center, Exact.extent.
  cbn [normalize x_center y_center width height].
  split; [|split; [|split]].
  - destruct (center_printed (x1 + x2) (Z.pos w) ltac:(lia) ltac:(lia)) as (n & F & E).
    exists n. split; [exact F|]. rewrite <- inject_Z_plus. exact E.
  - destruct (center_printed (y1 + y2) (Z.pos h) ltac:(lia) ltac:(lia)) as (n & F & E).
    exists n. split; [exact F|]. rewrite <- inject_Z_plus. exact E.
  - destruct (extent_printed (Z.abs (x2 - x1)) (Z.pos w) ltac:(lia) ltac:(lia)) as (n & F & E).
    exists n. split; [exact F|].
    rewrite inject_Z_abs in E. unfold Z.sub in E. rewrite inject_Z_plus, inject_Z_opp in E.
    exact E.
  - destruct (extent_printed (Z.abs (y2 - y1)) (Z.pos h) ltac:(lia) ltac:(lia)) as (n & F & E).
    exists n. split; [exact F|].
    rewrite inject_Z_abs in E. unfold Z.sub in E. rewrite inject_Z_plus, inject_Z_opp in E.
    exact E.
Qed.

End FurtherAccuracy.

(** *** Examples *)

Section FurtherWitnesses.

Import Binary64 PyFormat Posixpath Labeling Dataset Reading.

Lemma world1_ok : world_ok Scenario.world1.
Proof.
  intros p sh. unfold Scenario.world1, image_shape.
  destruct (_ || _); [|discriminate]. intros [= <-]. split; reflexivity.
Qed.


Lemma world1_plain : plain_names Scenario.world1.
Proof.
  intros d names. unfold Scenario.world1, listdir.
  destruct (String.eqb d (img_folder "train")); intros [= <-].
  - repeat (apply List.Forall_cons; [reflexivity|]). apply List.Forall_nil.
  - apply List.Forall_nil.
Qed.

(** X6 on a press on [a.png], a skip, and a release on [b.png]. *)
Lemma X6_witness :
  let s := fst (step Scenario.world1 Scenario.on_a (Mouse EVENT_LBUTTONDOWN 5 5)) in
  let s1 := fst (run Scenario.world1 s [Scenario.press "n"]) in
  Forall no_press [Scenario.press "n"] /\ running s1
  /\ current_boxes (fst (step Scenario.world1 s1 (Mouse EVENT_LBUTTONUP 20 20)))
     = current_boxes s1 ++ [(ix s, iy s, 20, 20)].
Proof.
  cbv zeta.
  set (s := fst (step Scenario.world1 Scenario.on_a (Mouse EVENT_LBUTTONDOWN 5 5))).
  assert (Hi : Forall no_press [Scenario.press "n"])
    by (apply List.Forall_cons; [exact I|apply List.Forall_nil]).
  assert (R : running (fst (run Scenario.world1 s [Scenario.press "n"])))
    by (left; vm_compute; reflexivity).
  exact (conj Hi (conj R
           (X6_release_uses_last_press Scenario.world1 s [Scenario.press "n"] 20 20 Hi R))).
Defined.

(** X7 on a release received first. *)
Lemma X7_witness :
  let s1 := fst (run Scenario.world1 (fst (start Scenario.world1 ∅)) []) in
  Forall no_press [] /\ running s1
  /\ current_boxes (fst (step Scenario.world1 s1 (Mouse EVENT_LBUTTONUP 20 20)))
     = current_boxes s1 ++ [(-1, -1, 20, 20)].
Proof.
  cbv zeta.
  assert (Hi : Forall no_press []) by apply List.Forall_nil.
  assert (R : running (fst (run Scenario.world1 (fst (start Scenario.world1 ∅)) [])))
    by (left; vm_compute; reflexivity).
  exact (conj Hi (conj R
           (X7_release_before_any_press Scenario.world1 ∅ [] 20 20 Hi R))).
Defined.

(** X8 on two drags on [a.png]. *)
Lemma X8_witness :
  running Scenario.on_a
  /\ current_boxes (fst (run Scenario.world1 Scenario.on_a
                          (drags [(1, 2, 3, 4); (5, 6, 7, 8)])))
     = current_boxes Scenario.on_a ++ [(1, 2, 3, 4); (5, 6, 7, 8)].
Proof.
  assert (R : running Scenario.on_a) by (left; reflexivity).
  exact (conj R (proj1 (X8_drags_commit_in_order Scenario.world1 Scenario.on_a
                          [(1, 2, 3, 4); (5, 6, 7, 8)] R))).
Defined.

(** X9 on two drags on [a.png], saved. *)
Lemma X9_witness :
  pc Scenario.on_a = MainLoop /\ current_boxes Scenario.on_a = []
  /\ splitlines (label_text [(1, 2, 3, 4); (5, 6, 7, 8)] (w Scenario.on_a) (h Scenario.on_a))
     = map (fun b => label_record b (w Scenario.on_a) (h Scenario.on_a))
           [(1, 2, 3, 4); (5, 6, 7, 8)].
Proof.
  assert (Hpc : pc Scenario.on_a = MainLoop) by reflexivity.
  assert (Hb : current_boxes Scenario.on_a = []) by reflexivity.
  exact (conj Hpc (conj Hb
           (proj2 (proj2 (X9_saved_lines_follow_drawing_order Scenario.world1 Scenario.on_a
                            [(1, 2, 3, 4); (5, 6, 7, 8)] Hpc Hb))))).
Defined.

(** X10 on a box dragged on [a.png] while the Preview is open. *)
Lemma X10_witness :
  pc Scenario.on_a = MainLoop
  /\ file_writes (snd (run Scenario.world1 Scenario.on_a
                         ([Scenario.press "s"] ++ Scenario.drag 10 10 30 30
                          ++ [Scenario.press "y"])))
     = [(label_path (split Scenario.on_a) (img_name Scenario.on_a),
         label_text (current_boxes Scenario.on_a ++ [(10, 10, 30, 30)])
                    (w Scenario.on_a) (h Scenario.on_a))].
Proof.
  assert (Hpc : pc Scenario.on_a = MainLoop) by reflexivity.
  exact (conj Hpc
           (proj2 (X10_box_drawn_during_preview_is_saved Scenario.world1 Scenario.on_a
                     10 10 30 30 Hpc))).
Defined.

(** X12 on the value [-1] of a call of [cv2.waitKey] that timed out. *)
Lemma X12_witness :
  (pc Scenario.on_a = MainLoop /\ Z.land (-1) 255 <> ord "s"
   /\ Z.land (-1) 255 <> ord "n" /\ Z.land (-1) 255 <> ord "r")
  /\ fst (step Scenario.world1 Scenario.on_a (WaitKey (-1))) = Scenario.on_a.
Proof.
  assert (H : pc Scenario.on_a = MainLoop /\ Z.land (-1) 255 <> ord "s"
              /\ Z.land (-1) 255 <> ord "n" /\ Z.land (-1) 255 <> ord "r")
    by (split; [reflexivity|split; [|split]]; discriminate).
  exact (conj H (proj1 (X12_other_keys_change_nothing Scenario.world1 Scenario.on_a (-1)
                          (or_introl H)))).
Defined.

(** X14 on the Preview of [a.png]. *)
Lemma X14_witness :
  let s := fst (run Scenario.world1 Scenario.on_a [Scenario.press "s"]) in
  pc s = PreviewLoop
  /\ fst (step Scenario.world1 s (Scenario.press "y"))
     = set_files (fst (step Scenario.world1 s (Scenario.press "n")))
         (<[label_path (split s) (img_name s) :=
              label_text (current_boxes s) (w s) (h s)]> (files s)).
Proof.
  cbv zeta. set (s := fst (run Scenario.world1 Scenario.on_a [Scenario.press "s"])).
  assert (Hpc : pc s = PreviewLoop) by reflexivity.
  exact (conj Hpc (X14_confirm_is_cancel_plus_write Scenario.world1 s Hpc)).
Defined.

(** X15 on [a.png] in the [train] split. *)
Lemma X15_witness :
  In "train" splits /\ lacks "/" "a" = true /\ all_dots "a" = false
  /\ lacks "/" "png" = true /\ lacks "." "png" = true
  /\ label_path "train" ("a" +:+ "." +:+ "png")
     = dataset_folder +:+ "train" +:+ "/labels/" +:+ "a" +:+ ".txt".
Proof.
  assert (H1 : In "train" splits) by (left; reflexivity).
  assert (H2 : lacks "/" "a" = true) by reflexivity.
  assert (H3 : all_dots "a" = false) by reflexivity.
  assert (H4 : lacks "/" "png" = true) by reflexivity.
  assert (H5 : lacks "." "png" = true) by reflexivity.
  exact (conj H1 (conj H2 (conj H3 (conj H4 (conj H5
           (proj2 (X15_label_file_replaces_extension "train" "a" "png" H1 H2 H3 H4 H5))))))).
Defined.

(** X17 on [a.png] in the [train] split. *)
Lemma X17_witness :
  In "train" splits /\ lacks "/" "a.png" = true
  /\ exists base,
       label_path "train" "a.png" = dataset_folder +:+ "train" +:+ "/labels/" +:+ base
       /\ lacks "/" base = true /\ endswith ".txt" base = true.
Proof.
  assert (H1 : In "train" splits) by (left; reflexivity).
  assert (H2 : lacks "/" "a.png" = true) by reflexivity.
  exact (conj H1 (conj H2 (X17_label_file_is_in_labels_folder "train" "a.png" H1 H2))).
Defined.

(** X19 on a box that leaves a 100 x 100 image on the right. *)
Lemma X19_witness :
  box_ok (90, 10, 130, 30) /\ dim_ok 100 /\ dim_ok 100
  /\ ((0 <= SF2Q (x_center (normalize (90, 10, 130, 30)%Z 100%positive 100%positive)) <= 1)%Q
      <-> 0 <= 90 + 130 <= 2 * 100).
Proof.
  assert (Hb : box_ok (90, 10, 130, 30)) by (unfold box_ok, int32; lia).
  assert (Hd : dim_ok 100) by reflexivity.
  exact (conj Hb (conj Hd (conj Hd
           (proj1 (X19_fields_in_unit_iff_box_centred 90 10 130 30 100 100 Hb Hd Hd))))).
Defined.

(** X20 on a click at [(10, 10)] on [a.png]. *)
Lemma X20_witness :
  pc Scenario.on_a = MainLoop /\ dim_ok (w Scenario.on_a) /\ dim_ok (h Scenario.on_a)
  /\ current_boxes (fst (run Scenario.world1 Scenario.on_a (Scenario.click 10 10)))
     = current_boxes Scenario.on_a ++ [(10, 10, 10, 10)].
Proof.
  assert (Hpc : pc Scenario.on_a = MainLoop) by reflexivity.
  assert (Hw : dim_ok (w Scenario.on_a)) by reflexivity.
  assert (Hh : dim_ok (h Scenario.on_a)) by reflexivity.
  exact (conj Hpc (conj Hw (conj Hh
           (proj1 (X20_click_saves_empty_box Scenario.world1 Scenario.on_a 10 10
                     Hpc Hw Hh))))).
Defined.

(** X21 on a session that draws one box and saves it. *)
Lemma X21_witness :
  let inputs := Scenario.drag 10 10 30 30 ++ [Scenario.press "s"; Scenario.press "y"] in
  world_ok Scenario.world1 /\ Forall input_ok inputs
  /\ Forall (fun pt => forallb is_label_record (splitlines (snd pt)) = true)
       (file_writes (snd (run Scenario.world1 (fst (start Scenario.world1 ∅)) inputs))).
Proof.
  cbv zeta.
  assert (Hi : Forall input_ok
                 (Scenario.drag 10 10 30 30 ++ [Scenario.press "s"; Scenario.press "y"])).
  { unfold Scenario.drag, Scenario.press, input_ok, int32. cbn [app].
    repeat (apply List.Forall_cons; [try exact I; lia|]). apply List.Forall_nil. }
  exact (conj world1_ok (conj Hi
           (X21_session_files_well_formed Scenario.world1 ∅ _ world1_ok Hi))).
Defined.


(** X24 on a session that saves [a.png] and skips [b.png]. *)
Lemma X24_witness :
  let inputs := Scenario.drag 10 10 30 30
                ++ [Scenario.press "s"; Scenario.press "y"; Scenario.press "n"] in
  plain_names Scenario.world1
  /\ writes_after_makedirs []
       (snd (start Scenario.world1 ∅)
        ++ snd (run Scenario.world1 (fst (start Scenario.world1 ∅)) inputs)).
Proof.
  cbv zeta.
  exact (conj world1_plain
           (X24_label_directory_made_before_write Scenario.world1 ∅ _ world1_plain)).
Defined.

(** X26 on the box [(10, 10, 30, 30)] of a 100 x 100 image. *)
Lemma X26_witness :
  dim_ok 100 /\ dim_ok 100 /\ in_image (10, 10, 30, 30) 100 100
  /\ exists xc yc bw bh,
       split_spaces (label_record (10, 10, 30, 30) 100 100) = ["0"; xc; yc; bw; bh]
       /\ is_unit_field xc /\ is_unit_field yc /\ is_unit_field bw /\ is_unit_field bh.
Proof.
  assert (Hd : dim_ok 100) by reflexivity.
  assert (Hb : in_image (10, 10, 30, 30) 100 100) by (unfold in_image; lia).
  exact (conj Hd (conj Hd (conj Hb
           (X26_fields_print_as_zero_point_or_one 10 10 30 30 100 100 Hd Hd Hb)))).
Defined.

(** X27 on the box [(10, 10, 30, 30)] of a 100 x 100 image. *)
Lemma X27_witness :
  dim_ok 100 /\ dim_ok 100 /\ in_image (10, 10, 30, 30) 100 100
  /\ prints_within (500001 # 1000000000000)
       (x_center (normalize (10, 10, 30, 30) 100 100))
       (Exact.center (inject_Z 10) (inject_Z 30) (inject_Z 100)).
Proof.
  assert (Hd : dim_ok 100) by reflexivity.
  assert (Hb : in_image (10, 10, 30, 30) 100 100) by (unfold in_image; lia).
  exact (conj Hd (conj Hd (conj Hb
           (proj1 (X27_printed_fields_within_half_a_millionth 10 10 30 30 100 100 Hd Hd Hb))))).
Defined.

End FurtherWitnesses.
